(** * Model resolution and streaming completion engine: a shallow embedding.

    The development follows the TypeScript sources:
    - [models.ts]            (role registry, [getDefaultModelForRole],
                              [getUpdatedModelSettings]);
    - [model-discovery.ts]   ([ModelDiscoveryService]);
    - [model-manager.ts]     ([ModelManager]);
    - [gemini-client.ts]     ([GeminiClient]).

    JavaScript strings are modelled as [string], one character for each
    UTF-16 code unit, for texts whose code units are below 256 (model
    identifiers are ASCII); numbers that are timestamps, counters or indices as [Z] or [nat],
    [undefined]/absent fields as [option], arrays as [list], a [Set] of
    identifiers as stdpp's [gset string], and the insertion-ordered [Map] of
    the streaming client as an association list. *)

From Stdlib Require Import ZArith Ascii String List Bool Lia Permutation.
From stdpp Require Import base gmap strings list sets pretty.

Import ListNotations.
Set Warnings "-register-all".
Local Open Scope string_scope.
Local Open Scope list_scope.

(* ===================================================================== *)
(** ** JavaScript values shared by the sources                            *)
(* ===================================================================== *)

Module Js.

(** A thrown value: an [Error] carrying a message, or anything else. *)
Inductive Thrown :=
| ErrorWith (message : string)
| NonError.

(** The outcome of evaluating a call: a returned value or an exception
    that reaches the caller. *)
Inductive Completion (A : Type) :=
| Returned (a : A)
| Threw (e : Thrown).

Arguments Returned {A} a.
Arguments Threw {A} e.

(** [error instanceof Error ? error.message : 'Unknown error'] *)
Definition errorMessage (error : Thrown) : string :=
  match error with
  | ErrorWith message => message
  | NonError => "Unknown error"
  end.

(** Computations over a state [S] that may throw. *)
Definition M (S A : Type) : Type := S -> Completion A * S.

Definition ret {S A} (a : A) : M S A := fun st => (Returned a, st).

Definition throw {S A} (e : Thrown) : M S A := fun st => (Threw e, st).

Definition bind {S A B} (m : M S A) (k : A -> M S B) : M S B :=
  fun st =>
    match m st with
    | (Returned a, st') => k a st'
    | (Threw e, st') => (Threw e, st')
    end.

(** [try { body } catch (error) { handler }]: the state changes made by
    [body] before it threw are kept. *)
Definition tryCatch {S A} (body : M S A) (handler : Thrown -> M S A) : M S A :=
  fun st =>
    match body st with
    | (Returned a, st') => (Returned a, st')
    | (Threw e, st') => handler e st'
    end.

Declare Scope js_scope.
Delimit Scope js_scope with js.

Notation "x <- c1 ;; c2" := (bind c1 (fun x => c2))
  (at level 100, c1 at next level, right associativity) : js_scope.
Notation "c1 ;;; c2" := (bind c1 (fun _ => c2))
  (at level 100, right associativity) : js_scope.

(** [!!value] for a string that may be absent: absent or empty is falsy. *)
Definition truthy (s : option string) : bool :=
  match s with
  | Some EmptyString => false
  | Some _ => true
  | None => false
  end.

(** [value || ''] for a string that may be absent. *)
Definition orEmpty (s : option string) : string :=
  match s with
  | Some v => v
  | None => ""
  end.

(** Template-literal rendering of a possibly undefined string. *)
Definition show (s : option string) : string :=
  match s with
  | Some v => v
  | None => "undefined"
  end.

(** [String.prototype.toLowerCase] on ASCII text. *)
Definition lowerAscii (c : ascii) : ascii :=
  let n := nat_of_ascii c in
  if (65 <=? n)%nat && (n <=? 90)%nat then ascii_of_nat (n + 32) else c.

Fixpoint toLowerCase (s : string) : string :=
  match s with
  | EmptyString => EmptyString
  | String c r => String (lowerAscii c) (toLowerCase r)
  end.

(** [s.startsWith(p)] *)
Definition startsWith (s p : string) : bool := String.prefix p s.

(** [s.includes(sub)]: [sub] occurs at some offset of [s]. *)
Fixpoint includes (s sub : string) : bool :=
  String.prefix sub s
  || match s with
     | EmptyString => false
     | String _ r => includes r sub
     end.

(** [s.slice(n)] for [0 <= n]. *)
Fixpoint slice (n : nat) (s : string) : string :=
  match n, s with
  | O, _ => s
  | S k, String _ r => slice k r
  | S _, EmptyString => EmptyString
  end.

(** White space removed by [trim], among the code units below 256: the
    control characters 9 to 13, the space and the no-break space. *)
Definition isSpace (c : ascii) : bool :=
  let n := nat_of_ascii c in
  ((9 <=? n)%nat && (n <=? 13)%nat) || (n =? 32)%nat || (n =? 160)%nat.

Fixpoint trimStart (s : string) : string :=
  match s with
  | String c r => if isSpace c then trimStart r else s
  | EmptyString => EmptyString
  end.

Fixpoint trimEnd (s : string) : string :=
  match s with
  | EmptyString => EmptyString
  | String c r =>
      match trimEnd r with
      | EmptyString => if isSpace c then EmptyString else String c EmptyString
      | r' => String c r'
      end
  end.

Definition trim (s : string) : string := trimEnd (trimStart s).

(** [s.split(sep)] for a non-empty separator: [skip] counts the characters
    of a matched separator still to be dropped, [cur] is the piece being
    read, last character first. *)
Fixpoint splitFrom (sep : string) (skip : nat) (cur : string) (s : string)
  : list string :=
  match s with
  | EmptyString => [String.rev cur]
  | String c r =>
      match skip with
      | S k => splitFrom sep k cur r
      | O =>
          if String.prefix sep s
          then String.rev cur :: splitFrom sep (String.length sep - 1) EmptyString r
          else splitFrom sep O (String c cur) r
      end
  end.

Definition split (s sep : string) : list string := splitFrom sep O EmptyString s.

(** The texts of a list joined in order. *)
Definition joinAll (l : list string) : string :=
  fold_right String.append "" l.

End Js.

(* ===================================================================== *)
(** ** models.ts: the role registry                                       *)
(* ===================================================================== *)

Module Models.

Inductive ModelRole := chat | summary | completions | rewrite | image.

Definition ModelRole_eqb (a b : ModelRole) : bool :=
  match a, b with
  | chat, chat | summary, summary | completions, completions
  | rewrite, rewrite | image, image => true
  | _, _ => false
  end.

Record GeminiModel := mkModel {
  value : string;
  label : string;
  defaultForRoles : option (list ModelRole);
  supportsImageGeneration : option bool
}.

Definition DEFAULT_GEMINI_MODELS : list GeminiModel :=
  [ mkModel "compound" "Compound" (Some [chat; rewrite]) None;
    mkModel "compound-mini" "Compound Mini" (Some [summary]) None;
    mkModel "llama-3.3-70b-versatile" "Llama 3.3 70B Versatile"
            (Some [completions]) None;
    mkModel "openai/gpt-oss-120b" "GPT OSS 120B" None None;
    mkModel "moonshotai/kimi-k2-instruct-0905" "Kimi K2 Instruct 0905"
            None None;
    mkModel "deepseek-r1-distill-llama-70b" "DeepSeek R1 Distill Llama 70B"
            None None;
    mkModel "llama-3.1-8b-instant" "Llama 3.1 8B Instant" None None ].

(** [m.defaultForRoles?.includes(role)] *)
Definition claimsRole (role : ModelRole) (m : GeminiModel) : bool :=
  match defaultForRoles m with
  | Some roles => existsb (ModelRole_eqb role) roles
  | None => false
  end.

Definition emptyRegistryError : Js.Thrown :=
  Js.ErrorWith
    "CRITICAL: GEMINI_MODELS array is empty. Please configure available models.".

(** [getDefaultModelForRole] reads the module-level registry, passed here
    as [GEMINI_MODELS]. *)
Definition getDefaultModelForRole
    (GEMINI_MODELS : list GeminiModel) (role : ModelRole)
  : Js.Completion string :=
  match List.find (claimsRole role) GEMINI_MODELS with
  | Some modelForRole => Js.Returned (value modelForRole)
  | None =>
      match GEMINI_MODELS with
      | first :: _ => Js.Returned (value first)
      | [] => Js.Threw emptyRegistryError
      end
  end.

(** The plugin settings object, at the fields the sources read. *)
Record Settings := mkSettings {
  apiKey : string;
  modelDiscoveryEnabled : bool;
  chatModelName : option string;
  summaryModelName : option string;
  completionsModelName : option string;
  imageModelName : option string
}.

Definition set_chatModelName (v : string) (s : Settings) : Settings :=
  mkSettings (apiKey s) (modelDiscoveryEnabled s) (Some v)
             (summaryModelName s) (completionsModelName s) (imageModelName s).

Definition set_summaryModelName (v : string) (s : Settings) : Settings :=
  mkSettings (apiKey s) (modelDiscoveryEnabled s) (chatModelName s)
             (Some v) (completionsModelName s) (imageModelName s).

Definition set_completionsModelName (v : string) (s : Settings) : Settings :=
  mkSettings (apiKey s) (modelDiscoveryEnabled s) (chatModelName s)
             (summaryModelName s) (Some v) (imageModelName s).

Definition set_imageModelName (v : string) (s : Settings) : Settings :=
  mkSettings (apiKey s) (modelDiscoveryEnabled s) (chatModelName s)
             (summaryModelName s) (completionsModelName s) (Some v).

Record ModelUpdateResult := mkUpdate {
  updatedSettings : Settings;
  settingsChanged : bool;
  changedSettingsInfo : list string
}.

(** [new Set(GEMINI_MODELS.map((m) => m.value))] *)
Definition valueSet (models : list GeminiModel) : gset string :=
  list_to_set (map value models).

(** [availableModelValues.has(modelName)] *)
Definition has (available : gset string) (modelName : option string) : bool :=
  match modelName with
  | Some n => bool_decide (n ∈ available)
  | None => false
  end.

(** [needsUpdate = (modelName) => !modelName || !availableModelValues.has(modelName)] *)
Definition needsUpdate (available : gset string) (modelName : option string)
  : bool :=
  negb (Js.truthy modelName) || negb (has available modelName).

(** One [if (needsUpdate(newSettings.xModelName)) { ... }] block for a role
    that is reassigned to its default. *)
Definition reassignBlock
    (GEMINI_MODELS : list GeminiModel) (available : gset string)
    (role : ModelRole) (title : string)
    (get : Settings -> option string) (set : string -> Settings -> Settings)
    (acc : ModelUpdateResult) : Js.Completion ModelUpdateResult :=
  let newSettings := updatedSettings acc in
  if needsUpdate available (get newSettings) then
    match getDefaultModelForRole GEMINI_MODELS role with
    | Js.Threw e => Js.Threw e
    | Js.Returned next =>
        Js.Returned
          (mkUpdate (set next newSettings) true
             (changedSettingsInfo acc ++
                [title +:+ " model: '" +:+ Js.show (get newSettings) +:+
                 "' -> '" +:+ next +:+ "' (model update)"]))
    end
  else Js.Returned acc.

(** The image block clears the setting instead of reassigning it. *)
Definition imageBlock (available : gset string) (acc : ModelUpdateResult)
  : ModelUpdateResult :=
  let newSettings := updatedSettings acc in
  if Js.truthy (imageModelName newSettings)
     && needsUpdate available (imageModelName newSettings) then
    mkUpdate (set_imageModelName "" newSettings) true
      (changedSettingsInfo acc ++
         ["Image model '" +:+ Js.show (imageModelName newSettings) +:+
          "' is not available on Groq and was cleared."])
  else acc.

Definition getUpdatedModelSettings
    (GEMINI_MODELS : list GeminiModel) (currentSettings : Settings)
  : Js.Completion ModelUpdateResult :=
  let availableModelValues := valueSet GEMINI_MODELS in
  let start := mkUpdate currentSettings false [] in
  match reassignBlock GEMINI_MODELS availableModelValues chat "Chat"
          chatModelName set_chatModelName start with
  | Js.Threw e => Js.Threw e
  | Js.Returned r1 =>
  match reassignBlock GEMINI_MODELS availableModelValues summary "Summary"
          summaryModelName set_summaryModelName r1 with
  | Js.Threw e => Js.Threw e
  | Js.Returned r2 =>
  match reassignBlock GEMINI_MODELS availableModelValues completions
          "Completions" completionsModelName set_completionsModelName r2 with
  | Js.Threw e => Js.Threw e
  | Js.Returned r3 => Js.Returned (imageBlock availableModelValues r3)
  end end end.

End Models.

(* ===================================================================== *)
(** ** model-discovery.ts: ModelDiscoveryService                          *)
(* ===================================================================== *)

Module Discovery.

Import Js.

Record GoogleModel := mkGoogleModel {
  name : string;
  displayName : string;
  description : string;
  version : string;
  inputTokenLimit : Z;
  outputTokenLimit : Z;
  supportedGenerationMethods : list string;
  baseModelId : option string;
  maxTemperature : option Z;
  topP : option Z;
  topK : option Z
}.

Record ModelDiscoveryResult := mkResult {
  models : list GoogleModel;
  lastUpdated : Z;
  success : bool;
  error : option string
}.

(** [CACHE_DURATION = 24 * 60 * 60 * 1000] milliseconds. *)
Definition CACHE_DURATION : Z := (24 * 60 * 60 * 1000)%Z.

(** An entry of the catalog's [data] array. *)
Record CatalogEntry := mkEntry {
  id : option string;
  owned_by : option string
}.

(** What [response.json()] gives: a rejection (also standing for a body
    whose [data] cannot be filtered, a [TypeError]), or an object whose
    [data] field is an array or absent. *)
Inductive Body :=
| BodyRejects (e : Thrown)
| BodyJson (data : option (list CatalogEntry)).

(** What [fetch] gives: a rejection (network error) or a response. *)
Inductive FetchOutcome :=
| FetchRejects (e : Thrown)
| FetchResponds (ok : bool) (status : Z) (statusText : string) (body : Body).

(** The surroundings of one call: the plugin's settings, the answer the
    network gives if asked, the time the request takes, and whether the
    host's [loadData] and [saveData] reject. *)
Record Env := mkEnv {
  settings : Models.Settings;
  network : FetchOutcome;
  latency : Z;
  loadDataRejects : option Thrown;
  saveDataRejects : option Thrown
}.

(** The mutable state the service touches: its [cache] field, the clock
    behind [Date.now()], the [modelDiscoveryCache] entry of the host's
    stored data, and the number of [fetch] calls issued so far. *)
Record State := mkState {
  cache : option ModelDiscoveryResult;
  clock : Z;
  stored : option ModelDiscoveryResult;
  requests : nat
}.

(** Computations of the service over its [State]. *)
Definition M (A : Type) : Type := Js.M State A.

Local Open Scope js_scope.

Definition dateNow : M Z := fun st => (Returned (clock st), st).

Definition getCache : M (option ModelDiscoveryResult) :=
  fun st => (Returned (cache st), st).

Definition setCache (c : option ModelDiscoveryResult) : M unit :=
  fun st => (Returned tt, mkState c (clock st) (stored st) (requests st)).

(** [await fetch(url, ...)]: one request is issued, time passes, and the
    network answers. *)
Definition fetch (env : Env) : M FetchOutcome :=
  fun st =>
    (Returned (network env),
     mkState (cache st) (clock st + latency env)%Z (stored st)
             (S (requests st))).

(** [isGenerativeModel] *)
Definition isGenerativeModel (model : CatalogEntry) : bool :=
  let id := toLowerCase (match id model with Some i => i | None => "" end) in
  truthy (Some id)
  && negb (includes id "whisper")
  && negb (includes id "tts")
  && negb (includes id "vision-preview").

Definition toGoogleModel (model : CatalogEntry) : GoogleModel :=
  let id := match id model with Some i => i | None => "" end in
  mkGoogleModel id id
    (if truthy (owned_by model)
     then match owned_by model with Some o => o | None => "" end
     else "Groq model")
    "latest" 131072%Z 8192%Z ["generateContent"] None (Some 2%Z) (Some 1%Z)
    None.

(** [fetchModelsFromAPI] *)
Definition fetchModelsFromAPI (env : Env) : M (list GoogleModel) :=
  let apiKey := Models.apiKey (settings env) in
  if negb (truthy (Some apiKey)) then
    throw (ErrorWith "API key not configured")
  else
    response <- fetch env ;;
    match response with
    | FetchRejects e => throw e
    | FetchResponds ok status statusText body =>
        if negb ok then
          throw (ErrorWith ("API request failed: " +:+ pretty status +:+
                            " " +:+ statusText))
        else
          match body with
          | BodyRejects e => throw e
          | BodyJson data =>
              let entries := match data with Some d => d | None => [] end in
              ret (map toGoogleModel (List.filter isGenerativeModel entries))
          end
    end.

(** [isCacheValid] *)
Definition isCacheValid : M bool :=
  fun st =>
    (Returned
       match cache st with
       | Some c => (clock st - lastUpdated c <? CACHE_DURATION)%Z
       | None => false
       end,
     st).

(** [persistCache] *)
Definition persistCache (env : Env) (result : ModelDiscoveryResult) : M unit :=
  fun st =>
    match loadDataRejects env with
    | Some e => (Threw e, st)
    | None =>
        match saveDataRejects env with
        | Some e => (Threw e, st)
        | None =>
            (Returned tt,
             mkState (cache st) (clock st) (Some result) (requests st))
        end
    end.

(** The [try { ... } catch (error) { ... }] statement of [discoverModels]. *)
Definition refresh (env : Env) : M ModelDiscoveryResult :=
  tryCatch
    (models <- fetchModelsFromAPI env ;;
     now <- dateNow ;;
     let result := mkResult models now true None in
     setCache (Some result) ;;;
     persistCache env result ;;;
     ret result)
    (fun error =>
       now <- dateNow ;;
       let result := mkResult [] now false (Some (errorMessage error)) in
       cached <- getCache ;;
       ret (match cached with Some c => c | None => result end)).

(** [discoverModels(forceRefresh)] *)
Definition discoverModels (env : Env) (forceRefresh : bool)
  : M ModelDiscoveryResult :=
  cached <- getCache ;;
  valid <- isCacheValid ;;
  match cached with
  | Some c => if negb forceRefresh && valid then ret c else refresh env
  | None => refresh env
  end.

(** Time passing between two calls of the service. *)
Definition atTime (now : Z) (st : State) : State :=
  mkState (cache st) now (stored st) (requests st).

(** The models a catalog answer is mapped to. *)
Definition catalogModels (data : option (list CatalogEntry))
  : list GoogleModel :=
  map toGoogleModel
      (List.filter isGenerativeModel
                   (match data with Some d => d | None => [] end)).

(** [loadCache] *)
Definition loadCache (env : Env) : M unit :=
  fun st =>
    match loadDataRejects env with
    | Some e => (Threw e, st)
    | None =>
        (Returned tt, mkState (stored st) (clock st) (stored st) (requests st))
    end.

(** [clearCache] *)
Definition clearCache : M unit := setCache None.

Record CacheInfo := mkCacheInfo {
  hasCache : bool;
  isValid : bool;
  infoLastUpdated : option Z
}.

(** [getCacheInfo] *)
Definition getCacheInfo : M CacheInfo :=
  cached <- getCache ;;
  valid <- isCacheValid ;;
  ret (mkCacheInfo (bool_decide (is_Some cached)) valid
                   (option_map lastUpdated cached)).

End Discovery.

(* ===================================================================== *)
(** ** model-manager.ts: ModelManager                                     *)
(* ===================================================================== *)

Module Manager.

Import Js Models.

Local Open Scope js_scope.

Record ModelUpdateOptions := mkOptions {
  forceRefresh : bool;
  preserveUserCustomizations : bool
}.

(** The manager's world: its discovery service (with the platform state
    the service touches) and the process-wide registry of models.ts. *)
Record State := mkState {
  service : Discovery.State;
  GEMINI_MODELS : list GeminiModel
}.

Definition M (A : Type) : Type := Js.M State A.

(** Run a call of the discovery service inside the manager. *)
Definition onService {A} (m : Discovery.M A) : M A :=
  fun st =>
    let (r, sv) := m (service st) in
    (r, mkState sv (GEMINI_MODELS st)).

(** [ModelManager.staticModels = [...DEFAULT_GEMINI_MODELS]] *)
Definition staticModels : list GeminiModel := DEFAULT_GEMINI_MODELS.

(** The first test of the filter callback: specialised non-chat families,
    read on the lower-cased identifier. *)
Definition isExcludedFamily (modelValue : string) : bool :=
  includes modelValue "embedding"
  || includes modelValue "whisper"
  || includes modelValue "tts"
  || includes modelValue "transcribe"
  || includes modelValue "moderation"
  || includes modelValue "guard"
  || includes modelValue "speech".

Definition isImageModel (model : GeminiModel) (modelValue : string) : bool :=
  match supportsImageGeneration model with Some b => b | None => false end
  || includes modelValue "image"
  || includes modelValue "vision"
  || includes modelValue "flux".

(** The callback given to [models.filter]. *)
Definition keepModel (imageModelsOnly : bool) (model : GeminiModel) : bool :=
  let modelValue := toLowerCase (value model) in
  if isExcludedFamily modelValue then false
  else
    let isImageModel := isImageModel model modelValue in
    if imageModelsOnly then isImageModel else negb isImageModel.

(** [filterModelsForVersion] (the debug log line has no effect on the
    result). *)
Definition filterModelsForVersion
    (models : list GeminiModel) (imageModelsOnly : bool) : list GeminiModel :=
  List.filter (keepModel imageModelsOnly) models.

(** The seven literals tested by [isExcludedFamily], in source order. *)
Definition denylist : list string :=
  ["embedding"; "whisper"; "tts"; "transcribe"; "moderation"; "guard";
   "speech"].

(** A model passes the first test of the filter callback. *)
Definition survivesDenylist (model : GeminiModel) : bool :=
  negb (isExcludedFamily (toLowerCase (value model))).

(** A model is classified as an image model by the filter callback. *)
Definition imageCapable (model : GeminiModel) : bool :=
  isImageModel model (toLowerCase (value model)).

(** A model-name setting names a model of [models]. *)
Definition stillPresent (models : list GeminiModel) (name : option string)
  : Prop :=
  exists n, name = Some n /\ n <> "" /\ In n (map value models).

(** The default of a role in the registry [models], when there is one. *)
Definition roleDefault (models : list GeminiModel) (role : ModelRole)
  : option string :=
  match getDefaultModelForRole models role with
  | Returned v => Some v
  | Threw _ => None
  end.

(** [areSetsEqual] *)
Definition areSetsEqual (set1 set2 : gset string) : bool :=
  (size set1 =? size set2)%nat
  && forallb (fun item => bool_decide (item ∈ set2)) (elements set1).

(** [detectModelChanges] *)
Definition detectModelChanges (current previous : list GeminiModel) : bool :=
  if negb (length current =? length previous)%nat then true
  else
    let currentIds := valueSet current in
    let previousIds := valueSet previous in
    negb (areSetsEqual currentIds previousIds).

(** [getCurrentGeminiModels] *)
Definition getCurrentGeminiModels : M (list GeminiModel) :=
  fun st => (Returned (GEMINI_MODELS st), st).

(** [updateGlobalModelsList], through [setGeminiModels]: the registry
    array is emptied and refilled with [newModels], an array of its own. *)
Definition updateGlobalModelsList (newModels : list GeminiModel) : M unit :=
  fun st => (Returned tt, mkState (service st) newModels).

Section WithMapper.

(** [ModelMapper] lives in model-mapper.ts; its three transforms are taken
    as given. *)
Variable mapToGeminiModels : list Discovery.GoogleModel -> list GeminiModel.
Variable sortModelsByPreference : list GeminiModel -> list GeminiModel.
Variable mergeWithExistingModels :
  list GeminiModel -> list GeminiModel -> list GeminiModel.

(** [getAvailableModels] *)
Definition getAvailableModels (env : Discovery.Env)
    (options : ModelUpdateOptions) : M (list GeminiModel) :=
  if negb (modelDiscoveryEnabled (Discovery.settings env)) then
    ret (filterModelsForVersion staticModels false)
  else
    attempt <-
      tryCatch
        (discovery <- onService
                        (Discovery.discoverModels env (forceRefresh options)) ;;
         if Discovery.success discovery
            && (0 <? length (Discovery.models discovery))%nat
         then
           let dynamicModels :=
             mapToGeminiModels (Discovery.models discovery) in
           let dynamicModels := sortModelsByPreference dynamicModels in
           let dynamicModels :=
             if preserveUserCustomizations options
             then mergeWithExistingModels dynamicModels staticModels
             else dynamicModels in
           ret (Some (filterModelsForVersion dynamicModels false))
         else ret None)
        (fun error => ret None) ;;
    match attempt with
    | Some found => ret found
    | None => ret (filterModelsForVersion staticModels false)
    end.

(** [updateModels] *)
Definition updateModels (env : Discovery.Env) (options : ModelUpdateOptions)
  : M ModelUpdateResult :=
  currentModels <- getAvailableModels env options ;;
  previousModels <- getCurrentGeminiModels ;;
  let hasChanges := detectModelChanges currentModels previousModels in
  if hasChanges then
    updateGlobalModelsList currentModels ;;;
    (fun st =>
       (getUpdatedModelSettings (GEMINI_MODELS st) (Discovery.settings env),
        st))
  else
    ret (mkUpdate (Discovery.settings env) false []).

End WithMapper.

End Manager.

(* ===================================================================== *)
(** ** gemini-client.ts: GeminiClient                                     *)
(* ===================================================================== *)

Module Client.

Import Js.

(** Values produced by [JSON.parse]; a number is kept as its literal, no
    function below computes on numbers. *)
Inductive JSON :=
| JNull
| JBool (b : bool)
| JNumber (literal : string)
| JString (s : string)
| JArray (items : list JSON)
| JObject (fields : list (string * JSON)).

Record ToolCall := mkToolCall {
  name : option string;
  arguments : JSON
}.

Record ModelResponse := mkResponse {
  markdown : string;
  rendered : string;
  toolCalls : option (list ToolCall)
}.

(** The provider's payloads, at the fields the client reads. *)
Record WireFunction := mkFunction {
  fn_name : option string;
  fn_arguments : option string
}.

Record WireToolCall := mkWireToolCall {
  tc_index : option Z;
  tc_id : option string;
  tc_function : option WireFunction
}.

Record WireMessage := mkMessage {
  content : option string;
  tool_calls : option (list WireToolCall)
}.

Record WireChoice := mkChoice {
  message : option WireMessage;
  delta : option WireMessage
}.

Record WireResponse := mkWire {
  choices : option (list WireChoice)
}.

(** What [response.json()] gives for the body of a completion: [null],
    on which the first read of [extractResponse], [response.choices],
    throws (a [TypeError], [e] below), or a value that is read at the
    fields above. *)
Inductive CompletionBody :=
| NullBody (e : Thrown)
| ObjectBody (response : WireResponse).

(** An entry of [toolCallBuffer]. *)
Record Fragment := mkFragment {
  frag_id : option string;
  frag_name : option string;
  frag_arguments : string
}.

(** [Map<number, Fragment>]: iteration follows insertion order, and
    setting a key that is present keeps its place. *)
Definition ToolCallBuffer : Type := list (Z * Fragment).

Fixpoint bufferGet (index : Z) (m : ToolCallBuffer) : option Fragment :=
  match m with
  | [] => None
  | (k, v) :: rest => if (k =? index)%Z then Some v else bufferGet index rest
  end.

Fixpoint bufferSet (index : Z) (v : Fragment) (m : ToolCallBuffer)
  : ToolCallBuffer :=
  match m with
  | [] => [(index, v)]
  | (k, w) :: rest =>
      if (k =? index)%Z then (k, v) :: rest
      else (k, w) :: bufferSet index v rest
  end.

Definition bufferValues (m : ToolCallBuffer) : list Fragment := map snd m.

(** [tc.index ?? 0], [tc.function?.name], [tc.function?.arguments] *)
Definition deltaIndex (tc : WireToolCall) : Z :=
  match tc_index tc with Some i => i | None => 0%Z end.

Definition deltaName (tc : WireToolCall) : option string :=
  match tc_function tc with Some f => fn_name f | None => None end.

Definition deltaArguments (tc : WireToolCall) : option string :=
  match tc_function tc with Some f => fn_arguments f | None => None end.

(** [{ arguments: '' }] *)
Definition emptyFragment : Fragment := mkFragment None None "".

(** The three updates of [existing] by one delta. *)
Definition mergeDelta (existing : Fragment) (tc : WireToolCall) : Fragment :=
  let existing :=
    if truthy (tc_id tc)
    then mkFragment (tc_id tc) (frag_name existing) (frag_arguments existing)
    else existing in
  let existing :=
    if truthy (deltaName tc)
    then mkFragment (frag_id existing) (deltaName tc) (frag_arguments existing)
    else existing in
  if truthy (deltaArguments tc)
  then mkFragment (frag_id existing) (frag_name existing)
                  (frag_arguments existing +:+ orEmpty (deltaArguments tc))
  else existing.

(** The body of [for (const tc of delta.tool_calls)]. *)
Definition applyToolCallDelta (toolCallBuffer : ToolCallBuffer)
    (tc : WireToolCall) : ToolCallBuffer :=
  let index := deltaIndex tc in
  let existing :=
    match bufferGet index toolCallBuffer with
    | Some e => e
    | None => emptyFragment
    end in
  bufferSet index (mergeDelta existing tc) toolCallBuffer.

(** The deltas of a stream that carry a given index, in arrival order;
    the fragment they build up; the indices of a stream in the order in
    which each first arrives. *)
Definition deltasAt (index : Z) (tcs : list WireToolCall) : list WireToolCall :=
  List.filter (fun tc => (deltaIndex tc =? index)%Z) tcs.

Definition fragmentAt (index : Z) (tcs : list WireToolCall) : Fragment :=
  fold_left mergeDelta (deltasAt index tcs) emptyFragment.

Definition indicesInOrder (tcs : list WireToolCall) : list Z :=
  fold_left
    (fun seen tc =>
       if existsb (Z.eqb (deltaIndex tc)) seen then seen
       else seen ++ [deltaIndex tc])
    tcs [].

(** The last truthy entry of a list of optional strings. *)
Definition lastTruthy (l : list (option string)) : option string :=
  fold_left (fun acc x => if truthy x then x else acc) l None.

(** The locals of one streaming call that the read loop updates, with the
    texts handed to [onChunk] so far, oldest first. *)
Record StreamState := mkStream {
  st_markdown : string;
  st_buffer : string;
  st_toolCallBuffer : ToolCallBuffer;
  st_emitted : list string
}.

Definition initialStream : StreamState := mkStream "" "" [] [].

(** [s'] continues [s]: more texts were handed to [onChunk] and appended
    to the markdown, and more deltas were merged into the buffer. *)
Definition Extends (s s' : StreamState) : Prop :=
  exists more deltas,
    st_emitted s' = st_emitted s ++ more
    /\ st_markdown s' = st_markdown s +:+ joinAll more
    /\ st_toolCallBuffer s' =
       fold_left applyToolCallDelta deltas (st_toolCallBuffer s).

(** A loop body that may throw, run over a list. *)
Fixpoint forEach {A B} (body : A -> B -> Completion A) (l : list B) (a : A)
  : Completion A :=
  match l with
  | [] => Returned a
  | b :: rest =>
      match body a b with
      | Returned a' => forEach body rest a'
      | Threw e => Threw e
      end
  end.

(** One [reader.read()] that is not the end of the stream: the text
    [decoder.decode(value, { stream: true })] gives for it, or a rejection;
    [cancelRequested] tells whether [cancel()] was called between the loop
    test before this read and the next loop test. *)
Inductive ReadResult :=
| ReadData (text : string)
| ReadRejects (e : Thrown).

Record Read := mkRead {
  cancelRequested : bool;
  outcome : ReadResult
}.

(** What the request of a streaming call meets: a rejection before the
    first read (while the payload is built or sent, or while the error
    text of a response is read), a response that is not [ok] or has no
    body, or a body delivering [reads] and then reporting [done]. *)
Inductive Transport :=
| RequestRejects (e : Thrown)
| ResponseNotOk (status : Z) (errorText : string)
| ResponseStream (cancelledBeforeFirstRead : bool) (reads : list Read).

(** What [JSON.parse] makes of the payload of a [data: ] line: it throws
    (a [SyntaxError], whose message is the platform's); or it returns
    [null], on which the first read of the loop body, [chunk.choices],
    throws (a [TypeError], [e] below); or it returns a value that is read
    at the fields of a completion chunk. *)
Inductive ChunkParse :=
| ParseThrows (e : Thrown)
| ParsedNull (e : Thrown)
| Parsed (chunk : WireResponse).

Section WithJSON.

(** [JSON.parse] of the platform: on an arguments string, [None] when it
    throws; and on the payload of a [data: ] line.  [onChunk] is the
    caller's callback: handed a text after the texts it was handed
    before, it returns ([None]) or throws. *)
Variable JSON_parse : string -> option JSON.
Variable JSON_parse_chunk : string -> ChunkParse.
Variable onChunk : list string -> string -> option Thrown.

(** [parseJson] *)
Definition parseJson (value : option string) : JSON :=
  match value with
  | Some v =>
      if negb (truthy value) then JObject []
      else
        match JSON_parse v with
        | Some parsed => parsed
        | None => JObject [("raw", JString v)]
        end
  | None => JObject []
  end.

(** The callback of [choice.tool_calls.map] in [extractResponse]. *)
Definition decodeToolCall (tc : WireToolCall) : ToolCall :=
  mkToolCall (deltaName tc) (parseJson (deltaArguments tc)).

(** [extractResponse] *)
Definition extractResponse (response : WireResponse) : ModelResponse :=
  let choice :=
    match choices response with
    | Some (first :: _) => message first
    | _ => None
    end in
  let markdown :=
    match choice with
    | Some c => orEmpty (content c)
    | None => ""
    end in
  let toolCalls :=
    match choice with
    | Some c =>
        match tool_calls c with
        | Some (tc :: rest) => Some (map decodeToolCall (tc :: rest))
        | _ => None
        end
    | None => None
    end in
  mkResponse markdown "" toolCalls.

(** [generateModelResponse], given what [buildRequestPayload] and
    [requestChatCompletion] met: an exception, or the body of the
    response. *)
Definition generateModelResponse (response : Completion CompletionBody)
  : Completion ModelResponse :=
  match response with
  | Returned (ObjectBody r) => Returned (extractResponse r)
  | Returned (NullBody e) => Threw e
  | Threw e => Threw e
  end.

(** The body of [for (const line of event.split('\n'))]. *)
Definition processLine (s : StreamState) (line : string)
  : Completion StreamState :=
  if negb (startsWith line "data: ") then Returned s
  else
    let data := trim (slice 6 line) in
    if negb (truthy (Some data)) || String.eqb data "[DONE]" then Returned s
    else
      match JSON_parse_chunk data with
      | ParseThrows e => Threw e
      | ParsedNull e => Threw e
      | Parsed chunk =>
          let delta :=
            match choices chunk with
            | Some (first :: _) => delta first
            | _ => None
            end in
          let text :=
            match delta with
            | Some d => orEmpty (content d)
            | None => ""
            end in
          let emitted :=
            if truthy (Some text)
            then
              match onChunk (st_emitted s) text with
              | Some e => Threw e
              | None =>
                  Returned
                    (mkStream (st_markdown s +:+ text) (st_buffer s)
                              (st_toolCallBuffer s) (st_emitted s ++ [text]))
              end
            else Returned s in
          match emitted with
          | Threw e => Threw e
          | Returned s =>
              match delta with
              | Some d =>
                  match tool_calls d with
                  | Some (tc :: rest) =>
                      Returned
                        (mkStream (st_markdown s) (st_buffer s)
                           (fold_left applyToolCallDelta (tc :: rest)
                                      (st_toolCallBuffer s))
                           (st_emitted s))
                  | _ => Returned s
                  end
              | None => Returned s
              end
          end
      end.

Definition processEvent (s : StreamState) (event : string)
  : Completion StreamState :=
  forEach processLine (split event (String "010" EmptyString)) s.

(** The body of the read loop after a read that delivered [text]. *)
Definition processRead (s : StreamState) (text : string)
  : Completion StreamState :=
  let buffer := st_buffer s +:+ text in
  let events := split buffer (String "010" (String "010" EmptyString)) in
  let buffer := List.last events "" in
  let events := removelast events in
  forEach processEvent events
    (mkStream (st_markdown s) buffer (st_toolCallBuffer s) (st_emitted s)).

(** [while (!cancelled) { ... }] over the reads the body still has. *)
Fixpoint readLoop (cancelled : bool) (reads : list Read) (s : StreamState)
  : Completion StreamState :=
  if cancelled then Returned s
  else
    match reads with
    | [] => Returned s
    | r :: rest =>
        match outcome r with
        | ReadRejects e => Threw e
        | ReadData text =>
            match processRead s text with
            | Returned s' => readLoop (cancelRequested r) rest s'
            | Threw e => Threw e
            end
        end
    end.

(** The callback of [.map] after the loop. *)
Definition finalizeFragment (tc : Fragment) : ToolCall :=
  mkToolCall (frag_name tc) (parseJson (Some (frag_arguments tc))).

(** [if (toolCallBuffer.size > 0) { toolCalls = ... }] *)
Definition finalToolCalls (toolCallBuffer : ToolCallBuffer)
  : option (list ToolCall) :=
  if (0 <? length toolCallBuffer)%nat then
    Some (map finalizeFragment
              (List.filter (fun tc => truthy (frag_name tc))
                           (bufferValues toolCallBuffer)))
  else None.

(** The code after the loop. *)
Definition finalize (s : StreamState) : ModelResponse :=
  mkResponse (st_markdown s) "" (finalToolCalls (st_toolCallBuffer s)).

(** [generateStreamingResponse(...).complete]: the response, with the
    texts [onChunk] received in the order it received them. *)
Definition generateStreamingResponse (transport : Transport)
  : Completion (ModelResponse * list string) :=
  match transport with
  | RequestRejects e => Threw e
  | ResponseNotOk status errorText =>
      Threw (ErrorWith ("Groq streaming request failed: " +:+ pretty status
                        +:+ " " +:+ errorText))
  | ResponseStream cancelled reads =>
      match readLoop cancelled reads initialStream with
      | Returned s => Returned (finalize s, st_emitted s)
      | Threw e => Threw e
      end
  end.

End WithJSON.

End Client.

(* ===================================================================== *)
(** ** Concrete inputs used in examples                                   *)
(* ===================================================================== *)

Module Scenario.

Import Js Models Discovery.

Definition settingsWithKey : Settings :=
  mkSettings "test-key" true (Some "x") (Some "b") None None.

Definition settingsNoKey : Settings :=
  mkSettings "" true (Some "x") (Some "b") None None.

(** A catalog answer with one conversational and one speech model. *)
Definition catalog : FetchOutcome :=
  FetchResponds true 200 "OK"
    (BodyJson (Some [mkEntry (Some "compound") (Some "groq");
                     mkEntry (Some "whisper-large-v3") (Some "groq")])).

Definition unavailable : FetchOutcome :=
  FetchResponds false 503 "Service Unavailable" (BodyRejects NonError).

Definition envOk : Env := mkEnv settingsWithKey catalog 5 None None.

Definition envNoKey : Env := mkEnv settingsNoKey catalog 5 None None.

Definition envDown : Env := mkEnv settingsWithKey unavailable 5 None None.

(** A service that has just been constructed, at time 1000. *)
Definition started : State := mkState None 1000 None 0.

(** The wire text of a streamed chunk, and a stand-in for [JSON.parse]
    that reads back the chunks it is told about, reads [null] as the
    null value and rejects anything else. *)
Definition nl : string := String "010" EmptyString.

Definition dq : string := String "034" EmptyString.

Fixpoint escape (s : string) : string :=
  match s with
  | EmptyString => EmptyString
  | String c r =>
      if Ascii.eqb c "034" || Ascii.eqb c "092"
      then String "092" (String c (escape r))
      else String c (escape r)
  end.

Definition quoted (s : string) : string := dq +:+ escape s +:+ dq.

Definition member (key value : string) : string :=
  quoted key +:+ ":" +:+ value.

Definition optional (key : string) (value : option string) : list string :=
  match value with
  | Some v => [member key v]
  | None => []
  end.

Definition object (members : list string) : string :=
  "{" +:+ String.concat "," members +:+ "}".

Definition array (items : list string) : string :=
  "[" +:+ String.concat "," items +:+ "]".

Definition printFunction (f : Client.WireFunction) : string :=
  object (optional "name" (option_map quoted (Client.fn_name f))
          ++ optional "arguments"
               (option_map quoted (Client.fn_arguments f))).

Definition printToolCall (tc : Client.WireToolCall) : string :=
  object (optional "index" (option_map pretty (Client.tc_index tc))
          ++ optional "id" (option_map quoted (Client.tc_id tc))
          ++ optional "function"
               (option_map printFunction (Client.tc_function tc))).

Definition printChunk (delta : Client.WireMessage) : string :=
  object
    [member "choices"
       (array
          [object
             [member "delta"
                (object
                   (optional "content"
                      (option_map quoted (Client.content delta))
                    ++ optional "tool_calls"
                         (option_map (fun tcs => array (map printToolCall tcs))
                                     (Client.tool_calls delta))))]])].

Definition event (delta : Client.WireMessage) : string :=
  "data: " +:+ printChunk delta +:+ nl +:+ nl.

Definition parseKnown (known : list Client.WireMessage) (data : string)
  : Client.ChunkParse :=
  match List.find (fun delta => String.eqb (printChunk delta) data) known with
  | Some delta =>
      Client.Parsed
        (Client.mkWire (Some [Client.mkChoice None (Some delta)]))
  | None =>
      if String.eqb data "null"
      then Client.ParsedNull
             (ErrorWith "Cannot read properties of null (reading 'choices')")
      else Client.ParseThrows (ErrorWith "Unexpected token in JSON")
  end.

(** A callback that always returns. *)
Definition quietCallback : list string -> string -> option Thrown :=
  fun _ _ => None.

Definition textDelta (text : string) : Client.WireMessage :=
  Client.mkMessage (Some text) None.

Definition toolDelta (index : Z) (id name : option string) (piece : string)
  : Client.WireMessage :=
  Client.mkMessage None
    (Some [Client.mkWireToolCall (Some index) id
             (Some (Client.mkFunction name (Some piece)))]).

(** A search call whose arguments arrive in three pieces, with a fragment
    at index 1 that never receives a name. *)
Definition searchArguments : string :=
  "{" +:+ dq +:+ "query" +:+ dq +:+ ":" +:+ dq +:+ "abc" +:+ dq +:+ "}".

Definition searchPieces : list Client.WireMessage :=
  [toolDelta 0 (Some "call_1") (Some "search_files") ("{" +:+ dq +:+ "que");
   toolDelta 1 (Some "call_2") None "{}";
   toolDelta 0 None None ("ry" +:+ dq +:+ ":" +:+ dq);
   toolDelta 0 None None ("abc" +:+ dq +:+ "}")].

Definition searchWhole : list Client.WireMessage :=
  [toolDelta 0 (Some "call_1") (Some "search_files") searchArguments;
   toolDelta 1 (Some "call_2") None "{}"].

Definition knownChunks : list Client.WireMessage :=
  [textDelta "Hello "; textDelta "World"; textDelta "!"]
  ++ searchPieces ++ searchWhole.

Definition parseArguments (value : string) : option Client.JSON :=
  if String.eqb value searchArguments
  then Some (Client.JObject [("query", Client.JString "abc")])
  else None.

Definition dataRead (cancel : bool) (deltas : list Client.WireMessage)
  : Client.Read :=
  Client.mkRead cancel (Client.ReadData (joinAll (map event deltas))).

End Scenario.

(* ===================================================================== *)
(** ** models.ts: the registry as a shared array                          *)
(* ===================================================================== *)

Module Registry.

Import Models.

(** Arrays are objects: a store gives the contents of every array by its
    reference, and [GEMINI_MODELS] is one fixed reference, shared by every
    module that imported it. *)
Definition GEMINI_MODELS : nat := 0.

(** The contents of an array. *)
Definition contents (store : gmap nat (list GeminiModel)) (ref : nat)
  : list GeminiModel :=
  match store !! ref with
  | Some l => l
  | None => []
  end.

(** [setGeminiModels(newModels)]: [GEMINI_MODELS.length = 0] and then
    [GEMINI_MODELS.push(...newModels)], both on the registry's own array;
    the argument is read after the registry has been emptied. *)
Definition setGeminiModels (newModels : nat)
    (store : gmap nat (list GeminiModel)) : gmap nat (list GeminiModel) :=
  let store := <[GEMINI_MODELS := []]> store in
  <[GEMINI_MODELS :=
      contents store GEMINI_MODELS ++ contents store newModels]> store.

End Registry.

(* ===================================================================== *)
(** ** model-manager.ts: the other queries of ModelManager                *)
(* ===================================================================== *)

Module ManagerOps.

Import Js Models Manager.

Local Open Scope js_scope.

Record DiscoveryStatus := mkStatus {
  status_enabled : bool;
  status_working : bool;
  status_lastUpdate : option Z;
  status_error : option string
}.

Record RefreshReport := mkReport {
  report_success : bool;
  report_modelsFound : nat;
  report_changes : bool;
  report_error : option string
}.

(** [getDiscoveryStatus] *)
Definition getDiscoveryStatus (env : Discovery.Env) : M DiscoveryStatus :=
  let enabled := modelDiscoveryEnabled (Discovery.settings env) in
  if negb enabled then ret (mkStatus false false None None)
  else
    tryCatch
      (discovery <- onService (Discovery.discoverModels env false) ;;
       ret (mkStatus true (Discovery.success discovery)
                     (Some (Discovery.lastUpdated discovery))
                     (Discovery.error discovery)))
      (fun error =>
         ret (mkStatus true false None (Some (errorMessage error)))).

(** [getDiscoveredModels] *)
Definition getDiscoveredModels (env : Discovery.Env)
  : M (list Discovery.GoogleModel) :=
  if negb (modelDiscoveryEnabled (Discovery.settings env)) then ret []
  else
    tryCatch
      (discovery <- onService (Discovery.discoverModels env false) ;;
       ret (if Discovery.success discovery
            then Discovery.models discovery else []))
      (fun error => ret []).

Section WithMapper.

Variable mapToGeminiModels : list Discovery.GoogleModel -> list GeminiModel.
Variable sortModelsByPreference : list GeminiModel -> list GeminiModel.
Variable mergeWithExistingModels :
  list GeminiModel -> list GeminiModel -> list GeminiModel.

(** [getImageGenerationModels] (the debug and warning log lines have no
    effect on the result). *)
Definition getImageGenerationModels (env : Discovery.Env)
  : M (list GeminiModel) :=
  let staticImageModels := filterModelsForVersion staticModels true in
  if negb (modelDiscoveryEnabled (Discovery.settings env)) then
    ret staticImageModels
  else
    attempt <-
      tryCatch
        (discovery <- onService (Discovery.discoverModels env false) ;;
         if Discovery.success discovery
            && (0 <? length (Discovery.models discovery))%nat
         then
           let dynamicModels :=
             mapToGeminiModels (Discovery.models discovery) in
           let dynamicIds := valueSet dynamicModels in
           let missingStaticModels :=
             List.filter
               (fun m => negb (bool_decide (value m ∈ dynamicIds)))
               staticModels in
           let dynamicModels := dynamicModels ++ missingStaticModels in
           let dynamicModels := sortModelsByPreference dynamicModels in
           let filtered := filterModelsForVersion dynamicModels true in
           if (length filtered =? 0)%nat
           then ret (Some staticImageModels)
           else ret (Some filtered)
         else ret None)
        (fun error => ret None) ;;
    match attempt with
    | Some found => ret found
    | None => ret staticImageModels
    end.

(** [refreshModels] *)
Definition refreshModels (env : Discovery.Env) : M RefreshReport :=
  tryCatch
    (result <- Manager.updateModels mapToGeminiModels sortModelsByPreference
                 mergeWithExistingModels env (mkOptions true true) ;;
     models <- Manager.getAvailableModels mapToGeminiModels
                 sortModelsByPreference mergeWithExistingModels env
                 (mkOptions true false) ;;
     ret (mkReport true (length models) (settingsChanged result) None))
    (fun error => ret (mkReport false 0 false (Some (errorMessage error)))).

End WithMapper.

End ManagerOps.

(* ===================================================================== *)
(** ** gemini-client.ts: notions used to state the framing of a stream    *)
(* ===================================================================== *)

Module Framing.

Import Js Client.

(** No occurrence of [sep] starts inside [p] when [p] is followed by
    [rest]. *)
Fixpoint quiet (sep p rest : string) : Prop :=
  match p with
  | EmptyString => True
  | String c p' => String.prefix sep (p +:+ rest) = false /\ quiet sep p' rest
  end.

(** The stream state with another text in [buffer]. *)
Definition setBuffer (buffer : string) (s : StreamState) : StreamState :=
  mkStream (st_markdown s) buffer (st_toolCallBuffer s) (st_emitted s).

(** The separators of the transport. *)
Definition eventSeparator : string :=
  String "010" (String "010" EmptyString).

Definition lineSeparator : string := String "010" EmptyString.

End Framing.

(* ===================================================================== *)
(** ** What a stream carries: the reference the client is compared with   *)
(* ===================================================================== *)

Module StreamContent.

Import Js Client Framing.

(** The lines of the events that a text completes: an event ends at a
    blank line and a line at a line feed; what follows the last blank
    line is not yet an event. *)
Definition streamLines (text : string) : list string :=
  flat_map (fun event => split event lineSeparator)
           (removelast (split text eventSeparator)).

(** The payload of a line: what follows [data: ], without the white space
    around it, unless that is empty or the end marker. *)
Definition linePayload (line : string) : option string :=
  if startsWith line "data: "
  then
    let data := trim (slice 6 line) in
    if String.eqb data "" || String.eqb data "[DONE]" then None
    else Some data
  else None.

(** Reads that deliver the given texts, nobody cancelling. *)
Definition dataReads (texts : list string) : list Read :=
  map (fun text => mkRead false (ReadData text)) texts.

Section WithJSON.

Variable JSON_parse_chunk : string -> ChunkParse.

(** The delta of the first choice of the chunk that a line carries. *)
Definition lineDelta (line : string) : option WireMessage :=
  match linePayload line with
  | Some data =>
      match JSON_parse_chunk data with
      | Parsed chunk =>
          match choices chunk with
          | Some (first :: _) => delta first
          | _ => None
          end
      | _ => None
      end
  | None => None
  end.

(** The text that a line carries, if it is not empty, and the tool-call
    deltas that it carries. *)
Definition lineTexts (line : string) : list string :=
  match lineDelta line with
  | Some d => if truthy (content d) then [orEmpty (content d)] else []
  | None => []
  end.

Definition lineToolCalls (line : string) : list WireToolCall :=
  match lineDelta line with
  | Some d =>
      match tool_calls d with
      | Some tcs => tcs
      | None => []
      end
  | None => []
  end.

(** A line whose payload, if it has one, is a chunk: [JSON.parse] neither
    throws on it nor returns [null]. *)
Definition readable (line : string) : Prop :=
  forall data,
    linePayload line = Some data ->
    exists chunk, JSON_parse_chunk data = Parsed chunk.

End WithJSON.

End StreamContent.

(* ===================================================================== *)
(** ** gemini-client.ts: building the request                             *)
(* ===================================================================== *)

Module ClientRequest.

Import Js.

Inductive Role := system | user | assistant | tool.

(** [['user', 'assistant', 'tool', 'system'].includes(role)], with the
    role it names. *)
Definition recognizedRole (role : option string) : option Role :=
  match role with
  | Some r =>
      if String.eqb r "user" then Some user
      else if String.eqb r "assistant" then Some assistant
      else if String.eqb r "tool" then Some tool
      else if String.eqb r "system" then Some system
      else None
  | None => None
  end.

Record OutgoingToolCall := mkOutgoing {
  out_id : string;
  out_name : string;
  out_arguments : string
}.

Record ChatMessage := mkChat {
  role : Role;
  content : string;
  tool_call_id : option string;
  name : option string;
  tool_calls : option (list OutgoingToolCall)
}.

(** An entry of the conversation history, at the fields the client reads;
    the content is a string or absent, [item_parts] holds the [text] of
    each part. *)
Record HistoryItem := mkItem {
  item_role : option string;
  item_content : option string;
  item_parts : option (list (option string));
  item_tool_calls : option (list OutgoingToolCall);
  item_tool_call_id : option string;
  item_name : option string
}.

Definition lineFeed : string := String "010" EmptyString.

(** The message pushed for one history entry, if any. *)
Definition normalizeItem (item : option HistoryItem) : list ChatMessage :=
  match item with
  | None => []
  | Some item =>
      match recognizedRole (item_role item) with
      | None => []
      | Some role =>
          match role, item_tool_calls item with
          | assistant, Some calls =>
              [mkChat role (orEmpty (item_content item)) None None
                      (Some calls)]
          | tool, _ =>
              [mkChat role (orEmpty (item_content item))
                      (item_tool_call_id item) (item_name item) None]
          | _, _ =>
              let content :=
                match item_content item with
                | Some c => c
                | None =>
                    match item_parts item with
                    | Some parts => String.concat lineFeed (map orEmpty parts)
                    | None => ""
                    end
                end in
              [mkChat role content None None None]
          end
      end
  end.

(** [normalizeConversation] *)
Fixpoint normalizeConversation (history : list (option HistoryItem))
  : list ChatMessage :=
  match history with
  | [] => []
  | item :: rest => normalizeItem item ++ normalizeConversation rest
  end.

(** What [this.plugin?.agentsMemory] is: absent, or an object whose
    [read()] rejects or gives a text or [null]. *)
Inductive AgentsMemory :=
| NoMemory
| ReadRejects (e : Thrown)
| ReadGives (text : option string).

Section WithTypes.

(** Temperatures are floating-point numbers that the client only passes
    on; tool definitions are passed on as they are. *)
Variable Number : Type.
Variable ToolDefinition : Type.

Record CustomPrompt := mkCustomPrompt {
  overrideSystemPrompt : bool
}.

Record ExtendedFields := mkExtended {
  userMessage : string;
  conversationHistory : option (list (option HistoryItem));
  availableTools : option (list ToolDefinition);
  customPrompt : option CustomPrompt;
  imageAttachments : option nat
}.

(** A request: the fields of [BaseModelRequest], and those of
    [ExtendedModelRequest] when ['userMessage' in request];
    [imageAttachments] is kept as the length of the array. *)
Record Request := mkRequest {
  prompt : string;
  model : option string;
  temperature : option Number;
  topP : option Number;
  extended : option ExtendedFields
}.

Record Config := mkConfig {
  config_model : option string;
  config_temperature : option Number;
  config_topP : option Number;
  config_maxOutputTokens : option Z
}.

(** [{ type: 'function', function: tool }] *)
Record WireTool := mkWireTool {
  function : ToolDefinition
}.

(** [mapTools] *)
Definition mapTools (tools : list ToolDefinition) : list WireTool :=
  map mkWireTool tools.

Record Payload := mkPayload {
  payload_model : string;
  payload_messages : list ChatMessage;
  payload_temperature : option Number;
  payload_top_p : option Number;
  payload_stream : bool;
  payload_max_tokens : option Z;
  payload_tools : option (list WireTool);
  payload_tool_choice : option string
}.

(** [prompts.getSystemPromptWithCustom] lives in prompts.ts and is taken
    as given. *)
Variable getSystemPromptWithCustom :
  option (list ToolDefinition) -> option CustomPrompt -> option string ->
  string.

Definition unsupportedImagesNote : string :=
  "[Image attachments were provided but are not currently supported by Groq text endpoints.]".

(** [a ?? b] *)
Definition orElse {A} (a b : option A) : option A :=
  match a with
  | Some _ => a
  | None => b
  end.

(** [buildRequestPayload], reading the registry [GEMINI_MODELS]. *)
Definition buildRequestPayload
    (GEMINI_MODELS : list Models.GeminiModel) (config : Config)
    (memory : AgentsMemory) (request : Request) (stream : bool)
  : Completion Payload :=
  let resolved :=
    if truthy (model request) then Returned (orEmpty (model request))
    else if truthy (config_model config)
         then Returned (orEmpty (config_model config))
         else Models.getDefaultModelForRole GEMINI_MODELS Models.chat in
  match resolved with
  | Threw e => Threw e
  | Returned model =>
      let messages :=
        match extended request with
        | Some extReq =>
            let agentsMemory :=
              match memory with
              | ReadGives text => text
              | ReadRejects _ => None
              | NoMemory => None
              end in
            let systemInstruction :=
              getSystemPromptWithCustom (availableTools extReq)
                (customPrompt extReq) agentsMemory in
            let systemInstruction :=
              if truthy (Some (prompt request))
                 && negb (match customPrompt extReq with
                          | Some c => overrideSystemPrompt c
                          | None => false
                          end)
              then systemInstruction +:+ lineFeed +:+ lineFeed
                   +:+ prompt request
              else systemInstruction in
            let history :=
              match conversationHistory extReq with
              | Some h => h
              | None => []
              end in
            let userContent :=
              match imageAttachments extReq with
              | Some (S _) =>
                  userMessage extReq +:+ lineFeed +:+ lineFeed
                  +:+ unsupportedImagesNote
              | _ => userMessage extReq
              end in
            mkChat system systemInstruction None None None
            :: normalizeConversation history
            ++ [mkChat user userContent None None None]
        | None => [mkChat user (prompt request) None None None]
        end in
      let max_tokens :=
        match config_maxOutputTokens config with
        | Some n => if (n =? 0)%Z then None else Some n
        | None => None
        end in
      let tools :=
        match extended request with
        | Some extReq =>
            match availableTools extReq with
            | Some (t :: ts) => Some (mapTools (t :: ts))
            | _ => None
            end
        | None => None
        end in
      Returned
        (mkPayload model messages
           (orElse (temperature request) (config_temperature config))
           (orElse (topP request) (config_topP config))
           stream max_tokens tools
           (match tools with Some _ => Some "auto" | None => None end))
  end.

End WithTypes.

Arguments mkExtended {ToolDefinition}.
Arguments userMessage {ToolDefinition}.
Arguments conversationHistory {ToolDefinition}.
Arguments availableTools {ToolDefinition}.
Arguments customPrompt {ToolDefinition}.
Arguments imageAttachments {ToolDefinition}.
Arguments mkRequest {Number ToolDefinition}.
Arguments prompt {Number ToolDefinition}.
Arguments model {Number ToolDefinition}.
Arguments temperature {Number ToolDefinition}.
Arguments topP {Number ToolDefinition}.
Arguments extended {Number ToolDefinition}.
Arguments mkConfig {Number}.
Arguments config_model {Number}.
Arguments config_temperature {Number}.
Arguments config_topP {Number}.
Arguments config_maxOutputTokens {Number}.
Arguments mkWireTool {ToolDefinition}.
Arguments function {ToolDefinition}.
Arguments mapTools {ToolDefinition}.
Arguments mkPayload {Number ToolDefinition}.
Arguments payload_model {Number ToolDefinition}.
Arguments payload_messages {Number ToolDefinition}.
Arguments payload_temperature {Number ToolDefinition}.
Arguments payload_top_p {Number ToolDefinition}.
Arguments payload_stream {Number ToolDefinition}.
Arguments payload_max_tokens {Number ToolDefinition}.
Arguments payload_tools {Number ToolDefinition}.
Arguments payload_tool_choice {Number ToolDefinition}.
Arguments buildRequestPayload {Number ToolDefinition}.

End ClientRequest.

(* ===================================================================== *)
(** ** The agent tools: deep research, web search, web fetch              *)
(* ===================================================================== *)

Module Tools.

Import Js.

Local Open Scope js_scope.

(** [s.slice(0, n)] and [s.substring(0, n)] *)
Definition sliceTo (n : nat) (s : string) : string := String.substring 0 n s.

(** [s.endsWith(suffix)] *)
Fixpoint endsWith (s suffix : string) : bool :=
  String.eqb s suffix
  || match s with
     | String _ r => endsWith r suffix
     | EmptyString => false
     end.

Definition lineFeed : string := String "010" EmptyString.

Definition doubleQuote : string := String "034" EmptyString.

(** [{ success: true, data }] or [{ success: false, error }] *)
Inductive ToolResult (Data : Type) :=
| Success (data : Data)
| Failure (error : string).

Arguments Success {Data} data.
Arguments Failure {Data} error.

Record Citation := mkCitation {
  cite_title : option string;
  cite_url : option string;
  cite_snippet : option string
}.

(** The body of a chat completion, at the fields the tools read:
    [choices?.[0]?.message?.content], [citations], [x_groq?.citations]. *)
Record ChatResult := mkChatResult {
  message_content : option string;
  citations : option (list Citation);
  x_groq_citations : option (list Citation)
}.

(** [result.citations || result.x_groq?.citations || []] *)
Definition citationsOf (result : ChatResult) : list Citation :=
  match citations result with
  | Some l => l
  | None =>
      match x_groq_citations result with
      | Some l => l
      | None => []
      end
  end.

(** A response of the completions endpoint: not [ok], with its status and
    what [text()] gives, or [ok], with what [json()] gives. *)
Inductive ChatResponse :=
| NotOk (status : Z) (text : Completion string)
| Ok (json : Completion ChatResult).

(** The request body a tool posts, at its model, its two messages and
    whether the [web_search] tool is offered. *)
Record ChatBody := mkChatBody {
  body_model : string;
  body_system : string;
  body_user : string;
  body_webSearch : bool
}.

(** What [requestUrlWithRetry] resolves with. *)
Record PageResponse := mkPage {
  page_status : Z;
  page_text : string
}.

(** The surroundings of one tool call: the plugin's settings, what the
    completions endpoint and the page request give if asked, whether the
    vault adapter's [write] rejects, whether the call has a session, which
    paths [getAbstractFileByPath] finds as a [TFile], and the time
    [new Date().toISOString()] gives. *)
Record Env := mkEnv {
  settings : Models.Settings;
  groq : Completion ChatResponse;
  page : Completion PageResponse;
  writeRejects : option Thrown;
  hasSession : bool;
  isTFile : string -> bool;
  isoNow : string
}.

(** What a tool call changes: the bodies posted to the completions
    endpoint and the pages requested, oldest first, the files of the
    vault, and the paths of the session's [contextFiles]. *)
Record State := mkState {
  posted : list ChatBody;
  pagesRequested : list string;
  files : gmap string string;
  contextFiles : list string
}.

Definition M (A : Type) : Type := Js.M State A.

(** [await] of a promise that has settled. *)
Definition await {A} (c : Completion A) : M A := fun st => (c, st).

(** [fetch('https://api.groq.com/openai/v1/chat/completions', ...)] *)
Definition post (env : Env) (body : ChatBody) : M ChatResponse :=
  fun st =>
    (groq env,
     mkState (posted st ++ [body]) (pagesRequested st) (files st)
             (contextFiles st)).

(** [requestUrlWithRetry({ url, ... })] *)
Definition requestUrlWithRetry (env : Env) (url : string) : M PageResponse :=
  fun st =>
    (page env,
     mkState (posted st) (pagesRequested st ++ [url]) (files st)
             (contextFiles st)).

(** [plugin.app.vault.adapter.write(path, data)] *)
Definition write (env : Env) (path data : string) : M unit :=
  fun st =>
    match writeRejects env with
    | Some e => (Threw e, st)
    | None =>
        (Returned tt,
         mkState (posted st) (pagesRequested st) (<[path := data]> (files st))
                 (contextFiles st))
    end.

(** [context.session.context.contextFiles.push(createdFile)] *)
Definition pushContextFile (path : string) : M unit :=
  fun st =>
    (Returned tt,
     mkState (posted st) (pagesRequested st) (files st)
             (contextFiles st ++ [path])).

(** [plugin.settings.chatModelName || 'compound'] *)
Definition chatModel (env : Env) : string :=
  if truthy (Models.chatModelName (settings env))
  then orEmpty (Models.chatModelName (settings env))
  else "compound".

Definition keyError : string := "Groq API key not configured".

Module DeepResearchTool.

Record Params := mkParams {
  topic : option string;
  scope : option string;
  outputFile : option string
}.

Record Data := mkData {
  data_topic : string;
  report : string;
  sources : nat;
  data_outputFile : option string
}.

(** [confirmationMessage] *)
Definition confirmationMessage (params : Params) : string :=
  "Conduct deep research on: " +:+ doubleQuote +:+ show (topic params)
  +:+ doubleQuote
  +:+ (if truthy (scope params)
       then " (" +:+ orEmpty (scope params) +:+ ")"
       else "").

(** [getProgressDescription] *)
Definition getProgressDescription (params : Params) : string :=
  "Researching " +:+ doubleQuote
  +:+ (let shown := option_map (sliceTo 25) (topic params) in
       if truthy shown then orEmpty shown else "topic")
  +:+ (if (25 <? String.length (orEmpty (topic params)))%nat
       then "..." else "")
  +:+ doubleQuote.

Definition topicError : string :=
  "Topic is required and must be a non-empty string".

Definition systemMessage : string :=
  "Produce a detailed research report in markdown with clear headings, key findings, and citations/links for claims.".

(** [params.outputFile.endsWith('.md') ? params.outputFile
     : `${params.outputFile}.md`] *)
Definition normalize (outputFile : string) : string :=
  if endsWith outputFile ".md" then outputFile else outputFile +:+ ".md".

(** [execute]; a [topic] that is not a string is [None]. *)
Definition execute (env : Env) (params : Params) : M (ToolResult Data) :=
  match topic params with
  | None => ret (Failure topicError)
  | Some topic =>
      if (String.length (trim topic) =? 0)%nat then ret (Failure topicError)
      else if negb (truthy (Some (Models.apiKey (settings env))))
      then ret (Failure keyError)
      else
        tryCatch
          (response <-
             post env
               (mkChatBody (chatModel env) systemMessage
                  ("Topic: " +:+ topic +:+ lineFeed +:+ "Scope: "
                   +:+ (if truthy (scope params) then orEmpty (scope params)
                        else "both")
                   +:+ lineFeed +:+ lineFeed
                   +:+ "Research deeply and produce a report.")
                  true) ;;
           match response with
           | NotOk status text =>
               errorText <- await text ;;
               ret (Failure ("Deep research failed: " +:+ pretty status
                             +:+ " " +:+ errorText))
           | Ok json =>
               result <- await json ;;
               let report := orEmpty (message_content result) in
               if negb (truthy (Some report))
               then ret (Failure "No report generated")
               else
                 outputPath <-
                   (if truthy (outputFile params)
                    then
                      let normalized :=
                        normalize (orEmpty (outputFile params)) in
                      write env normalized report ;;;
                      (if hasSession env && isTFile env normalized
                       then pushContextFile normalized
                       else ret tt) ;;;
                      ret (Some normalized)
                    else ret None) ;;
                 ret (Success
                        (mkData topic report (length (citationsOf result))
                                outputPath))
           end)
          (fun error =>
             ret (Failure ("Deep research failed: " +:+ errorMessage error)))
  end.

End DeepResearchTool.

Module GoogleSearchTool.

Record SearchCitation := mkSearchCitation {
  title : option string;
  url : option string;
  snippet : string
}.

Record Data := mkData {
  data_query : string;
  answer : string;
  data_citations : list SearchCitation
}.

(** [getProgressDescription] *)
Definition getProgressDescription (query : string) : string :=
  if truthy (Some query)
  then "Searching web for " +:+ doubleQuote +:+ sliceTo 30 query
       +:+ (if (30 <? String.length query)%nat then "..." else "")
       +:+ doubleQuote
  else "Searching web".

Definition systemMessage : string :=
  "Use the built-in web search capability and provide a concise answer with cited sources when available.".

(** The callback of [.map] over the citations. *)
Definition toSearchCitation (c : Citation) : SearchCitation :=
  mkSearchCitation
    (if truthy (cite_title c) then cite_title c else cite_url c)
    (cite_url c)
    (orEmpty (cite_snippet c)).

(** [execute] *)
Definition execute (env : Env) (query : string) : M (ToolResult Data) :=
  if negb (truthy (Some (Models.apiKey (settings env))))
  then ret (Failure keyError)
  else
    tryCatch
      (response <-
         post env (mkChatBody (chatModel env) systemMessage query true) ;;
       match response with
       | NotOk status text =>
           errorText <- await text ;;
           ret (Failure ("Web search failed: " +:+ pretty status
                         +:+ " " +:+ errorText))
       | Ok json =>
           result <- await json ;;
           let answer :=
             if truthy (message_content result)
             then orEmpty (message_content result)
             else "No answer returned." in
           ret (Success
                  (mkData query answer
                          (map toSearchCitation (citationsOf result))))
       end)
      (fun error =>
         ret (Failure ("Web search failed: " +:+ errorMessage error))).

End GoogleSearchTool.

Module WebFetchTool.

Record Data := mkData {
  data_url : string;
  data_query : string;
  content : string;
  title : string;
  fetchedAt : string
}.

(** [getProgressDescription] *)
Definition getProgressDescription (url : string) : string :=
  if truthy (Some url)
  then "Fetching " +:+ sliceTo 35 url
       +:+ (if (35 <? String.length url)%nat then "..." else "")
  else "Fetching URL".

Definition systemMessage : string :=
  "Answer the user query strictly based on the page content provided.".

Definition contentLimit : nat := 16 * 1000.

Definition truncationNote : string := "[Content truncated...]".

Section WithPageTools.

(** The page tools come from other modules and are taken as given: the
    text the title pattern captures in a page, if it matches;
    [decodeHtmlEntities]; and the Markdown that the configured
    [TurndownService] makes of a page. *)
Variable titleMatch : string -> option string.
Variable decodeHtmlEntities : string -> string.
Variable turndown : string -> string.

(** The page content as it goes into the prompt. *)
Definition pageContent (rawHtml : string) : string :=
  let content := turndown rawHtml in
  if (contentLimit <? String.length content)%nat
  then sliceTo contentLimit content +:+ lineFeed +:+ lineFeed
       +:+ truncationNote
  else content.

(** [fallbackFetch] *)
Definition fallbackFetch (env : Env) (url query : string)
  : M (ToolResult Data) :=
  tryCatch
    (response <- requestUrlWithRetry env url ;;
     if negb (page_status response =? 200)%Z
     then ret (Failure ("HTTP " +:+ pretty (page_status response) +:+ ": "
                        +:+ (if truthy (Some (page_text response))
                             then page_text response
                             else "Failed to fetch URL")))
     else
       let rawHtml := page_text response in
       let title :=
         match titleMatch rawHtml with
         | Some captured => decodeHtmlEntities (trim captured)
         | None => url
         end in
       let content := pageContent rawHtml in
       summarizeResponse <-
         post env
           (mkChatBody (chatModel env) systemMessage
              ("URL: " +:+ url +:+ lineFeed +:+ "Title: " +:+ title
               +:+ lineFeed +:+ "Query: " +:+ query +:+ lineFeed +:+ lineFeed
               +:+ "Page content:" +:+ lineFeed +:+ content)
              false) ;;
       match summarizeResponse with
       | NotOk status text =>
           errorText <- await text ;;
           ret (Failure ("Groq analysis failed: " +:+ pretty status
                         +:+ " " +:+ errorText))
       | Ok json =>
           result <- await json ;;
           let analysisText := orEmpty (message_content result) in
           if negb (truthy (Some analysisText))
           then ret (Failure "No analysis generated from page content")
           else
             ret (Success (mkData url query analysisText title (isoNow env)))
       end)
    (fun error =>
       ret (Failure ("Web fetch failed: " +:+ errorMessage error))).

(** [execute] *)
Definition execute (env : Env) (url query : string) : M (ToolResult Data) :=
  if negb (truthy (Some (Models.apiKey (settings env))))
  then ret (Failure keyError)
  else fallbackFetch env url query.

End WithPageTools.

End WebFetchTool.

End Tools.

(* ===================================================================== *)
(** * Properties                                                          *)
(* ===================================================================== *)

(** ** Strings *)

Module JsFacts.

Import Js.

Lemma prefix_toLowerCase (p s : string) :
  String.prefix p s = true ->
  String.prefix (toLowerCase p) (toLowerCase s) = true.
Proof.
  revert s. induction p as [|a p IH]; intros s H.
  - now destruct s.
  - destruct s as [|b s]; simpl in *; [discriminate|].
    destruct (Ascii.ascii_dec a b) as [->|Hne]; [|discriminate].
    destruct (Ascii.ascii_dec (lowerAscii b) (lowerAscii b)); [|congruence].
    now apply IH.
Qed.

Lemma includes_toLowerCase (s sub : string) :
  includes s sub = true ->
  includes (toLowerCase s) (toLowerCase sub) = true.
Proof.
  induction s as [|c s IH]; simpl; intros H.
  - apply orb_true_iff in H as [H|H]; [|discriminate].
    apply (prefix_toLowerCase sub EmptyString) in H. simpl in H.
    now rewrite H.
  - apply orb_true_iff in H as [H|H].
    + apply (prefix_toLowerCase sub (String c s)) in H. simpl in H.
      now rewrite H.
    + rewrite (IH H). apply orb_true_r.
Qed.

Lemma truthy_Some (s : string) : truthy (Some s) = true <-> s <> "".
Proof. destruct s; simpl; split; congruence. Qed.

End JsFacts.

(** ** The role registry *)

Module ModelsFacts.

Import Js Models.

Lemma ModelRole_eqb_eq (a b : ModelRole) : ModelRole_eqb a b = true <-> a = b.
Proof. destruct a, b; simpl; split; congruence. Qed.

Lemma claimsRole_spec (role : ModelRole) (m : GeminiModel) :
  claimsRole role m = true <->
  exists roles, defaultForRoles m = Some roles /\ In role roles.
Proof.
  unfold claimsRole. destruct (defaultForRoles m) as [roles|].
  - rewrite existsb_exists. split.
    + intros (r & Hin & Heq). apply ModelRole_eqb_eq in Heq. subst.
      now exists roles.
    + intros (roles' & [= <-] & Hin). exists role.
      split; [assumption | now apply ModelRole_eqb_eq].
  - split; [discriminate | intros (? & [=] & _)].
Qed.

Lemma find_first {A} (f : A -> bool) (before : list A) (x : A) (after : list A) :
  Forall (fun y => f y = false) before -> f x = true ->
  List.find f (before ++ x :: after) = Some x.
Proof.
  induction 1 as [|y before Hy _ IH]; intros Hx; simpl.
  - now rewrite Hx.
  - rewrite Hy. now apply IH.
Qed.

Lemma find_none_all {A} (f : A -> bool) (l : list A) :
  Forall (fun y => f y = false) l -> List.find f l = None.
Proof. induction 1 as [|y l Hy _ IH]; simpl; [|rewrite Hy]; auto. Qed.

Lemma find_unique {A} (f : A -> bool) (l : list A) (x : A) :
  In x l -> f x = true ->
  (forall y, In y l -> f y = true -> y = x) ->
  List.find f l = Some x.
Proof.
  induction l as [|a l IH]; simpl; intros Hin Hx Huniq; [contradiction|].
  destruct (f a) eqn:Ha.
  - f_equal. apply Huniq; auto.
  - destruct Hin as [->|Hin]; [congruence|]. apply IH; auto.
Qed.


(** The registry of the repository's own test: each role resolves to the
    model that lists it, and a role nobody lists to the first model. *)
Example getDefaultModelForRole_defaults :
  getDefaultModelForRole DEFAULT_GEMINI_MODELS summary = Returned "compound-mini"
  /\ getDefaultModelForRole DEFAULT_GEMINI_MODELS rewrite = Returned "compound"
  /\ getDefaultModelForRole DEFAULT_GEMINI_MODELS image = Returned "compound"
  /\ getDefaultModelForRole [] chat = Threw emptyRegistryError.
Proof. repeat split. Qed.

End ModelsFacts.

(** ** Filtering models *)

Module FilterFacts.

Import Js Models Manager.

Lemma isExcludedFamily_denylist (modelValue : string) :
  isExcludedFamily modelValue = existsb (includes modelValue) denylist.
Proof.
  unfold isExcludedFamily, denylist. simpl.
  rewrite orb_false_r, !orb_assoc. reflexivity.
Qed.

Lemma denylist_lower (word : string) :
  In word denylist -> toLowerCase word = word.
Proof.
  unfold denylist. simpl.
  intros H. repeat (destruct H as [H|H]; [now subst word|]). contradiction.
Qed.

Lemma keepModel_excluded (imageModelsOnly : bool) (model : GeminiModel) :
  survivesDenylist model = false -> keepModel imageModelsOnly model = false.
Proof.
  unfold survivesDenylist, keepModel. intros H.
  apply negb_false_iff in H. now rewrite H.
Qed.

Lemma keepModel_image (model : GeminiModel) :
  keepModel true model = survivesDenylist model && imageCapable model.
Proof.
  unfold keepModel, survivesDenylist, imageCapable.
  now destruct (isExcludedFamily _).
Qed.

Lemma keepModel_text (model : GeminiModel) :
  keepModel false model = survivesDenylist model && negb (imageCapable model).
Proof.
  unfold keepModel, survivesDenylist, imageCapable.
  now destruct (isExcludedFamily _).
Qed.

(** Splitting a filtered list by a second test rearranges it. *)
Lemma filter_split_Permutation {A} (keep side : A -> bool) (l : list A) :
  Permutation
    (List.filter (fun x => keep x && side x) l
     ++ List.filter (fun x => keep x && negb (side x)) l)
    (List.filter keep l).
Proof.
  induction l as [|a l IH]; simpl; [constructor|].
  destruct (keep a), (side a); simpl; auto.
  etransitivity; [symmetry; apply Permutation_middle|]. now constructor.
Qed.

(** C3 (as the code has it). A model whose identifier contains, in any
    letter case, one of the literals embedding, whisper, tts, transcribe,
    moderation, guard, speech is left out of the output of
    [filterModelsForVersion] in both modes, whatever its
    [supportsImageGeneration] flag. *)
Theorem filterModelsForVersion_excludes_denylisted
    (models : list GeminiModel) (model : GeminiModel) (word : string)
    (imageModelsOnly : bool) :
  In word denylist ->
  includes (toLowerCase (value model)) word = true
  \/ includes (value model) word = true ->
  ~ In model (filterModelsForVersion models imageModelsOnly).
Proof.
  intros Hword Hcontains Hin.
  assert (Hlow : includes (toLowerCase (value model)) word = true).
  { destruct Hcontains as [H|H]; [assumption|].
    apply JsFacts.includes_toLowerCase in H.
    now rewrite (denylist_lower word Hword) in H. }
  unfold filterModelsForVersion in Hin. apply filter_In in Hin as [_ Hkeep].
  rewrite keepModel_excluded in Hkeep; [discriminate|].
  unfold survivesDenylist. apply negb_false_iff.
  rewrite isExcludedFamily_denylist. apply existsb_exists. eauto.
Qed.

(** A flagged guard model next to a chat model: left out in both modes. *)
Lemma filterModelsForVersion_excludes_denylisted_witness :
  In "guard" denylist
  /\ ~ In (mkModel "Llama-Guard-4-12B" "Guard" None (Some true))
          (filterModelsForVersion
             [mkModel "compound" "Compound" None None;
              mkModel "Llama-Guard-4-12B" "Guard" None (Some true)]
             true)
  /\ ~ In (mkModel "Llama-Guard-4-12B" "Guard" None (Some true))
          (filterModelsForVersion
             [mkModel "compound" "Compound" None None;
              mkModel "Llama-Guard-4-12B" "Guard" None (Some true)]
             false).
Proof.
  assert (Hword : In "guard" denylist) by (unfold denylist; simpl; tauto).
  split; [exact Hword|].
  split;
    apply (filterModelsForVersion_excludes_denylisted _ _ "guard" _ Hword);
    left; reflexivity.
Defined.

(** C3 as the specification words it fails: an identifier containing
    "transcription" contains none of the literals the code tests (the code
    tests "transcribe"), and such a model stays in the text-mode output. *)
Lemma denylist_transcription_counterexample :
  includes "audio-transcription-v1" "transcription" = true
  /\ filterModelsForVersion
       [mkModel "audio-transcription-v1" "Transcription" None None] false
     = [mkModel "audio-transcription-v1" "Transcription" None None].
Proof. split; reflexivity. Qed.

(** What [imageCapable] reads: the flag, or one of three literals in the
    lower-cased identifier. *)
Lemma imageCapable_spec (model : GeminiModel) :
  imageCapable model = true <->
  supportsImageGeneration model = Some true
  \/ exists word, In word ["image"; "vision"; "flux"]
                  /\ includes (toLowerCase (value model)) word = true.
Proof.
  unfold imageCapable, isImageModel. rewrite !orb_true_iff. split.
  - intros [[[H|H]|H]|H].
    + left. destruct (supportsImageGeneration model) as [[]|]; congruence.
    + right. exists "image". simpl. tauto.
    + right. exists "vision". simpl. tauto.
    + right. exists "flux". simpl. tauto.
  - intros [H|(word & Hin & H)].
    + rewrite H. tauto.
    + simpl in Hin. destruct Hin as [<-|[<-|[<-|[]]]]; tauto.
Qed.

Lemma survivesDenylist_spec (model : GeminiModel) :
  survivesDenylist model = true <->
  forall word, In word denylist ->
               includes (toLowerCase (value model)) word = false.
Proof.
  unfold survivesDenylist. rewrite negb_true_iff, isExcludedFamily_denylist.
  split.
  - intros H word Hin. destruct (includes _ word) eqn:Hw; [|reflexivity].
    assert (Hex : existsb (includes (toLowerCase (value model))) denylist
                  = true) by (apply existsb_exists; eauto).
    congruence.
  - intros H. destruct (existsb _ denylist) eqn:Hex; [|reflexivity].
    apply existsb_exists in Hex as (word & Hin & Hw).
    rewrite (H word Hin) in Hw. discriminate.
Qed.

Lemma imageLiteral_lower (word : string) :
  In word ["image"; "vision"; "flux"] -> toLowerCase word = word.
Proof.
  simpl. intros H. repeat (destruct H as [H|H]; [now subst word|]).
  contradiction.
Qed.

(** C4. For every model list the image-mode and text-mode outputs of
    [filterModelsForVersion] share no model, and together they are the
    input without the denylisted models, those whose identifier contains,
    in lower case, one of the seven denylist literals.  A surviving model
    that is flagged [supportsImageGeneration] or whose identifier
    contains, in any letter case, one of the image-related literals
    image, vision, flux is in the image-mode output and not in the
    text-mode output; every other surviving model is in the text-mode
    output and not in the image-mode output. *)
Theorem filterModelsForVersion_partition (models : list GeminiModel) :
  let imageOut := filterModelsForVersion models true in
  let textOut := filterModelsForVersion models false in
  let survives := fun m =>
    forall word, In word denylist ->
                 includes (toLowerCase (value m)) word = false in
  let imageRelated := fun m =>
    supportsImageGeneration m = Some true
    \/ exists word, In word ["image"; "vision"; "flux"]
                    /\ (includes (toLowerCase (value m)) word = true
                        \/ includes (value m) word = true) in
  (forall m, In m imageOut -> ~ In m textOut)
  /\ Permutation (imageOut ++ textOut) (List.filter survivesDenylist models)
  /\ (forall m, survivesDenylist m = true <-> survives m)
  /\ (forall m, In m imageOut \/ In m textOut <-> In m models /\ survives m)
  /\ (forall m, In m models -> survives m -> imageRelated m ->
                In m imageOut /\ ~ In m textOut)
  /\ (forall m, In m models -> survives m -> ~ imageRelated m ->
                In m textOut /\ ~ In m imageOut).
Proof.
  unfold filterModelsForVersion. cbv zeta.
  assert (Hrel : forall m,
             imageCapable m = true <->
             supportsImageGeneration m = Some true
             \/ exists word, In word ["image"; "vision"; "flux"]
                             /\ (includes (toLowerCase (value m)) word = true
                                 \/ includes (value m) word = true)).
  { intros m. rewrite imageCapable_spec. split.
    - intros [H|(word & Hin & H)]; [now left|]. right. exists word. auto.
    - intros [H|(word & Hin & [H|H])]; [now left| |]; right; exists word;
        (split; [exact Hin|]); [exact H|].
      apply JsFacts.includes_toLowerCase in H.
      now rewrite (imageLiteral_lower word Hin) in H. }
  assert (Himg : forall m, In m (List.filter (keepModel true) models) <->
                           In m models /\ survivesDenylist m = true
                           /\ imageCapable m = true).
  { intros m. rewrite filter_In, keepModel_image, andb_true_iff. tauto. }
  assert (Htxt : forall m, In m (List.filter (keepModel false) models) <->
                           In m models /\ survivesDenylist m = true
                           /\ imageCapable m = false).
  { intros m.
    rewrite filter_In, keepModel_text, andb_true_iff, negb_true_iff. tauto. }
  split; [|split; [|split; [|split; [|split]]]].
  - intros m H1 H2. apply Himg in H1. apply Htxt in H2.
    destruct H1 as (_ & _ & H1), H2 as (_ & _ & H2). congruence.
  - rewrite (filter_ext (keepModel true) _ keepModel_image).
    rewrite (filter_ext (keepModel false) _ keepModel_text).
    apply filter_split_Permutation.
  - apply survivesDenylist_spec.
  - intros m. rewrite Himg, Htxt, <- survivesDenylist_spec.
    destruct (imageCapable m); tauto.
  - intros m Hin Hs Hc. apply survivesDenylist_spec in Hs.
    apply Hrel in Hc. rewrite Himg, Htxt. split; [tauto|].
    intros (_ & _ & H). congruence.
  - intros m Hin Hs Hc. apply survivesDenylist_spec in Hs.
    assert (Hno : imageCapable m = false).
    { destruct (imageCapable m) eqn:Hi; [|reflexivity].
      exfalso. apply Hc, Hrel. exact Hi. }
    rewrite Himg, Htxt. split; [tauto|].
    intros (_ & _ & H). congruence.
Qed.

(** The lists of the repository's filter tests. *)
Example filterModelsForVersion_tests :
  map value
    (filterModelsForVersion
       [mkModel "compound" "Compound" None None;
        mkModel "text-embedding-3-small" "Embedding" None None;
        mkModel "whisper-large-v3" "Whisper" None None;
        mkModel "guardrail-model" "Guard" None None;
        mkModel "llama-3.3-70b-versatile" "Llama" None None;
        mkModel "flux-dev" "Flux" None (Some true)] false)
  = ["compound"; "llama-3.3-70b-versatile"]
  /\ map value
       (filterModelsForVersion
          [mkModel "compound" "Compound" None None;
           mkModel "flux-dev" "Flux Dev" None (Some true);
           mkModel "llava-vision" "Vision" None None] true)
     = ["flux-dev"; "llava-vision"].
Proof. split; reflexivity. Qed.

End FilterFacts.

(** ** The discovery service *)

Module DiscoveryFacts.

Import Js Discovery.

Local Open Scope Z_scope.

(** The state once one request has been issued and answered. *)
Local Abbreviation afterFetch env st :=
  (mkState (cache st) (clock st + latency env) (stored st) (S (requests st))).

(** The result of a failed attempt made at time [now]. *)
Local Abbreviation failed now msg := (mkResult [] now false (Some msg)).

Local Abbreviation orCache st r :=
  (match cache st with Some c => c | None => r end).

Lemma fetchModelsFromAPI_no_key (env : Env) (st : State) :
  Models.apiKey (settings env) = "" ->
  fetchModelsFromAPI env st = (Threw (ErrorWith "API key not configured"), st).
Proof. unfold fetchModelsFromAPI. intros ->. reflexivity. Qed.

Lemma fetchModelsFromAPI_with_key (env : Env) (st : State) :
  Models.apiKey (settings env) <> "" ->
  fetchModelsFromAPI env st =
  (match network env with
   | FetchRejects e => Threw e
   | FetchResponds ok status statusText body =>
       if negb ok then
         Threw (ErrorWith ("API request failed: " +:+ pretty status +:+
                           " " +:+ statusText))
       else
         match body with
         | BodyRejects e => Threw e
         | BodyJson data => Returned (catalogModels data)
         end
   end, afterFetch env st).
Proof.
  unfold fetchModelsFromAPI. intros Hkey.
  destruct (Models.apiKey (settings env)) as [|a k]; [congruence|].
  cbn [truthy negb]. unfold bind, fetch.
  destruct (network env) as [e|[] status statusText [e|data]]; reflexivity.
Qed.

(** The request counter after a call to [fetchModelsFromAPI]. *)
Lemma fetchModelsFromAPI_requests (env : Env) (st : State) :
  requests (snd (fetchModelsFromAPI env st)) =
  (requests st +
   (if truthy (Some (Models.apiKey (settings env))) then 1 else 0))%nat.
Proof.
  destruct (Models.apiKey (settings env)) as [|a k] eqn:Hk.
  - rewrite fetchModelsFromAPI_no_key by assumption. simpl. lia.
  - rewrite fetchModelsFromAPI_with_key by congruence. simpl. lia.
Qed.

Lemma fetchModelsFromAPI_cache (env : Env) (st : State) :
  cache (snd (fetchModelsFromAPI env st)) = cache st.
Proof.
  destruct (Models.apiKey (settings env)) as [|a k] eqn:Hk.
  - now rewrite fetchModelsFromAPI_no_key.
  - now rewrite fetchModelsFromAPI_with_key by congruence.
Qed.

(** When the fetch throws, the catch block answers with the cache the
    service had, or with a failed result, and leaves the cache alone. *)
Lemma refresh_fetch_throws (env : Env) (st st1 : State) (e : Thrown) :
  fetchModelsFromAPI env st = (Threw e, st1) ->
  refresh env st =
  (Returned (orCache st (failed (clock st1) (errorMessage e))), st1).
Proof.
  intros H. pose proof (fetchModelsFromAPI_cache env st) as Hc.
  unfold refresh, tryCatch, bind. rewrite H in *. simpl in *.
  now rewrite Hc.
Qed.

(** When the fetch returns, the new result becomes the cache and is
    returned, whether or not it could be persisted. *)
Lemma refresh_fetch_returns (env : Env) (st st1 : State)
    (found : list GoogleModel) :
  fetchModelsFromAPI env st = (Returned found, st1) ->
  let fresh := mkResult found (clock st1) true None in
  fst (refresh env st) = Returned fresh
  /\ cache (snd (refresh env st)) = Some fresh
  /\ clock (snd (refresh env st)) = clock st1
  /\ requests (snd (refresh env st)) = requests st1.
Proof.
  intros H. unfold refresh, tryCatch, bind. rewrite H. simpl.
  unfold persistCache. simpl.
  destruct (loadDataRejects env), (saveDataRejects env); simpl; auto.
Qed.

Lemma refresh_returns (env : Env) (st : State) :
  exists result st', refresh env st = (Returned result, st').
Proof.
  destruct (fetchModelsFromAPI env st) as [[found|e] st1] eqn:H.
  - destruct (refresh_fetch_returns env st st1 found H) as (Hr & _).
    destruct (refresh env st) as [r st']. simpl in Hr. subst r. eauto.
  - rewrite (refresh_fetch_throws env st st1 e H). eauto.
Qed.

Lemma refresh_requests (env : Env) (st : State) :
  requests (snd (refresh env st)) =
  (requests st +
   (if truthy (Some (Models.apiKey (settings env))) then 1 else 0))%nat.
Proof.
  rewrite <- fetchModelsFromAPI_requests.
  destruct (fetchModelsFromAPI env st) as [[found|e] st1] eqn:H.
  - now destruct (refresh_fetch_returns env st st1 found H) as (_ & _ & _ & ->).
  - now rewrite (refresh_fetch_throws env st st1 e H).
Qed.

Lemma discoverModels_hit (env : Env) (st : State) (c : ModelDiscoveryResult) :
  cache st = Some c -> clock st - lastUpdated c < CACHE_DURATION ->
  discoverModels env false st = (Returned c, st).
Proof.
  intros Hc Hv. unfold discoverModels, bind, getCache, isCacheValid.
  rewrite Hc. simpl. apply Z.ltb_lt in Hv. now rewrite Hv.
Qed.

Lemma discoverModels_forced (env : Env) (st : State) :
  discoverModels env true st = refresh env st.
Proof.
  unfold discoverModels, bind, getCache, isCacheValid.
  now destruct (cache st).
Qed.

Lemma discoverModels_miss (env : Env) (st : State) :
  (forall c, cache st = Some c -> CACHE_DURATION <= clock st - lastUpdated c) ->
  discoverModels env false st = refresh env st.
Proof.
  intros Hstale. unfold discoverModels, bind, getCache, isCacheValid.
  destruct (cache st) as [c|]; [|reflexivity]. simpl.
  specialize (Hstale c eq_refl). apply Z.ltb_ge in Hstale. now rewrite Hstale.
Qed.

Lemma discoverModels_returns (env : Env) (forceRefresh : bool) (st : State) :
  exists result st',
    discoverModels env forceRefresh st = (Returned result, st').
Proof.
  unfold discoverModels, bind, getCache, isCacheValid.
  destruct (cache st) as [c|]; simpl; [|apply refresh_returns].
  destruct (negb forceRefresh && _); [eauto | apply refresh_returns].
Qed.

(** C1 (as the code has it). With a cache younger than 24 hours,
    [discoverModels(false)] returns that cache, leaves the state as it was
    and issues no request.  [discoverModels(true)] runs the fetch attempt
    whatever the cache holds; the attempt issues exactly one request when
    an API key is configured and none when it is not, and when the catalog
    answers the fresh result is returned and replaces the cache.  Two
    unforced calls, the first made without a valid cache, with a key and
    with a catalog that answers, the second within 24 hours of the first
    result, issue exactly one request between them and return the same
    result. *)
Theorem discoverModels_cache_policy (env : Env) (st : State) :
  (forall c,
      cache st = Some c -> clock st - lastUpdated c < CACHE_DURATION ->
      discoverModels env false st = (Returned c, st))
  /\ requests (snd (discoverModels env true st)) =
     (requests st +
      (if truthy (Some (Models.apiKey (settings env))) then 1 else 0))%nat
  /\ (forall status statusText data,
         Models.apiKey (settings env) <> "" ->
         network env = FetchResponds true status statusText (BodyJson data) ->
         let fresh :=
           mkResult (catalogModels data) (clock st + latency env) true None in
         fst (discoverModels env true st) = Returned fresh
         /\ cache (snd (discoverModels env true st)) = Some fresh)
  /\ (forall status statusText data env2 now2,
         (forall c, cache st = Some c ->
                    CACHE_DURATION <= clock st - lastUpdated c) ->
         Models.apiKey (settings env) <> "" ->
         network env = FetchResponds true status statusText (BodyJson data) ->
         now2 - (clock st + latency env) < CACHE_DURATION ->
         let first := discoverModels env false st in
         let second := discoverModels env2 false (atTime now2 (snd first)) in
         fst second = fst first
         /\ requests (snd second) = S (requests st)).
Proof.
  assert (Hok : forall status statusText data,
             Models.apiKey (settings env) <> "" ->
             network env = FetchResponds true status statusText (BodyJson data) ->
             fetchModelsFromAPI env st =
             (Returned (catalogModels data), afterFetch env st)).
  { intros status statusText data Hkey Hnet.
    rewrite fetchModelsFromAPI_with_key by assumption. now rewrite Hnet. }
  split; [|split; [|split]].
  - intros c Hc Hv. now apply discoverModels_hit.
  - rewrite discoverModels_forced. apply refresh_requests.
  - intros status statusText data Hkey Hnet. cbv zeta.
    rewrite discoverModels_forced.
    destruct (refresh_fetch_returns env st _ _ (Hok _ _ _ Hkey Hnet))
      as (Hr & Hc & _). simpl in Hr, Hc. auto.
  - intros status statusText data env2 now2 Hstale Hkey Hnet Hnow. cbv zeta.
    rewrite (discoverModels_miss env st Hstale).
    destruct (refresh_fetch_returns env st _ _ (Hok _ _ _ Hkey Hnet))
      as (Hr & Hc & _ & Hq). simpl in Hr, Hc, Hq.
    destruct (refresh env st) as [r1 st1]. simpl in *. subst r1.
    rewrite (discoverModels_hit env2 (atTime now2 st1) _ Hc); simpl; auto.
Qed.

(** C1 as the specification words it fails: a forced refresh without an
    API key returns without any request, and two unforced calls against a
    catalog that answers 503 issue two requests. *)
Lemma discoverModels_requests_counterexample :
  discoverModels Scenario.envNoKey true Scenario.started =
    (Returned (mkResult [] 1000 false (Some "API key not configured")),
     Scenario.started)
  /\ requests (snd (discoverModels Scenario.envNoKey true Scenario.started)) = 0%nat
  /\ requests
       (snd (discoverModels Scenario.envDown false
               (atTime 2000
                  (snd (discoverModels Scenario.envDown false
                          Scenario.started))))) = 2%nat.
Proof. repeat split. Qed.

(** A first unforced call that fetches the catalog, then a second one four
    seconds later while the network is down: same result, one request. *)
Lemma discoverModels_cache_policy_witness :
  fst (discoverModels Scenario.envDown false
         (atTime 5000 (snd (discoverModels Scenario.envOk false
                              Scenario.started))))
  = fst (discoverModels Scenario.envOk false Scenario.started)
  /\ requests
       (snd (discoverModels Scenario.envDown false
               (atTime 5000 (snd (discoverModels Scenario.envOk false
                                    Scenario.started)))))
     = 1%nat.
Proof.
  destruct (discoverModels_cache_policy Scenario.envOk Scenario.started)
    as (_ & _ & _ & H).
  apply (H 200 "OK"
           (Some [mkEntry (Some "compound") (Some "groq");
                  mkEntry (Some "whisper-large-v3") (Some "groq")])
           Scenario.envDown 5000).
  - intros c Hc. discriminate Hc.
  - discriminate.
  - reflexivity.
  - reflexivity.
Defined.

(** The repository's tests of the service: a forced discovery maps the
    catalog and drops the speech model, persisting the result; a valid
    cache is answered without a request. *)
Example discoverModels_tests :
  (let '(r, st) := discoverModels Scenario.envOk true Scenario.started in
   option_map (fun x => map name (models x))
              (match r with Returned x => Some x | Threw _ => None end)
     = Some ["compound"]
   /\ stored st = cache st /\ requests st = 1%nat)
  /\ (let st := snd (discoverModels Scenario.envOk true Scenario.started) in
      discoverModels Scenario.envOk false (atTime 5000 st)
      = (match cache st with
         | Some c => Returned c
         | None => Threw NonError
         end, atTime 5000 st)).
Proof. vm_compute. repeat split. Qed.

(** C2. [discoverModels] always returns to its caller.  When the catalog
    fetch fails (no API key, a network error, a response that is not ok, or
    a body that cannot be read) it returns the cache the service already
    had when there is one, and otherwise a result with [success = false],
    an error string and no models; the cache is the one the service had
    before the call. *)
Theorem discoverModels_never_throws
    (env : Env) (forceRefresh : bool) (st : State) :
  (exists result st',
      discoverModels env forceRefresh st = (Returned result, st'))
  /\ (Models.apiKey (settings env) = ""
      \/ (exists e, network env = FetchRejects e)
      \/ (exists status statusText body,
             network env = FetchResponds false status statusText body)
      \/ (exists status statusText e,
             network env = FetchResponds true status statusText (BodyRejects e)) ->
      exists st' message,
        discoverModels env forceRefresh st =
        (Returned (orCache st (failed (clock st') message)), st')
        /\ cache st' = cache st).
Proof.
  split.
  - apply discoverModels_returns.
  - intros Hfail.
    assert (Hthrow : exists e st1, fetchModelsFromAPI env st = (Threw e, st1)).
    { destruct (string_dec (Models.apiKey (settings env)) "") as [Hk|Hk].
      - rewrite (fetchModelsFromAPI_no_key env st Hk). eauto.
      - rewrite (fetchModelsFromAPI_with_key env st Hk).
        destruct Hfail as [Hk'|[(e & ->)|[(s & t & b & ->)|(s & t & e & ->)]]];
          [congruence | simpl; eauto ..]. }
    destruct Hthrow as (e & st1 & Hthrow).
    pose proof (fetchModelsFromAPI_cache env st) as Hcache.
    rewrite Hthrow in Hcache. simpl in Hcache.
    pose proof (refresh_fetch_throws env st st1 e Hthrow) as Hrefresh.
    unfold discoverModels, bind, getCache, isCacheValid.
    destruct (cache st) as [c|] eqn:Hc; simpl.
    + destruct (negb forceRefresh && _).
      * exists st, "". auto.
      * exists st1, (errorMessage e). rewrite Hrefresh, ?Hc. auto.
    + exists st1, (errorMessage e). rewrite Hrefresh, ?Hc. auto.
Qed.

(** A fresh service against a catalog answering 503: a failed empty
    result is returned and the cache stays empty. *)
Lemma discoverModels_never_throws_witness :
  exists st' message,
    discoverModels Scenario.envDown false Scenario.started =
    (Returned (mkResult [] (clock st') false (Some message)), st')
    /\ cache st' = None.
Proof.
  destruct (discoverModels_never_throws Scenario.envDown false
              Scenario.started) as [_ H].
  apply H. right. right. left.
  exists 503, "Service Unavailable", (BodyRejects NonError). reflexivity.
Defined.

End DiscoveryFacts.

(** ** Updating the registry *)

Module ManagerFacts.

Import Js Models Manager.

Lemma areSetsEqual_spec (set1 set2 : gset string) :
  areSetsEqual set1 set2 = true <-> set1 = set2.
Proof.
  unfold areSetsEqual. rewrite andb_true_iff, Nat.eqb_eq, forallb_forall.
  split.
  - intros [Hsize Hall].
    assert (Hsub : set1 ⊆ set2).
    { intros x Hx. eapply bool_decide_eq_true_1, Hall.
      apply list_elem_of_In, elem_of_elements, Hx. }
    apply set_subseteq_size_eq; [exact Hsub | lia].
  - intros ->. split; [reflexivity|]. intros x Hx.
    apply bool_decide_eq_true_2, elem_of_elements, list_elem_of_In, Hx.
Qed.

Lemma detectModelChanges_spec (current previous : list GeminiModel) :
  detectModelChanges current previous = true <->
  length current <> length previous
  \/ valueSet current <> valueSet previous.
Proof.
  unfold detectModelChanges.
  destruct (length current =? length previous)%nat eqn:Hlen; simpl.
  - apply Nat.eqb_eq in Hlen. rewrite negb_true_iff.
    rewrite <- not_true_iff_false, areSetsEqual_spec. tauto.
  - apply Nat.eqb_neq in Hlen. tauto.
Qed.

Lemma detectModelChanges_reordering (current previous : list GeminiModel) :
  Permutation (map value current) (map value previous) ->
  detectModelChanges current previous = false.
Proof.
  intros Hperm. apply not_true_iff_false. rewrite detectModelChanges_spec.
  intros [Hlen|Hset].
  - apply Hlen. apply Permutation_length in Hperm.
    now rewrite !length_map in Hperm.
  - apply Hset. unfold valueSet. now apply list_to_set_perm_L.
Qed.

Lemma needsUpdate_spec (models : list GeminiModel) (name : option string) :
  needsUpdate (valueSet models) name = false <-> stillPresent models name.
Proof.
  unfold needsUpdate, stillPresent, has, valueSet.
  rewrite orb_false_iff, !negb_false_iff. split.
  - intros [Ht Hh]. destruct name as [n|]; [|discriminate].
    exists n. split; [reflexivity|]. split.
    + now apply JsFacts.truthy_Some.
    + apply bool_decide_eq_true_1 in Hh.
      apply elem_of_list_to_set in Hh. now apply list_elem_of_In in Hh.
  - intros (n & -> & Hne & Hin). split.
    + now apply JsFacts.truthy_Some.
    + apply bool_decide_eq_true_2, elem_of_list_to_set.
      now apply list_elem_of_In.
Qed.

Lemma roleDefault_nonempty (models : list GeminiModel) (role : ModelRole) :
  models <> [] ->
  exists d, getDefaultModelForRole models role = Returned d
            /\ roleDefault models role = Some d.
Proof.
  intros Hne. unfold roleDefault, getDefaultModelForRole.
  destruct (List.find _ models); [eauto|].
  destruct models; [congruence | eauto].
Qed.

(** What [getUpdatedModelSettings] computes on a registry with at least
    one model, block by block. *)
Lemma getUpdatedModelSettings_nonempty
    (models : list GeminiModel) (s : Settings) :
  models <> [] ->
  let stale := needsUpdate (valueSet models) in
  let clearImage := truthy (imageModelName s) && stale (imageModelName s) in
  exists info,
    getUpdatedModelSettings models s =
    Returned
      (mkUpdate
         (mkSettings (apiKey s) (modelDiscoveryEnabled s)
            (if stale (chatModelName s) then roleDefault models chat
             else chatModelName s)
            (if stale (summaryModelName s) then roleDefault models summary
             else summaryModelName s)
            (if stale (completionsModelName s)
             then roleDefault models completions
             else completionsModelName s)
            (if clearImage then Some "" else imageModelName s))
         (stale (chatModelName s) || stale (summaryModelName s)
          || stale (completionsModelName s) || clearImage)
         info).
Proof.
  intros Hne. cbv zeta.
  destruct (roleDefault_nonempty models chat Hne) as (dc & Hdc & Hrc).
  destruct (roleDefault_nonempty models summary Hne) as (ds & Hds & Hrs).
  destruct (roleDefault_nonempty models completions Hne) as (dk & Hdk & Hrk).
  rewrite Hrc, Hrs, Hrk.
  unfold getUpdatedModelSettings, reassignBlock, imageBlock.
  rewrite Hdc, Hds, Hdk. destruct s as [key enabled c sm k img]. simpl.
  destruct (needsUpdate (valueSet models) c); simpl;
    destruct (needsUpdate (valueSet models) sm); simpl;
    destruct (needsUpdate (valueSet models) k); simpl;
    destruct (truthy img && needsUpdate (valueSet models) img); simpl;
    eexists; reflexivity.
Qed.

Section WithMapper.

Variable mapToGeminiModels : list Discovery.GoogleModel -> list GeminiModel.
Variable sortModelsByPreference : list GeminiModel -> list GeminiModel.
Variable mergeWithExistingModels :
  list GeminiModel -> list GeminiModel -> list GeminiModel.

Local Abbreviation getAvailableModels :=
  (Manager.getAvailableModels mapToGeminiModels sortModelsByPreference
     mergeWithExistingModels).

Local Abbreviation updateModels :=
  (Manager.updateModels mapToGeminiModels sortModelsByPreference
     mergeWithExistingModels).

(** [getAvailableModels] always returns, and never writes the registry. *)
Lemma getAvailableModels_returns
    (env : Discovery.Env) (options : ModelUpdateOptions) (st : State) :
  exists currentModels st1,
    getAvailableModels env options st = (Returned currentModels, st1)
    /\ GEMINI_MODELS st1 = GEMINI_MODELS st.
Proof.
  unfold Manager.getAvailableModels.
  destruct (negb (modelDiscoveryEnabled (Discovery.settings env))).
  - unfold ret. eauto.
  - unfold bind, tryCatch, onService, ret.
    destruct (DiscoveryFacts.discoverModels_returns
                env (forceRefresh options) (service st))
      as (result & sv & Hd).
    rewrite Hd. simpl.
    destruct (Discovery.success result && _); simpl; eauto.
Qed.

(** C6 (as the code has it). [updateModels] detects a change exactly when
    the freshly computed list and the registered list differ in length or
    in their sets of identifiers, so a reordering of the same identifiers
    is no change.  Without a change it returns the settings it was given
    with [settingsChanged = false] and the registry stays as it was.  With
    a change and a fresh list that is not empty it replaces the registry by
    the fresh list; each of [chatModelName], [summaryModelName] and
    [completionsModelName] that names a model of the fresh list is kept, and
    otherwise becomes the role's default in the fresh list; [imageModelName]
    is kept when it is absent, empty or names a model of the fresh list and
    is otherwise cleared to the empty string; [settingsChanged] tells
    whether one of the four was rewritten. *)
Theorem updateModels_change_detection
    (env : Discovery.Env) (options : ModelUpdateOptions) (st : State) :
  exists currentModels st1,
    getAvailableModels env options st = (Returned currentModels, st1)
    /\ GEMINI_MODELS st1 = GEMINI_MODELS st
    /\ (detectModelChanges currentModels (GEMINI_MODELS st) = true <->
        length currentModels <> length (GEMINI_MODELS st)
        \/ valueSet currentModels <> valueSet (GEMINI_MODELS st))
    /\ (Permutation (map value currentModels) (map value (GEMINI_MODELS st)) ->
        detectModelChanges currentModels (GEMINI_MODELS st) = false)
    /\ (detectModelChanges currentModels (GEMINI_MODELS st) = false ->
        updateModels env options st =
        (Returned (mkUpdate (Discovery.settings env) false []), st1))
    /\ (detectModelChanges currentModels (GEMINI_MODELS st) = true ->
        currentModels <> [] ->
        exists r,
          let old := Discovery.settings env in
          let new := updatedSettings r in
          let kept (get : Settings -> option string) :=
            stillPresent currentModels (get old) -> get new = get old in
          let defaulted (get : Settings -> option string) role :=
            ~ stillPresent currentModels (get old) ->
            get new = roleDefault currentModels role in
          updateModels env options st =
          (Returned r, mkState (service st1) currentModels)
          /\ kept chatModelName /\ defaulted chatModelName chat
          /\ kept summaryModelName /\ defaulted summaryModelName summary
          /\ kept completionsModelName
          /\ defaulted completionsModelName completions
          /\ kept imageModelName
          /\ (truthy (imageModelName old) = false ->
              imageModelName new = imageModelName old)
          /\ (truthy (imageModelName old) = true ->
              ~ stillPresent currentModels (imageModelName old) ->
              imageModelName new = Some "")
          /\ apiKey new = apiKey old
          /\ modelDiscoveryEnabled new = modelDiscoveryEnabled old
          /\ (settingsChanged r = false <->
              stillPresent currentModels (chatModelName old)
              /\ stillPresent currentModels (summaryModelName old)
              /\ stillPresent currentModels (completionsModelName old)
              /\ (truthy (imageModelName old) = false
                  \/ stillPresent currentModels (imageModelName old)))).
Proof.
  destruct (getAvailableModels_returns env options st)
    as (currentModels & st1 & Hget & Hreg).
  exists currentModels, st1.
  split; [exact Hget|]. split; [exact Hreg|].
  split; [apply detectModelChanges_spec|].
  split; [apply detectModelChanges_reordering|].
  split.
  - intros Hsame. unfold Manager.updateModels, bind. rewrite Hget.
    unfold getCurrentGeminiModels. rewrite Hreg, Hsame. reflexivity.
  - intros Hdiff Hne.
    destruct (getUpdatedModelSettings_nonempty
                currentModels (Discovery.settings env) Hne) as (info & Hupd).
    cbv zeta in Hupd.
    eexists. cbv zeta. split.
    + unfold Manager.updateModels, bind. rewrite Hget.
      unfold getCurrentGeminiModels. rewrite Hreg, Hdiff.
      unfold updateGlobalModelsList. simpl. rewrite Hupd. reflexivity.
    + simpl.
      pose proof (needsUpdate_spec currentModels) as Hspec.
      assert (Hstale : forall name,
                 needsUpdate (valueSet currentModels) name = true <->
                 ~ stillPresent currentModels name).
      { intros name. rewrite <- Hspec. symmetry. apply not_false_iff_true. }
      destruct (Discovery.settings env) as [key enabled c sm k img].
      simpl in *.
      destruct (needsUpdate _ c) eqn:Hc, (needsUpdate _ sm) eqn:Hsm,
               (needsUpdate _ k) eqn:Hk, (truthy img) eqn:Hti,
               (needsUpdate _ img) eqn:Hi;
        simpl;
        repeat match goal with
               | H : needsUpdate _ _ = true |- _ => apply Hstale in H
               | H : needsUpdate _ _ = false |- _ => apply Hspec in H
               end;
        repeat split; intros; try tauto; try congruence;
        try discriminate.
Qed.

End WithMapper.

(** C6 as the specification words it fails: [imageModelName] names a model
    that is not in the new registry, and it is cleared to the empty string
    although the registry has a default for the image role. *)
Lemma updateModels_image_counterexample :
  let env :=
    Discovery.mkEnv
      (mkSettings "" false (Some "compound") (Some "compound-mini")
                  (Some "llama-3.3-70b-versatile") (Some "old-image"))
      Scenario.catalog 5 None None in
  let out :=
    Manager.updateModels (fun _ => []) (fun l => l) (fun d _ => d) env
      (mkOptions false false) (mkState Scenario.started []) in
  match fst out with
  | Returned r =>
      settingsChanged r = true
      /\ imageModelName (updatedSettings r) = Some ""
      /\ chatModelName (updatedSettings r) = Some "compound"
  | Threw _ => False
  end
  /\ GEMINI_MODELS (snd out) = DEFAULT_GEMINI_MODELS
  /\ getDefaultModelForRole (GEMINI_MODELS (snd out)) image
     = Returned "compound".
Proof. vm_compute. repeat split. Qed.

(** Discovery disabled and an empty registry: the static list is
    registered, the stale chat model is reassigned, the summary model is
    kept and the stale image model is cleared. *)
Lemma updateModels_change_detection_witness :
  let env :=
    Discovery.mkEnv
      (mkSettings "" false (Some "x") (Some "compound-mini") None
                  (Some "old-image"))
      Scenario.catalog 5 None None in
  exists r,
    Manager.updateModels (fun _ => []) (fun l => l) (fun d _ => d) env
      (mkOptions false false) (mkState Scenario.started [])
    = (Returned r, mkState Scenario.started DEFAULT_GEMINI_MODELS)
    /\ chatModelName (updatedSettings r) = Some "compound"
    /\ summaryModelName (updatedSettings r) = Some "compound-mini"
    /\ imageModelName (updatedSettings r) = Some "".
Proof.
  cbv zeta.
  destruct (updateModels_change_detection
              (fun _ => []) (fun l => l) (fun d _ => d)
              (Discovery.mkEnv
                 (mkSettings "" false (Some "x") (Some "compound-mini") None
                             (Some "old-image"))
                 Scenario.catalog 5 None None)
              (mkOptions false false) (mkState Scenario.started []))
    as (currentModels & st1 & Hget & _ & _ & _ & _ & Hchange).
  vm_compute in Hget. injection Hget as <- <-.
  destruct Hchange as (r & Hupdate & _ & Hchat & Hsummary & _ & _ & _ & _ & _
                       & Himage & _).
  - reflexivity.
  - discriminate.
  - exists r. split; [exact Hupdate|]. split; [|split].
    + apply Hchat. intros (n & Hn & _ & Hin). injection Hn as <-.
      simpl in Hin.
      repeat (destruct Hin as [Hin|Hin]; [discriminate Hin|]). exact Hin.
    + apply Hsummary. exists "compound-mini".
      split; [reflexivity|]. split; [discriminate|]. simpl. auto.
    + apply Himage; [reflexivity|].
      intros (n & Hn & _ & Hin). injection Hn as <-.
      simpl in Hin.
      repeat (destruct Hin as [Hin|Hin]; [discriminate Hin|]). exact Hin.
Defined.

(** The end-to-end example of the specification: with the registry
    [a (chat); b (summary)], [chatModelName = x] becomes [a] and
    [summaryModelName = b] stays; through [updateModels], with a mapper
    that yields these two models for the discovered catalog. *)
Example updateModels_end_to_end :
  let a := mkModel "a" "A" (Some [chat]) None in
  let b := mkModel "b" "B" (Some [summary]) None in
  let settings := mkSettings "test-key" true (Some "x") (Some "b") None None in
  match getUpdatedModelSettings [a; b] settings with
  | Returned r =>
      chatModelName (updatedSettings r) = Some "a"
      /\ summaryModelName (updatedSettings r) = Some "b"
      /\ settingsChanged r = true
  | Threw _ => False
  end
  /\ (let out :=
        Manager.updateModels (fun _ => [a; b]) (fun l => l) (fun d _ => d)
          Scenario.envOk (mkOptions false false)
          (mkState Scenario.started DEFAULT_GEMINI_MODELS) in
      match fst out with
      | Returned r =>
          chatModelName (updatedSettings r) = Some "a"
          /\ summaryModelName (updatedSettings r) = Some "b"
          /\ settingsChanged r = true
      | Threw _ => False
      end
      /\ GEMINI_MODELS (snd out) = [a; b]).
Proof. vm_compute. repeat split. Qed.

(** An empty fresh list that differs from the registry makes the update
    throw the empty-registry error. *)
Example updateModels_empty_list :
  fst (Manager.updateModels (fun _ => []) (fun l => l) (fun d _ => d)
         Scenario.envOk (mkOptions false false)
         (mkState Scenario.started DEFAULT_GEMINI_MODELS))
  = Threw emptyRegistryError.
Proof. vm_compute. reflexivity. Qed.

End ManagerFacts.

(** ** The completion client *)

Module ClientFacts.

Import Js Client.

Lemma append_nil_r (s : string) : s +:+ "" = s.
Proof.
  induction s as [|a s IH]; [reflexivity|].
  change (String a (s +:+ "") = String a s). now rewrite IH.
Qed.

Lemma append_assoc (s1 s2 s3 : string) :
  (s1 +:+ s2) +:+ s3 = s1 +:+ (s2 +:+ s3).
Proof.
  induction s1 as [|a s1 IH]; [reflexivity|].
  change (String a ((s1 +:+ s2) +:+ s3) = String a (s1 +:+ (s2 +:+ s3))).
  now rewrite IH.
Qed.

Lemma orEmpty_falsy (s : option string) : truthy s = false -> orEmpty s = "".
Proof. destruct s as [[|]|]; simpl; congruence. Qed.

Lemma existsb_eqb_In (x : Z) (l : list Z) :
  existsb (Z.eqb x) l = true <-> In x l.
Proof.
  rewrite existsb_exists. split.
  - intros (y & Hin & Heq). apply Z.eqb_eq in Heq. now subst.
  - intros Hin. exists x. split; [assumption | apply Z.eqb_refl].
Qed.

(** *** The association list behind [toolCallBuffer] *)

Lemma bufferGet_set_same (index : Z) (v : Fragment) (m : ToolCallBuffer) :
  bufferGet index (bufferSet index v m) = Some v.
Proof.
  induction m as [|[k w] m IH]; simpl.
  - now rewrite Z.eqb_refl.
  - destruct (k =? index)%Z eqn:Hk; simpl; now rewrite Hk.
Qed.

Lemma bufferSet_set_same (index : Z) (v v' : Fragment) (m : ToolCallBuffer) :
  bufferSet index v' (bufferSet index v m) = bufferSet index v' m.
Proof.
  induction m as [|[k w] m IH]; simpl.
  - now rewrite Z.eqb_refl.
  - destruct (k =? index)%Z eqn:Hk; simpl; rewrite Hk; [|rewrite IH];
      reflexivity.
Qed.

Lemma bufferGet_tabulate (g : Z -> Fragment) (index : Z) (keys : list Z) :
  bufferGet index (map (fun k => (k, g k)) keys) =
  if existsb (Z.eqb index) keys then Some (g index) else None.
Proof.
  induction keys as [|k keys IH]; simpl; [reflexivity|].
  rewrite (Z.eqb_sym index k).
  destruct (k =? index)%Z eqn:Hk; simpl; [|exact IH].
  apply Z.eqb_eq in Hk. now subst.
Qed.

Lemma bufferSet_tabulate_new (g : Z -> Fragment) (index : Z) (v : Fragment)
    (keys : list Z) :
  ~ In index keys ->
  bufferSet index v (map (fun k => (k, g k)) keys) =
  map (fun k => (k, g k)) keys ++ [(index, v)].
Proof.
  induction keys as [|k keys IH]; simpl; intros Hin; [reflexivity|].
  destruct (k =? index)%Z eqn:Hk.
  - apply Z.eqb_eq in Hk. tauto.
  - rewrite IH by tauto. reflexivity.
Qed.

Lemma bufferSet_tabulate_old (g : Z -> Fragment) (index : Z) (v : Fragment)
    (keys : list Z) :
  List.NoDup keys -> In index keys ->
  bufferSet index v (map (fun k => (k, g k)) keys) =
  map (fun k => (k, if (k =? index)%Z then v else g k)) keys.
Proof.
  induction 1 as [|k keys Hk Hnd IH]; simpl; intros Hin; [contradiction|].
  destruct (k =? index)%Z eqn:Hki.
  - apply Z.eqb_eq in Hki. subst k. f_equal.
    apply map_ext_in. intros j Hj.
    destruct (j =? index)%Z eqn:Hji; [|reflexivity].
    apply Z.eqb_eq in Hji. subst. contradiction.
  - f_equal. apply IH. destruct Hin as [->|Hin]; [|assumption].
    now rewrite Z.eqb_refl in Hki.
Qed.

(** *** Indices in order of first arrival *)

Lemma indicesInOrder_snoc (tcs : list WireToolCall) (tc : WireToolCall) :
  indicesInOrder (tcs ++ [tc]) =
  if existsb (Z.eqb (deltaIndex tc)) (indicesInOrder tcs)
  then indicesInOrder tcs
  else indicesInOrder tcs ++ [deltaIndex tc].
Proof. unfold indicesInOrder. now rewrite fold_left_app. Qed.

Lemma indicesInOrder_In (tcs : list WireToolCall) (index : Z) :
  In index (indicesInOrder tcs) <->
  exists tc, In tc tcs /\ deltaIndex tc = index.
Proof.
  induction tcs as [|tc tcs IH] using rev_ind.
  - simpl. split; [contradiction | intros (? & [] & _)].
  - rewrite indicesInOrder_snoc.
    destruct (existsb _ _) eqn:Hex.
    + apply existsb_eqb_In in Hex. rewrite IH. split.
      * intros (x & Hin & Hx). exists x. rewrite in_app_iff. tauto.
      * intros (x & Hin & Hx). apply in_app_iff in Hin as [Hin|[<-|[]]].
        -- eauto.
        -- apply IH. now rewrite <- Hx.
    + rewrite in_app_iff, IH. simpl. split.
      * intros [(x & Hin & Hx)|[<-|[]]].
        -- exists x. rewrite in_app_iff. tauto.
        -- exists tc. rewrite in_app_iff. simpl. tauto.
      * intros (x & Hin & Hx). apply in_app_iff in Hin as [Hin|[<-|[]]];
          eauto.
Qed.

Lemma indicesInOrder_NoDup (tcs : list WireToolCall) :
  List.NoDup (indicesInOrder tcs).
Proof.
  induction tcs as [|tc tcs IH] using rev_ind; [constructor|].
  rewrite indicesInOrder_snoc. destruct (existsb _ _) eqn:Hex; [assumption|].
  apply List.NoDup_app; repeat split; try assumption.
  - repeat constructor. simpl. tauto.
  - intros x Hx [<-|[]]. apply existsb_eqb_In in Hx. congruence.
Qed.

(** *** The fragment built up at an index *)

Lemma fragmentAt_snoc (index : Z) (tcs : list WireToolCall) (tc : WireToolCall) :
  fragmentAt index (tcs ++ [tc]) =
  if (deltaIndex tc =? index)%Z
  then mergeDelta (fragmentAt index tcs) tc
  else fragmentAt index tcs.
Proof.
  unfold fragmentAt, deltasAt. rewrite List.filter_app, fold_left_app. simpl.
  now destruct (deltaIndex tc =? index)%Z.
Qed.

Lemma fragmentAt_fresh (index : Z) (tcs : list WireToolCall) :
  ~ In index (indicesInOrder tcs) -> fragmentAt index tcs = emptyFragment.
Proof.
  intros Hin. unfold fragmentAt, deltasAt.
  replace (List.filter _ tcs) with (@nil WireToolCall); [reflexivity|].
  symmetry. induction tcs as [|tc tcs IH]; [reflexivity|]. simpl.
  destruct (deltaIndex tc =? index)%Z eqn:Hi.
  - exfalso. apply Hin, indicesInOrder_In. exists tc. simpl.
    apply Z.eqb_eq in Hi. auto.
  - apply IH. intros H. apply Hin. apply indicesInOrder_In.
    apply indicesInOrder_In in H as (x & Hx & Hxi). exists x. simpl. auto.
Qed.

Lemma accumulate_tabulate (tcs : list WireToolCall) :
  fold_left applyToolCallDelta tcs [] =
  map (fun index => (index, fragmentAt index tcs)) (indicesInOrder tcs).
Proof.
  induction tcs as [|tc tcs IH] using rev_ind; [reflexivity|].
  rewrite fold_left_app. simpl. rewrite IH.
  unfold applyToolCallDelta.
  rewrite bufferGet_tabulate, indicesInOrder_snoc.
  destruct (existsb (Z.eqb (deltaIndex tc)) (indicesInOrder tcs)) eqn:Hex.
  - apply existsb_eqb_In in Hex.
    rewrite bufferSet_tabulate_old by (auto using indicesInOrder_NoDup).
    apply map_ext. intros k. rewrite fragmentAt_snoc, (Z.eqb_sym k).
    destruct (deltaIndex tc =? k)%Z eqn:Hk; [|reflexivity].
    apply Z.eqb_eq in Hk. now subst.
  - assert (Hnew : ~ In (deltaIndex tc) (indicesInOrder tcs)).
    { intros H. apply existsb_eqb_In in H. congruence. }
    rewrite bufferSet_tabulate_new by assumption.
    rewrite map_app. simpl. f_equal.
    + apply map_ext_in. intros k Hk. rewrite fragmentAt_snoc.
      destruct (deltaIndex tc =? k)%Z eqn:Hki; [|reflexivity].
      apply Z.eqb_eq in Hki. subst. contradiction.
    + now rewrite fragmentAt_snoc, Z.eqb_refl, fragmentAt_fresh.
Qed.

Lemma mergeDelta_arguments (e : Fragment) (tc : WireToolCall) :
  frag_arguments (mergeDelta e tc) =
  frag_arguments e +:+ orEmpty (deltaArguments tc).
Proof.
  unfold mergeDelta.
  destruct (truthy (deltaArguments tc)) eqn:Ha;
    destruct (truthy (tc_id tc)), (truthy (deltaName tc)); simpl;
    try reflexivity; now rewrite (orEmpty_falsy _ Ha), append_nil_r.
Qed.

Lemma mergeDelta_name (e : Fragment) (tc : WireToolCall) :
  frag_name (mergeDelta e tc) =
  if truthy (deltaName tc) then deltaName tc else frag_name e.
Proof.
  unfold mergeDelta.
  destruct (truthy (deltaArguments tc)), (truthy (tc_id tc)),
           (truthy (deltaName tc)); reflexivity.
Qed.

Lemma mergeDelta_id (e : Fragment) (tc : WireToolCall) :
  frag_id (mergeDelta e tc) =
  if truthy (tc_id tc) then tc_id tc else frag_id e.
Proof.
  unfold mergeDelta.
  destruct (truthy (deltaArguments tc)), (truthy (tc_id tc)),
           (truthy (deltaName tc)); reflexivity.
Qed.

Lemma fold_mergeDelta_fields (ds : list WireToolCall) (e : Fragment) :
  frag_id (fold_left mergeDelta ds e) =
    fold_left (fun acc x => if truthy x then x else acc)
              (map tc_id ds) (frag_id e)
  /\ frag_name (fold_left mergeDelta ds e) =
       fold_left (fun acc x => if truthy x then x else acc)
                 (map deltaName ds) (frag_name e)
  /\ frag_arguments (fold_left mergeDelta ds e) =
       frag_arguments e
       +:+ joinAll (map (fun tc => orEmpty (deltaArguments tc)) ds).
Proof.
  revert e. induction ds as [|d ds IH]; intros e; simpl.
  - now rewrite append_nil_r.
  - destruct (IH (mergeDelta e d)) as (Hid & Hname & Hargs).
    rewrite Hid, Hname, Hargs.
    rewrite mergeDelta_id, mergeDelta_name, mergeDelta_arguments.
    now rewrite append_assoc.
Qed.

Lemma fragmentAt_fields (index : Z) (tcs : list WireToolCall) :
  frag_id (fragmentAt index tcs) = lastTruthy (map tc_id (deltasAt index tcs))
  /\ frag_name (fragmentAt index tcs) =
       lastTruthy (map deltaName (deltasAt index tcs))
  /\ frag_arguments (fragmentAt index tcs) =
       joinAll (map (fun tc => orEmpty (deltaArguments tc))
                    (deltasAt index tcs)).
Proof. apply (fold_mergeDelta_fields (deltasAt index tcs) emptyFragment). Qed.

(** A name is held at an index exactly when some delta supplied one. *)
Lemma lastTruthy_truthy (l : list (option string)) :
  truthy (lastTruthy l) = true <-> exists x, In x l /\ truthy x = true.
Proof.
  unfold lastTruthy.
  assert (H : forall acc,
             truthy (fold_left (fun acc x => if truthy x then x else acc) l acc)
             = true <->
             truthy acc = true \/ exists x, In x l /\ truthy x = true).
  { induction l as [|y l IH]; intros acc; simpl.
    - split; [tauto | intros [H|(x & [] & _)]; exact H].
    - rewrite IH. destruct (truthy y) eqn:Hy; split.
      + intros _. right. exists y. auto.
      + intros _. auto.
      + intros [H|(x & Hin & Hx)]; [auto | right; exists x; auto].
      + intros [H|(x & [<-|Hin] & Hx)]; [auto | congruence | right; eauto]. }
  rewrite H. simpl. split; [intros [H'|H']; [discriminate | exact H'] | auto].
Qed.

Lemma fragmentAt_named (index : Z) (tcs : list WireToolCall) :
  truthy (frag_name (fragmentAt index tcs)) = true <->
  exists tc, In tc tcs /\ deltaIndex tc = index /\ truthy (deltaName tc) = true.
Proof.
  destruct (fragmentAt_fields index tcs) as (_ & -> & _).
  rewrite lastTruthy_truthy. unfold deltasAt. split.
  - intros (x & Hin & Hx). apply in_map_iff in Hin as (tc & <- & Hin).
    apply filter_In in Hin as [Hin Hi]. apply Z.eqb_eq in Hi. eauto.
  - intros (tc & Hin & Hi & Hn). exists (deltaName tc). split; [|exact Hn].
    apply in_map, filter_In. split; [exact Hin | now apply Z.eqb_eq].
Qed.

(** *** A payload sent in pieces *)

Lemma applyToolCallDelta_continue (buf : ToolCallBuffer) (index : Z)
    (id name : option string) (p q : string) :
  applyToolCallDelta
    (applyToolCallDelta buf
       (mkWireToolCall (Some index) id (Some (mkFunction name (Some p)))))
    (mkWireToolCall (Some index) None (Some (mkFunction None (Some q))))
  = applyToolCallDelta buf
      (mkWireToolCall (Some index) id
                      (Some (mkFunction name (Some (p +:+ q))))).
Proof.
  unfold applyToolCallDelta. simpl.
  rewrite bufferGet_set_same, bufferSet_set_same. f_equal.
  generalize (match bufferGet index buf with
              | Some e => e
              | None => emptyFragment
              end) as e.
  intros e. unfold mergeDelta. simpl.
  destruct (truthy id), (truthy name), p as [|a p], q as [|b q]; simpl;
    rewrite ?append_nil_r, ?append_assoc; reflexivity.
Qed.

Lemma accumulate_pieces (buf : ToolCallBuffer) (index : Z)
    (id name : option string) (pieces : list string) (piece : string) :
  fold_left applyToolCallDelta
    (map (fun q => mkWireToolCall (Some index) None
                     (Some (mkFunction None (Some q)))) pieces)
    (applyToolCallDelta buf
       (mkWireToolCall (Some index) id (Some (mkFunction name (Some piece)))))
  = applyToolCallDelta buf
      (mkWireToolCall (Some index) id
         (Some (mkFunction name (Some (joinAll (piece :: pieces)))))).
Proof.
  revert piece. induction pieces as [|q pieces IH]; intros piece; simpl.
  - now rewrite append_nil_r.
  - rewrite applyToolCallDelta_continue, IH. simpl.
    now rewrite append_assoc.
Qed.

Lemma joinAll_app (l1 l2 : list string) :
  joinAll (l1 ++ l2) = joinAll l1 +:+ joinAll l2.
Proof.
  induction l1 as [|a l1 IH]; simpl; [reflexivity|].
  now rewrite IH, append_assoc.
Qed.

Lemma joinAll_empty (l : list string) :
  Forall (fun x => x = "") l -> joinAll l = "".
Proof. induction 1 as [|x l -> _ IH]; simpl; [reflexivity | exact IH]. Qed.

Lemma Extends_refl (s : StreamState) : Extends s s.
Proof.
  exists [], []. simpl. now rewrite app_nil_r, append_nil_r.
Qed.

Lemma Extends_trans (s1 s2 s3 : StreamState) :
  Extends s1 s2 -> Extends s2 s3 -> Extends s1 s3.
Proof.
  intros (m1 & d1 & He1 & Hm1 & Hb1) (m2 & d2 & He2 & Hm2 & Hb2).
  exists (m1 ++ m2), (d1 ++ d2).
  rewrite He2, He1, Hm2, Hm1, Hb2, Hb1.
  now rewrite app_assoc, joinAll_app, append_assoc, fold_left_app.
Qed.

(** A loop whose body extends the state extends the state. *)
Lemma forEach_Extends {B} (body : StreamState -> B -> Completion StreamState)
    (l : list B) :
  (forall s b s', body s b = Returned s' -> Extends s s') ->
  forall s s', forEach body l s = Returned s' -> Extends s s'.
Proof.
  intros Hbody. induction l as [|b l IH]; simpl; intros s s' H.
  - injection H as <-. apply Extends_refl.
  - destruct (body s b) as [s1|e] eqn:Hb; [|discriminate].
    eapply Extends_trans; [eapply Hbody, Hb | apply IH, H].
Qed.

(** A loop throws what its body throws. *)
Lemma forEach_throws {A B} (body : A -> B -> Completion A) (l : list B)
    (P : Thrown -> Prop) :
  (forall a b e, body a b = Threw e -> P e) ->
  forall a e, forEach body l a = Threw e -> P e.
Proof.
  intros Hbody. induction l as [|b l IH]; simpl; intros a e H.
  - discriminate.
  - destruct (body a b) as [a1|e1] eqn:Hb.
    + eapply IH, H.
    + injection H as <-. eapply Hbody, Hb.
Qed.

Section WithJSON.

Variable JSON_parse : string -> option JSON.
Variable JSON_parse_chunk : string -> ChunkParse.
Variable onChunk : list string -> string -> option Thrown.

Local Abbreviation parseJson := (Client.parseJson JSON_parse).
Local Abbreviation decodeToolCall := (Client.decodeToolCall JSON_parse).
Local Abbreviation extractResponse := (Client.extractResponse JSON_parse).
Local Abbreviation generateModelResponse :=
  (Client.generateModelResponse JSON_parse).
Local Abbreviation finalizeFragment := (Client.finalizeFragment JSON_parse).
Local Abbreviation finalToolCalls := (Client.finalToolCalls JSON_parse).
Local Abbreviation finalize := (Client.finalize JSON_parse).
Local Abbreviation processLine :=
  (Client.processLine JSON_parse_chunk onChunk).
Local Abbreviation processEvent :=
  (Client.processEvent JSON_parse_chunk onChunk).
Local Abbreviation processRead :=
  (Client.processRead JSON_parse_chunk onChunk).
Local Abbreviation readLoop := (Client.readLoop JSON_parse_chunk onChunk).
Local Abbreviation generateStreamingResponse :=
  (Client.generateStreamingResponse JSON_parse JSON_parse_chunk onChunk).

Lemma finalToolCalls_tabulate (g : Z -> Fragment) (keys : list Z) :
  finalToolCalls (map (fun k => (k, g k)) keys) =
  match keys with
  | [] => None
  | _ =>
      Some (map (fun k => finalizeFragment (g k))
                (List.filter (fun k => truthy (frag_name (g k))) keys))
  end.
Proof.
  unfold Client.finalToolCalls, bufferValues. rewrite length_map, map_map.
  simpl. destruct keys as [|k keys]; [reflexivity|].
  cbn [length Nat.ltb Nat.leb]. f_equal.
  generalize (k :: keys) as l. intros l.
  induction l as [|a l IH]; simpl; [reflexivity|].
  destruct (truthy (frag_name (g a))); simpl; now rewrite IH.
Qed.

Lemma processLine_Extends (s : StreamState) (line : string) (s' : StreamState) :
  processLine s line = Returned s' -> Extends s s'.
Proof.
  unfold Client.processLine.
  destruct (negb (startsWith line "data: ")).
  { intros [= <-]. apply Extends_refl. }
  destruct (negb _ || _).
  { intros [= <-]. apply Extends_refl. }
  destruct (JSON_parse_chunk _) as [e|e|chunk]; [discriminate|discriminate|].
  cbv zeta.
  set (delta := match choices chunk with
                | Some (first :: _) => Client.delta first
                | _ => None
                end).
  set (text := match delta with Some d => orEmpty (content d) | None => "" end).
  assert (Htools : forall s1,
             match delta with
             | Some d =>
                 match tool_calls d with
                 | Some (tc :: rest) =>
                     Returned
                       (mkStream (st_markdown s1) (st_buffer s1)
                          (fold_left applyToolCallDelta (tc :: rest)
                                     (st_toolCallBuffer s1))
                          (st_emitted s1))
                 | _ => Returned s1
                 end
             | None => Returned s1
             end = Returned s' -> Extends s1 s').
  { intros s1 H.
    destruct delta as [d|]; [|injection H as <-; apply Extends_refl].
    destruct (tool_calls d) as [[|tc rest]|];
      injection H as <-; try apply Extends_refl.
    exists [], (tc :: rest). simpl. now rewrite app_nil_r, append_nil_r. }
  destruct (truthy (Some text)).
  - destruct (onChunk (st_emitted s) text) as [e|]; [discriminate|].
    intros H. eapply Extends_trans; [|apply Htools, H].
    exists [text], []. simpl. now rewrite append_nil_r.
  - apply Htools.
Qed.

Lemma processRead_Extends (s : StreamState) (text : string) (s' : StreamState) :
  processRead s text = Returned s' -> Extends s s'.
Proof.
  unfold Client.processRead. intros H.
  eapply Extends_trans; [|eapply forEach_Extends, H].
  - exists [], []. simpl. now rewrite app_nil_r, append_nil_r.
  - intros s1 event s2. unfold Client.processEvent.
    apply forEach_Extends. apply processLine_Extends.
Qed.

Lemma readLoop_Extends (cancelled : bool) (reads : list Read)
    (s s' : StreamState) :
  readLoop cancelled reads s = Returned s' -> Extends s s'.
Proof.
  revert cancelled s. induction reads as [|r reads IH]; intros cancelled s H.
  - destruct cancelled; injection H as <-; apply Extends_refl.
  - destruct cancelled; simpl in H; [injection H as <-; apply Extends_refl|].
    destruct (outcome r) as [text|e]; [|discriminate].
    destruct (processRead s text) as [s1|e] eqn:Hr; [|discriminate].
    eapply Extends_trans; [eapply processRead_Extends, Hr | eapply IH, H].
Qed.

(** Reads during which nobody cancelled are consumed one after the other. *)
Lemma readLoop_app (reads1 rest : list Read) (s s1 : StreamState) :
  Forall (fun r => cancelRequested r = false) reads1 ->
  readLoop false reads1 s = Returned s1 ->
  readLoop false (reads1 ++ rest) s = readLoop false rest s1.
Proof.
  intros Hno. revert s. induction Hno as [|r reads1 Hr _ IH]; intros s H.
  - simpl in H. now injection H as <-.
  - simpl in *. destruct (outcome r) as [text|e]; [|discriminate].
    destruct (processRead s text) as [s'|e]; [|discriminate].
    rewrite Hr in *. now apply IH.
Qed.

Lemma readLoop_cancelled (reads : list Read) (s : StreamState) :
  readLoop true reads s = Returned s.
Proof. now destruct reads. Qed.



End WithJSON.


(** The streaming test of the repository, and a tool call whose arguments
    arrive in three pieces next to a fragment that never gets a name: the
    call is the one the whole payload gives. *)
Example streaming_examples :
  let parse := Scenario.parseKnown Scenario.knownChunks in
  let run :=
    Client.generateStreamingResponse Scenario.parseArguments parse
      Scenario.quietCallback in
  run (ResponseStream false
         [mkRead false
            (ReadData
               (Scenario.event (Scenario.textDelta "Hello ")
                +:+ Scenario.event (Scenario.textDelta "World")
                +:+ "data: [DONE]" +:+ Scenario.nl +:+ Scenario.nl))])
  = Returned (mkResponse "Hello World" "" None, ["Hello "; "World"])
  /\ run (ResponseStream false
            (map (fun d => Scenario.dataRead false [d]) Scenario.searchPieces))
     = Returned
         (mkResponse "" ""
            (Some [mkToolCall (Some "search_files")
                     (JObject [("query", JString "abc")])]),
          [])
  /\ run (ResponseStream false
            (map (fun d => Scenario.dataRead false [d]) Scenario.searchPieces))
     = run (ResponseStream false [Scenario.dataRead false Scenario.searchWhole]).
Proof. vm_compute. repeat split. Qed.

End ClientFacts.

(** ** More on the discovery service *)

Module DiscoveryMore.

Import Js Discovery DiscoveryFacts.

Local Open Scope Z_scope.

Lemma isGenerativeModel_spec (model : CatalogEntry) :
  isGenerativeModel model = true ->
  exists i,
    id model = Some i /\ i <> ""
    /\ includes (toLowerCase i) "whisper" = false
    /\ includes (toLowerCase i) "tts" = false
    /\ includes (toLowerCase i) "vision-preview" = false.
Proof.
  unfold isGenerativeModel. rewrite !andb_true_iff, !negb_true_iff.
  intros (((Ht & Hw) & Hs) & Hv).
  destruct (id model) as [i|]; [|discriminate Ht].
  exists i. repeat split; try assumption.
  intros ->. discriminate Ht.
Qed.

Lemma fetch_returns_one_request
    (env : Env) (st st1 : State) (found : list GoogleModel) :
  fetchModelsFromAPI env st = (Returned found, st1) ->
  requests st1 = S (requests st).
Proof.
  intros H.
  destruct (string_dec (Models.apiKey (settings env)) "") as [Hk|Hk].
  - rewrite (fetchModelsFromAPI_no_key env st Hk) in H. discriminate H.
  - rewrite (fetchModelsFromAPI_with_key env st Hk) in H.
    now injection H as _ <-.
Qed.

(** X1. When [fetchModelsFromAPI] returns, a key was configured and exactly
    one request was issued; the models returned are the catalog entries
    that pass [isGenerativeModel], in catalog order, each named by its
    identifier; every one has a non-empty name that contains none of
    whisper, tts and vision-preview in any letter case, and carries the
    fixed defaults (display name equal to the name, version latest, limits
    131072 and 8192, the single method generateContent). *)
Theorem fetchModelsFromAPI_models
    (env : Env) (st st1 : State) (found : list GoogleModel) :
  fetchModelsFromAPI env st = (Returned found, st1) ->
  Models.apiKey (settings env) <> ""
  /\ requests st1 = S (requests st)
  /\ cache st1 = cache st
  /\ (exists status statusText data,
         network env = FetchResponds true status statusText (BodyJson data)
         /\ map name found =
            map (fun e => orEmpty (id e))
                (List.filter isGenerativeModel
                   (match data with Some d => d | None => [] end)))
  /\ List.Forall
       (fun g =>
          name g <> ""
          /\ includes (toLowerCase (name g)) "whisper" = false
          /\ includes (toLowerCase (name g)) "tts" = false
          /\ includes (toLowerCase (name g)) "vision-preview" = false
          /\ displayName g = name g
          /\ version g = "latest"
          /\ inputTokenLimit g = 131072
          /\ outputTokenLimit g = 8192
          /\ supportedGenerationMethods g = ["generateContent"])
       found.
Proof.
  intros H.
  destruct (string_dec (Models.apiKey (settings env)) "") as [Hk|Hk].
  { rewrite (fetchModelsFromAPI_no_key env st Hk) in H. discriminate H. }
  rewrite (fetchModelsFromAPI_with_key env st Hk) in H.
  destruct (network env) as [e|[] status statusText [e|data]] eqn:Hnet;
    simpl in H; try discriminate H.
  injection H as <- <-. simpl.
  split; [exact Hk|]. split; [reflexivity|]. split; [reflexivity|].
  split.
  - exists status, statusText, data. split; [reflexivity|].
    unfold catalogModels. rewrite map_map. apply map_ext. intros e.
    unfold toGoogleModel. simpl. now destruct (id e).
  - unfold catalogModels. apply List.Forall_forall. intros g Hg.
    apply in_map_iff in Hg as (e & <- & He).
    apply filter_In in He as [_ He].
    destruct (isGenerativeModel_spec e He) as (i & Hi & Hne & Hw & Hs & Hv).
    unfold toGoogleModel. rewrite Hi. simpl. repeat split; assumption.
Qed.

(** The catalog of the repository's test: the speech model is dropped. *)
Lemma fetchModelsFromAPI_models_witness :
  Models.apiKey (settings Scenario.envOk) <> ""
  /\ List.Forall
       (fun g => includes (toLowerCase (name g)) "whisper" = false)
       (catalogModels
          (Some [mkEntry (Some "compound") (Some "groq");
                 mkEntry (Some "whisper-large-v3") (Some "groq")])).
Proof.
  destruct (fetchModelsFromAPI_models Scenario.envOk Scenario.started
              (mkState None 1005 None 1)
              (catalogModels
                 (Some [mkEntry (Some "compound") (Some "groq");
                        mkEntry (Some "whisper-large-v3") (Some "groq")])))
    as (Hk & _ & _ & _ & Hall).
  - reflexivity.
  - split; [exact Hk|].
    eapply List.Forall_impl; [|exact Hall].
    intros g (_ & Hw & _). exact Hw.
Defined.

Lemma fetch_ok (env : Env) (st : State) status statusText data :
  Models.apiKey (settings env) <> "" ->
  network env = FetchResponds true status statusText (BodyJson data) ->
  fetchModelsFromAPI env st =
  (Returned (catalogModels data),
   mkState (cache st) (clock st + latency env) (stored st) (S (requests st))).
Proof.
  intros Hkey Hnet. rewrite fetchModelsFromAPI_with_key by assumption.
  now rewrite Hnet.
Qed.

(** What [refresh] does when the catalog answers, by the fate of the
    write to the host's storage. *)
Lemma refresh_ok (env : Env) (st : State) status statusText data :
  Models.apiKey (settings env) <> "" ->
  network env = FetchResponds true status statusText (BodyJson data) ->
  let fresh :=
    mkResult (catalogModels data) (clock st + latency env) true None in
  refresh env st =
  (Returned fresh,
   mkState (Some fresh) (clock st + latency env)
     (match loadDataRejects env, saveDataRejects env with
      | None, None => Some fresh
      | _, _ => stored st
      end)
     (S (requests st))).
Proof.
  intros Hkey Hnet. cbv zeta. unfold refresh, tryCatch, bind.
  rewrite (fetch_ok env st _ _ _ Hkey Hnet). simpl.
  unfold persistCache. simpl.
  destruct (loadDataRejects env), (saveDataRejects env); reflexivity.
Qed.

(** X2. A result that was fetched and persisted survives a restart: after
    a forced discovery against a catalog that answers, with the host's
    storage working, the stored entry equals the cache; a service started
    later with an empty cache gets the same result back from [loadCache],
    and an unforced discovery within 24 hours of the fetch returns it
    without any request. *)
Theorem persisted_cache_survives_restart
    (env envLoad envLater : Env) (st : State) (now : Z)
    status statusText data :
  Models.apiKey (settings env) <> "" ->
  network env = FetchResponds true status statusText (BodyJson data) ->
  loadDataRejects env = None -> saveDataRejects env = None ->
  loadDataRejects envLoad = None ->
  now - (clock st + latency env) < CACHE_DURATION ->
  let fresh :=
    mkResult (catalogModels data) (clock st + latency env) true None in
  let st1 := snd (discoverModels env true st) in
  let restarted := mkState None now (stored st1) (requests st1) in
  let loaded := snd (loadCache envLoad restarted) in
  stored st1 = Some fresh
  /\ cache st1 = stored st1
  /\ cache loaded = Some fresh
  /\ discoverModels envLater false loaded = (Returned fresh, loaded).
Proof.
  intros Hkey Hnet Hload Hsave HloadL Hnow. cbv zeta.
  rewrite discoverModels_forced, (refresh_ok env st _ _ _ Hkey Hnet).
  rewrite Hload, Hsave. simpl. unfold loadCache. rewrite HloadL. simpl.
  split; [reflexivity|]. split; [reflexivity|]. split; [reflexivity|].
  apply discoverModels_hit; [reflexivity | exact Hnow].
Qed.

(** A discovery at time 1000, a restart at time 5000 and a network that is
    down by then. *)
Lemma persisted_cache_survives_restart_witness :
  discoverModels Scenario.envDown false
    (snd (loadCache Scenario.envOk
            (mkState None 5000
               (stored (snd (discoverModels Scenario.envOk true
                               Scenario.started)))
               (requests (snd (discoverModels Scenario.envOk true
                                 Scenario.started))))))
  = (Returned
       (mkResult
          (catalogModels
             (Some [mkEntry (Some "compound") (Some "groq");
                    mkEntry (Some "whisper-large-v3") (Some "groq")]))
          1005 true None),
     snd (loadCache Scenario.envOk
            (mkState None 5000
               (stored (snd (discoverModels Scenario.envOk true
                               Scenario.started)))
               (requests (snd (discoverModels Scenario.envOk true
                                 Scenario.started)))))).
Proof.
  apply (persisted_cache_survives_restart Scenario.envOk Scenario.envOk
           Scenario.envDown Scenario.started 5000 200 "OK"
           (Some [mkEntry (Some "compound") (Some "groq");
                  mkEntry (Some "whisper-large-v3") (Some "groq")]));
    try reflexivity.
  discriminate.
Defined.

(** X3. A failure to persist is silent: when the catalog answers but the
    host's [loadData] or [saveData] rejects, [discoverModels] still returns
    the fresh successful result and keeps it as the cache, while the stored
    entry stays what it was; a restart then falls back to the older
    entry. *)
Theorem persist_failure_is_silent
    (env : Env) (forceRefresh : bool) (st : State) status statusText data :
  Models.apiKey (settings env) <> "" ->
  network env = FetchResponds true status statusText (BodyJson data) ->
  loadDataRejects env <> None \/ saveDataRejects env <> None ->
  forceRefresh = true
  \/ (forall c, cache st = Some c ->
                CACHE_DURATION <= clock st - lastUpdated c) ->
  let fresh :=
    mkResult (catalogModels data) (clock st + latency env) true None in
  exists st',
    discoverModels env forceRefresh st = (Returned fresh, st')
    /\ cache st' = Some fresh
    /\ stored st' = stored st
    /\ requests st' = S (requests st).
Proof.
  intros Hkey Hnet Hfail Hpath. cbv zeta.
  assert (Hd : discoverModels env forceRefresh st = refresh env st).
  { destruct Hpath as [-> | Hstale];
      [apply discoverModels_forced | destruct forceRefresh;
        [apply discoverModels_forced | now apply discoverModels_miss]]. }
  rewrite Hd, (refresh_ok env st _ _ _ Hkey Hnet).
  eexists. split; [reflexivity|]. simpl.
  split; [reflexivity|]. split; [|reflexivity].
  destruct (loadDataRejects env), (saveDataRejects env);
    try reflexivity.
  destruct Hfail as [H|H]; congruence.
Qed.

(** The catalog answers while [saveData] rejects. *)
Lemma persist_failure_is_silent_witness :
  exists st',
    discoverModels
      (mkEnv Scenario.settingsWithKey Scenario.catalog 5 None
             (Some (ErrorWith "disk full")))
      false Scenario.started
    = (Returned
         (mkResult
            (catalogModels
               (Some [mkEntry (Some "compound") (Some "groq");
                      mkEntry (Some "whisper-large-v3") (Some "groq")]))
            1005 true None), st')
    /\ stored st' = None.
Proof.
  destruct (persist_failure_is_silent
              (mkEnv Scenario.settingsWithKey Scenario.catalog 5 None
                     (Some (ErrorWith "disk full")))
              false Scenario.started 200 "OK"
              (Some [mkEntry (Some "compound") (Some "groq");
                     mkEntry (Some "whisper-large-v3") (Some "groq")]))
    as (st' & Hrun & _ & Hstored & _).
  - discriminate.
  - reflexivity.
  - right. discriminate.
  - right. intros c Hc. discriminate Hc.
  - exists st'. split; [exact Hrun | exact Hstored].
Defined.

(** X4. Once the service holds a cache, [discoverModels] never reports a
    failure: whatever the flag and whatever happens to the fetch, it
    returns either the cache it held, unchanged and with its old
    timestamp, or a fresh successful result that has replaced it; it never
    empties the cache and issues at most one request. *)
Theorem cached_service_never_reports_failure
    (env : Env) (forceRefresh : bool) (st : State) (c : ModelDiscoveryResult) :
  cache st = Some c ->
  exists r st',
    discoverModels env forceRefresh st = (Returned r, st')
    /\ ((r = c /\ cache st' = Some c)
        \/ (success r = true /\ error r = None /\ cache st' = Some r
            /\ requests st' = S (requests st)))
    /\ (requests st' <= S (requests st))%nat.
Proof.
  intros Hc.
  assert (Hrefresh : exists r st',
             refresh env st = (Returned r, st')
             /\ ((r = c /\ cache st' = Some c)
                 \/ (success r = true /\ error r = None /\ cache st' = Some r
                     /\ requests st' = S (requests st)))
             /\ (requests st' <= S (requests st))%nat).
  { destruct (fetchModelsFromAPI env st) as [[found|e] st1] eqn:Hf.
    - pose proof (fetch_returns_one_request env st st1 found Hf) as Hq.
      destruct (refresh_fetch_returns env st st1 found Hf)
        as (Hr & Hcache & _ & Hreq).
      destruct (refresh env st) as [r st']. simpl in *. subst r.
      eexists _, st'. split; [reflexivity|]. split; [|lia].
      right. simpl. rewrite Hreq, Hq. auto.
    - pose proof (fetchModelsFromAPI_cache env st) as Hcache.
      pose proof (fetchModelsFromAPI_requests env st) as Hreq.
      rewrite Hf in Hcache, Hreq. cbn [snd] in Hcache, Hreq.
      rewrite (refresh_fetch_throws env st st1 e Hf), Hc.
      eexists _, st1. split; [reflexivity|]. split.
      + left. split; [reflexivity | congruence].
      + destruct (truthy _) in Hreq; lia. }
  unfold discoverModels, bind, getCache, isCacheValid. rewrite Hc. simpl.
  destruct (negb forceRefresh && _); [|exact Hrefresh].
  exists c, st. split; [reflexivity|]. split; [left; auto | lia].
Qed.

(** A forced refresh against a catalog that answers 503, one hour after a
    successful discovery: the old result comes back. *)
Lemma cached_service_never_reports_failure_witness :
  exists r st',
    discoverModels Scenario.envDown true
      (atTime 3601000 (snd (discoverModels Scenario.envOk true
                              Scenario.started)))
    = (Returned r, st')
    /\ success r = true.
Proof.
  destruct (cached_service_never_reports_failure Scenario.envDown true
              (atTime 3601000 (snd (discoverModels Scenario.envOk true
                                      Scenario.started)))
              (mkResult
                 (catalogModels
                    (Some [mkEntry (Some "compound") (Some "groq");
                           mkEntry (Some "whisper-large-v3") (Some "groq")]))
                 1005 true None))
    as (r & st' & Hrun & [[-> _]|(Hs & _)] & _).
  - reflexivity.
  - eexists. exists st'. split; [exact Hrun | reflexivity].
  - exists r, st'. split; [exact Hrun | exact Hs].
Defined.


(** X6. [clearCache] drops the in-memory cache only: the stored entry, the
    clock and the request counter stay; the next unforced discovery goes
    through the fetch attempt, and [loadCache] brings the stored entry
    back as the cache. *)
Theorem clearCache_keeps_stored_entry (st : State) :
  exists st',
    clearCache st = (Returned tt, st')
    /\ cache st' = None
    /\ stored st' = stored st
    /\ clock st' = clock st
    /\ requests st' = requests st
    /\ (forall env, discoverModels env false st' = refresh env st')
    /\ (forall env,
          loadDataRejects env = None ->
          cache (snd (loadCache env st')) = stored st).
Proof.
  unfold clearCache, setCache. eexists. split; [reflexivity|]. simpl.
  do 4 (split; [reflexivity|]). split.
  - intros env. apply discoverModels_miss. simpl. discriminate.
  - intros env Hload. unfold loadCache. now rewrite Hload.
Qed.

End DiscoveryMore.

(** ** More on the role registry *)

Module ModelsMore.

Import Js Models Manager ManagerFacts.

Lemma needsUpdate_empty (name : option string) :
  needsUpdate (valueSet []) name = true.
Proof.
  unfold needsUpdate, has, valueSet. simpl.
  destruct name as [n|]; [|reflexivity].
  rewrite bool_decide_eq_false_2 by apply not_elem_of_empty.
  apply orb_true_r.
Qed.

Lemma getUpdatedModelSettings_empty (s : Settings) :
  getUpdatedModelSettings [] s = Threw emptyRegistryError.
Proof.
  unfold getUpdatedModelSettings, reassignBlock. simpl.
  now rewrite needsUpdate_empty.
Qed.

Local Abbreviation countTrue flags :=
  (length (List.filter (fun b : bool => b) flags)).

(** The result on a registry with at least one model, with the number of
    description lines. *)
Lemma getUpdatedModelSettings_shape (models : list GeminiModel) (s : Settings) :
  models <> [] ->
  let stale := needsUpdate (valueSet models) in
  let clearImage := truthy (imageModelName s) && stale (imageModelName s) in
  exists info,
    getUpdatedModelSettings models s =
    Returned
      (mkUpdate
         (mkSettings (apiKey s) (modelDiscoveryEnabled s)
            (if stale (chatModelName s) then roleDefault models chat
             else chatModelName s)
            (if stale (summaryModelName s) then roleDefault models summary
             else summaryModelName s)
            (if stale (completionsModelName s)
             then roleDefault models completions
             else completionsModelName s)
            (if clearImage then Some "" else imageModelName s))
         (stale (chatModelName s) || stale (summaryModelName s)
          || stale (completionsModelName s) || clearImage)
         info)
    /\ length info =
       countTrue [stale (chatModelName s); stale (summaryModelName s);
                  stale (completionsModelName s); clearImage].
Proof.
  intros Hne. cbv zeta.
  destruct (roleDefault_nonempty models chat Hne) as (dc & Hdc & Hrc).
  destruct (roleDefault_nonempty models summary Hne) as (ds & Hds & Hrs).
  destruct (roleDefault_nonempty models completions Hne) as (dk & Hdk & Hrk).
  rewrite Hrc, Hrs, Hrk.
  unfold getUpdatedModelSettings, reassignBlock, imageBlock.
  rewrite Hdc, Hds, Hdk. destruct s as [key enabled c sm k img]. simpl.
  destruct (needsUpdate (valueSet models) c); simpl;
    destruct (needsUpdate (valueSet models) sm); simpl;
    destruct (needsUpdate (valueSet models) k); simpl;
    destruct (truthy img && needsUpdate (valueSet models) img); simpl;
    eexists; split; reflexivity.
Qed.

Lemma returned_nonempty (models : list GeminiModel) (s : Settings)
    (r : ModelUpdateResult) :
  getUpdatedModelSettings models s = Returned r -> models <> [].
Proof.
  intros H ->. rewrite getUpdatedModelSettings_empty in H. discriminate H.
Qed.

(** A role default names a model of the registry when no model has an
    empty identifier. *)
Lemma roleDefault_present (models : list GeminiModel) (role : ModelRole) :
  models <> [] -> List.Forall (fun m => value m <> "") models ->
  needsUpdate (valueSet models) (roleDefault models role) = false.
Proof.
  intros Hne Hids. apply needsUpdate_spec.
  destruct (roleDefault_nonempty models role Hne) as (d & Hd & ->).
  assert (Hm : exists m, In m models /\ value m = d).
  { unfold getDefaultModelForRole in Hd.
    destruct (List.find _ models) as [m|] eqn:Hf.
    - injection Hd as <-. apply find_some in Hf as [Hin _]. eauto.
    - destruct models as [|m rest]; [congruence|].
      injection Hd as <-. exists m. simpl. auto. }
  destruct Hm as (m & Hin & <-).
  exists (value m). split; [reflexivity|]. split.
  - rewrite List.Forall_forall in Hids. now apply Hids.
  - now apply in_map.
Qed.

Lemma getUpdatedModelSettings_settled (models : list GeminiModel) (s : Settings) :
  needsUpdate (valueSet models) (chatModelName s) = false ->
  needsUpdate (valueSet models) (summaryModelName s) = false ->
  needsUpdate (valueSet models) (completionsModelName s) = false ->
  truthy (imageModelName s) && needsUpdate (valueSet models) (imageModelName s)
    = false ->
  getUpdatedModelSettings models s = Returned (mkUpdate s false []).
Proof.
  intros Hc Hs Hk Hi.
  unfold getUpdatedModelSettings, reassignBlock, imageBlock. simpl.
  rewrite Hc. simpl. rewrite Hs. simpl. rewrite Hk. simpl. now rewrite Hi.
Qed.

(** X7. [getUpdatedModelSettings] throws exactly when the registry is
    empty, whatever the settings hold, and what it throws then is the
    empty-registry error of [getDefaultModelForRole]: with an empty
    registry even settings that are all absent cannot be returned
    unchanged. *)
Theorem getUpdatedModelSettings_throws_iff_empty
    (models : list GeminiModel) (s : Settings) :
  ((exists e, getUpdatedModelSettings models s = Threw e) <-> models = [])
  /\ (models = [] ->
      getUpdatedModelSettings models s = Threw emptyRegistryError)
  /\ (models <> [] -> exists r, getUpdatedModelSettings models s = Returned r).
Proof.
  split; [|split].
  - split.
    + intros [e He]. destruct models as [|m rest]; [reflexivity|].
      assert (Hne : m :: rest <> []) by discriminate.
      destruct (getUpdatedModelSettings_shape _ s Hne) as (info & Hr & _).
      rewrite Hr in He. discriminate He.
    + intros ->. rewrite getUpdatedModelSettings_empty. eauto.
  - intros ->. apply getUpdatedModelSettings_empty.
  - intros Hne.
    destruct (getUpdatedModelSettings_shape _ s Hne) as (info & Hr & _).
    eauto.
Qed.

(** X8. On a registry without empty identifiers the update settles: in the
    settings it returns, the chat, summary and completions names each name
    a model of the registry, and running [getUpdatedModelSettings] again on
    them changes nothing ([settingsChanged = false], no description line,
    the same settings). *)
Theorem getUpdatedModelSettings_idempotent
    (models : list GeminiModel) (s : Settings) (r : ModelUpdateResult) :
  List.Forall (fun m => value m <> "") models ->
  getUpdatedModelSettings models s = Returned r ->
  stillPresent models (chatModelName (updatedSettings r))
  /\ stillPresent models (summaryModelName (updatedSettings r))
  /\ stillPresent models (completionsModelName (updatedSettings r))
  /\ getUpdatedModelSettings models (updatedSettings r) =
     Returned (mkUpdate (updatedSettings r) false []).
Proof.
  intros Hids Hrun. pose proof (returned_nonempty _ _ _ Hrun) as Hne.
  destruct (getUpdatedModelSettings_shape _ s Hne) as (info & Hr & _).
  cbv zeta in Hr. rewrite Hr in Hrun. injection Hrun as <-. simpl.
  assert (Hrole : forall role old,
             needsUpdate (valueSet models)
               (if needsUpdate (valueSet models) old
                then roleDefault models role else old) = false).
  { intros role old. destruct (needsUpdate (valueSet models) old) eqn:Ho;
      [now apply roleDefault_present | exact Ho]. }
  split; [apply needsUpdate_spec, Hrole|].
  split; [apply needsUpdate_spec, Hrole|].
  split; [apply needsUpdate_spec, Hrole|].
  apply getUpdatedModelSettings_settled; simpl; try apply Hrole.
  destruct (truthy (imageModelName s)
            && needsUpdate (valueSet models) (imageModelName s)) eqn:Hi;
    [reflexivity | exact Hi].
Qed.

(** The settings of the repository's test, updated twice. *)
Lemma getUpdatedModelSettings_idempotent_witness :
  getUpdatedModelSettings DEFAULT_GEMINI_MODELS
    (mkSettings "k" true (Some "compound") (Some "compound-mini")
                (Some "llama-3.3-70b-versatile") (Some ""))
  = Returned
      (mkUpdate
         (mkSettings "k" true (Some "compound") (Some "compound-mini")
                     (Some "llama-3.3-70b-versatile") (Some ""))
         false []).
Proof.
  assert (Hids : List.Forall (fun m => value m <> "") DEFAULT_GEMINI_MODELS).
  { repeat constructor; discriminate. }
  destruct (getUpdatedModelSettings_idempotent DEFAULT_GEMINI_MODELS
              (mkSettings "k" true (Some "old-chat") (Some "old-summary")
                          (Some "old-completions") (Some "old-image"))
              (mkUpdate
                 (mkSettings "k" true (Some "compound") (Some "compound-mini")
                             (Some "llama-3.3-70b-versatile") (Some ""))
                 true
                 ["Chat model: 'old-chat' -> 'compound' (model update)";
                  "Summary model: 'old-summary' -> 'compound-mini' (model update)";
                  "Completions model: 'old-completions' -> 'llama-3.3-70b-versatile' (model update)";
                  "Image model 'old-image' is not available on Groq and was cleared."])
              Hids) as (_ & _ & _ & H).
  - vm_compute. reflexivity.
  - exact H.
Defined.

(** X9. The change report of [getUpdatedModelSettings] is consistent:
    [changedSettingsInfo] has one line for each of the four settings that
    was rewritten (so at most four), [settingsChanged] is true exactly when
    there is a line, and when it is false the settings returned are the
    settings given. *)
Theorem getUpdatedModelSettings_report
    (models : list GeminiModel) (s : Settings) (r : ModelUpdateResult) :
  getUpdatedModelSettings models s = Returned r ->
  length (changedSettingsInfo r) =
    countTrue
      [needsUpdate (valueSet models) (chatModelName s);
       needsUpdate (valueSet models) (summaryModelName s);
       needsUpdate (valueSet models) (completionsModelName s);
       truthy (imageModelName s)
       && needsUpdate (valueSet models) (imageModelName s)]
  /\ (length (changedSettingsInfo r) <= 4)%nat
  /\ (settingsChanged r = true <-> changedSettingsInfo r <> [])
  /\ (settingsChanged r = false -> updatedSettings r = s).
Proof.
  intros Hrun. pose proof (returned_nonempty _ _ _ Hrun) as Hne.
  destruct (getUpdatedModelSettings_shape _ s Hne) as (info & Hr & Hlen).
  cbv zeta in Hr, Hlen. rewrite Hr in Hrun. injection Hrun as <-. simpl.
  destruct s as [key enabled c sm k img]. simpl in *.
  assert (Hnil : length info = 0%nat -> info = []).
  { destruct info; [reflexivity | discriminate]. }
  destruct (needsUpdate (valueSet models) c),
           (needsUpdate (valueSet models) sm),
           (needsUpdate (valueSet models) k),
           (truthy img && needsUpdate (valueSet models) img);
    simpl in *;
    (split; [exact Hlen|]); (split; [lia|]);
    (split; [split; [intros Hc Hinfo;
                     first [discriminate Hc
                           | rewrite Hinfo in Hlen; discriminate Hlen]
                    | first [reflexivity
                            | intros H; exfalso; apply H; auto]]
           | first [discriminate | intros _; reflexivity]]).
Qed.

(** The four stale settings of the repository's test give four lines. *)
Lemma getUpdatedModelSettings_report_witness :
  length
    ["Chat model: 'old-chat' -> 'compound' (model update)";
     "Summary model: 'old-summary' -> 'compound-mini' (model update)";
     "Completions model: 'old-completions' -> 'llama-3.3-70b-versatile' (model update)";
     "Image model 'old-image' is not available on Groq and was cleared."]
  = 4%nat
  /\ (true = true <->
      ["Chat model: 'old-chat' -> 'compound' (model update)";
       "Summary model: 'old-summary' -> 'compound-mini' (model update)";
       "Completions model: 'old-completions' -> 'llama-3.3-70b-versatile' (model update)";
       "Image model 'old-image' is not available on Groq and was cleared."]
      <> []).
Proof.
  destruct (getUpdatedModelSettings_report DEFAULT_GEMINI_MODELS
              (mkSettings "k" true (Some "old-chat") (Some "old-summary")
                          (Some "old-completions") (Some "old-image"))
              (mkUpdate
                 (mkSettings "k" true (Some "compound") (Some "compound-mini")
                             (Some "llama-3.3-70b-versatile") (Some ""))
                 true
                 ["Chat model: 'old-chat' -> 'compound' (model update)";
                  "Summary model: 'old-summary' -> 'compound-mini' (model update)";
                  "Completions model: 'old-completions' -> 'llama-3.3-70b-versatile' (model update)";
                  "Image model 'old-image' is not available on Groq and was cleared."]))
    as (_ & _ & Hiff & _).
  - vm_compute. reflexivity.
  - split; [reflexivity | exact Hiff].
Defined.

(** X10. [setGeminiModels] refills the registry's own array in place: with
    an argument that is another array the registry ends up with the
    argument's contents and every other array, the argument included,
    keeps its own; called with the registry array itself it empties the
    registry, because the argument is read after [length = 0]. *)
Theorem setGeminiModels_in_place
    (store : gmap nat (list GeminiModel)) (newModels : nat) :
  (newModels <> Registry.GEMINI_MODELS ->
   Registry.contents (Registry.setGeminiModels newModels store)
                     Registry.GEMINI_MODELS
   = Registry.contents store newModels)
  /\ (forall ref,
         ref <> Registry.GEMINI_MODELS ->
         Registry.contents (Registry.setGeminiModels newModels store) ref
         = Registry.contents store ref)
  /\ Registry.contents
       (Registry.setGeminiModels Registry.GEMINI_MODELS store)
       Registry.GEMINI_MODELS = []
  /\ (newModels <> Registry.GEMINI_MODELS ->
      Registry.setGeminiModels newModels
        (Registry.setGeminiModels newModels store)
      = Registry.setGeminiModels newModels store).
Proof.
  unfold Registry.setGeminiModels, Registry.contents.
  split; [|split; [|split]].
  - intros Hne. rewrite lookup_insert_eq, lookup_insert_eq.
    now rewrite lookup_insert_ne by congruence.
  - intros ref Hne. now rewrite !lookup_insert_ne by congruence.
  - now rewrite !lookup_insert_eq.
  - intros Hne.
    rewrite !lookup_insert_eq, !(lookup_insert_ne _ _ newModels) by congruence.
    simpl. now rewrite !insert_insert_eq.
Qed.

End ModelsMore.

(** ** More on the model manager *)

Module ManagerMore.

Import Js Models Manager ManagerOps ManagerFacts.

Lemma discoverModels_requests_le
    (env : Discovery.Env) (forceRefresh : bool) (sv : Discovery.State) :
  (Discovery.requests (snd (Discovery.discoverModels env forceRefresh sv))
   <= S (Discovery.requests sv))%nat.
Proof.
  unfold Discovery.discoverModels, bind, Discovery.getCache,
    Discovery.isCacheValid.
  assert (Hr : (Discovery.requests (snd (Discovery.refresh env sv))
                <= S (Discovery.requests sv))%nat).
  { rewrite DiscoveryFacts.refresh_requests. destruct (truthy _); lia. }
  destruct (Discovery.cache sv) as [c|]; simpl; [|exact Hr].
  destruct (negb forceRefresh && _); [simpl; lia | exact Hr].
Qed.

Lemma filterModelsForVersion_static_text :
  filterModelsForVersion staticModels false = staticModels.
Proof. reflexivity. Qed.

Lemma filterModelsForVersion_static_image :
  filterModelsForVersion staticModels true = [].
Proof. reflexivity. Qed.

Lemma filterModelsForVersion_text_Forall (models : list GeminiModel) :
  List.Forall (fun m => survivesDenylist m = true /\ imageCapable m = false)
              (filterModelsForVersion models false).
Proof.
  apply List.Forall_forall. intros m Hm.
  apply filter_In in Hm as [_ Hk].
  rewrite FilterFacts.keepModel_text in Hk.
  apply andb_true_iff in Hk as [Hs Hi]. now apply negb_true_iff in Hi.
Qed.

Lemma filterModelsForVersion_image_Forall (models : list GeminiModel) :
  List.Forall (fun m => survivesDenylist m = true /\ imageCapable m = true)
              (filterModelsForVersion models true).
Proof.
  apply List.Forall_forall. intros m Hm.
  apply filter_In in Hm as [_ Hk].
  rewrite FilterFacts.keepModel_image in Hk.
  now apply andb_true_iff in Hk.
Qed.

Lemma detectModelChanges_same (models : list GeminiModel) :
  detectModelChanges models models = false.
Proof. now apply detectModelChanges_reordering. Qed.

Lemma staticModels_nonempty : staticModels <> [].
Proof. discriminate. Qed.

Section WithMapper.

Variable mapToGeminiModels : list Discovery.GoogleModel -> list GeminiModel.
Variable sortModelsByPreference : list GeminiModel -> list GeminiModel.
Variable mergeWithExistingModels :
  list GeminiModel -> list GeminiModel -> list GeminiModel.

Local Abbreviation getAvailableModels :=
  (Manager.getAvailableModels mapToGeminiModels sortModelsByPreference
     mergeWithExistingModels).

Local Abbreviation updateModels :=
  (Manager.updateModels mapToGeminiModels sortModelsByPreference
     mergeWithExistingModels).

Local Abbreviation getImageGenerationModels :=
  (ManagerOps.getImageGenerationModels mapToGeminiModels
     sortModelsByPreference).

Local Abbreviation refreshModels :=
  (ManagerOps.refreshModels mapToGeminiModels sortModelsByPreference
     mergeWithExistingModels).

(** What [getAvailableModels] does, by the outcome of the discovery. *)
Lemma getAvailableModels_cases
    (env : Discovery.Env) (options : ModelUpdateOptions) (st : State) :
  (modelDiscoveryEnabled (Discovery.settings env) = false
   /\ getAvailableModels env options st = (Returned staticModels, st))
  \/ (modelDiscoveryEnabled (Discovery.settings env) = true
      /\ exists r sv,
          Discovery.discoverModels env (forceRefresh options) (service st)
            = (Returned r, sv)
          /\ getAvailableModels env options st =
             (Returned
                (if Discovery.success r
                    && (0 <? length (Discovery.models r))%nat
                 then
                   filterModelsForVersion
                     (if preserveUserCustomizations options
                      then mergeWithExistingModels
                             (sortModelsByPreference
                                (mapToGeminiModels (Discovery.models r)))
                             staticModels
                      else sortModelsByPreference
                             (mapToGeminiModels (Discovery.models r)))
                     false
                 else staticModels),
              mkState sv (GEMINI_MODELS st))).
Proof.
  unfold Manager.getAvailableModels.
  destruct (modelDiscoveryEnabled (Discovery.settings env)) eqn:Hen; simpl.
  - right. split; [reflexivity|].
    destruct (DiscoveryFacts.discoverModels_returns
                env (forceRefresh options) (service st)) as (r & sv & Hd).
    exists r, sv. split; [exact Hd|].
    unfold bind, tryCatch, onService, ret. rewrite Hd. simpl.
    destruct (Discovery.success r && _); reflexivity.
  - left. split; reflexivity.
Qed.

(** X11. [getAvailableModels] always returns and never writes the
    registry; every model it returns passes the denylist and is not an
    image model; it issues at most one request; and it answers with the
    whole static baseline, all seven models, when discovery is disabled
    (then without touching the discovery service at all) and when the
    discovery it ran was unsuccessful or found no model. *)
Theorem getAvailableModels_fallback
    (env : Discovery.Env) (options : ModelUpdateOptions) (st : State) :
  exists currentModels st1,
    getAvailableModels env options st = (Returned currentModels, st1)
    /\ GEMINI_MODELS st1 = GEMINI_MODELS st
    /\ List.Forall
         (fun m => survivesDenylist m = true /\ imageCapable m = false)
         currentModels
    /\ (Discovery.requests (service st1)
        <= S (Discovery.requests (service st)))%nat
    /\ (modelDiscoveryEnabled (Discovery.settings env) = false ->
        currentModels = DEFAULT_GEMINI_MODELS /\ st1 = st)
    /\ (forall r sv,
          Discovery.discoverModels env (forceRefresh options) (service st)
            = (Returned r, sv) ->
          Discovery.success r = false \/ Discovery.models r = [] ->
          currentModels = DEFAULT_GEMINI_MODELS).
Proof.
  destruct (getAvailableModels_cases env options st)
    as [[Hen Hrun]|(Hen & r & sv & Hd & Hrun)].
  - exists staticModels, st. split; [exact Hrun|]. split; [reflexivity|].
    split; [rewrite <- filterModelsForVersion_static_text;
            apply filterModelsForVersion_text_Forall|].
    split; [lia|]. split; [auto|]. intros; reflexivity.
  - eexists _, _. split; [exact Hrun|]. split; [reflexivity|].
    split.
    { destruct (Discovery.success r && _).
      - apply filterModelsForVersion_text_Forall.
      - rewrite <- filterModelsForVersion_static_text.
        apply filterModelsForVersion_text_Forall. }
    split.
    { simpl. pose proof (discoverModels_requests_le env (forceRefresh options)
                           (service st)) as Hle.
      now rewrite Hd in Hle. }
    split; [congruence|].
    intros r' sv' Hd' Hbad. rewrite Hd in Hd'. injection Hd' as <- <-.
    destruct Hbad as [-> | ->]; [reflexivity|].
    now rewrite andb_false_r.
Qed.

(** X12. [getImageGenerationModels] always returns and never writes the
    registry; it runs at most one unforced discovery; every model it
    returns passes the denylist and is an image model.  The static
    baseline holds no image model, so the static fallback is the empty
    list: the result is empty when discovery is disabled, when the
    discovery was unsuccessful or found nothing, and when filtering left no
    dynamic candidate; otherwise it is the non-empty filtered list of the
    discovered models with the missing static models appended. *)
Theorem getImageGenerationModels_fallback (env : Discovery.Env) (st : State) :
  exists found st1,
    getImageGenerationModels env st = (Returned found, st1)
    /\ GEMINI_MODELS st1 = GEMINI_MODELS st
    /\ List.Forall
         (fun m => survivesDenylist m = true /\ imageCapable m = true) found
    /\ (Discovery.requests (service st1)
        <= S (Discovery.requests (service st)))%nat
    /\ (modelDiscoveryEnabled (Discovery.settings env) = false ->
        found = [] /\ st1 = st)
    /\ (found = []
        \/ exists r sv,
            Discovery.discoverModels env false (service st) = (Returned r, sv)
            /\ Discovery.success r = true
            /\ found =
               filterModelsForVersion
                 (sortModelsByPreference
                    (mapToGeminiModels (Discovery.models r)
                     ++ List.filter
                          (fun m =>
                             negb (bool_decide
                                     (value m ∈
                                      valueSet
                                        (mapToGeminiModels
                                           (Discovery.models r)))))
                          staticModels))
                 true).
Proof.
  unfold ManagerOps.getImageGenerationModels.
  rewrite filterModelsForVersion_static_image.
  destruct (modelDiscoveryEnabled (Discovery.settings env)) eqn:Hen; simpl.
  - destruct (DiscoveryFacts.discoverModels_returns env false (service st))
      as (r & sv & Hd).
    pose proof (discoverModels_requests_le env false (service st)) as Hle.
    rewrite Hd in Hle. simpl in Hle.
    unfold bind, tryCatch, onService, ret. rewrite Hd. simpl.
    destruct (Discovery.success r) eqn:Hs; simpl;
      [destruct (0 <? length (Discovery.models r))%nat; simpl|].
    + match goal with
      | |- context [(length ?l =? 0)%nat] =>
          destruct (length l =? 0)%nat eqn:Hlen
      end; simpl.
      * eexists _, _. split; [reflexivity|]. simpl.
        split; [reflexivity|]. split; [constructor|]. split; [exact Hle|].
        split; [discriminate | left; reflexivity].
      * eexists _, _. split; [reflexivity|]. simpl.
        split; [reflexivity|].
        split; [apply filterModelsForVersion_image_Forall|].
        split; [exact Hle|]. split; [discriminate|].
        right. exists r, sv. auto.
    + eexists _, _. split; [reflexivity|]. simpl.
      split; [reflexivity|]. split; [constructor|]. split; [exact Hle|].
      split; [discriminate | left; reflexivity].
    + eexists _, _. split; [reflexivity|]. simpl.
      split; [reflexivity|]. split; [constructor|]. split; [exact Hle|].
      split; [discriminate | left; reflexivity].
  - exists [], st. split; [reflexivity|]. split; [reflexivity|].
    split; [constructor|]. split; [lia|]. split; [auto | left; reflexivity].
Qed.

(** [updateModels] after its first step. *)
Lemma updateModels_outcome
    (env : Discovery.Env) (options : ModelUpdateOptions) (st : State)
    (currentModels : list GeminiModel) (st1 : State) :
  getAvailableModels env options st = (Returned currentModels, st1) ->
  GEMINI_MODELS st1 = GEMINI_MODELS st ->
  updateModels env options st =
  if detectModelChanges currentModels (GEMINI_MODELS st)
  then (getUpdatedModelSettings currentModels (Discovery.settings env),
        mkState (service st1) currentModels)
  else (Returned (mkUpdate (Discovery.settings env) false []), st1).
Proof.
  intros Hget Hreg. unfold Manager.updateModels, bind. rewrite Hget.
  unfold getCurrentGeminiModels. rewrite Hreg.
  destruct (detectModelChanges currentModels (GEMINI_MODELS st));
    reflexivity.
Qed.

(** The requests of a forced [getAvailableModels]. *)
Lemma getAvailableModels_forced_requests
    (env : Discovery.Env) (options : ModelUpdateOptions) (st : State) :
  forceRefresh options = true ->
  Discovery.requests (service (snd (getAvailableModels env options st))) =
  (Discovery.requests (service st) +
   (if modelDiscoveryEnabled (Discovery.settings env)
       && truthy (Some (apiKey (Discovery.settings env)))
    then 1 else 0))%nat.
Proof.
  intros Hforce.
  destruct (getAvailableModels_cases env options st)
    as [[Hen Hrun]|(Hen & r & sv & Hd & Hrun)];
    rewrite Hrun, Hen; simpl; [lia|].
  rewrite Hforce, DiscoveryFacts.discoverModels_forced in Hd.
  pose proof (DiscoveryFacts.refresh_requests env (service st)) as Hq.
  rewrite Hd in Hq. exact Hq.
Qed.

(** X13. [refreshModels] always returns a report.  It reports success
    exactly when the update did not throw; then it has run two forced
    discoveries, so with discovery enabled and an API key configured it has
    issued exactly two requests.  The only failure is the empty-registry
    error, raised when the fresh list is empty and differs from the
    registry: the report then carries that message, no models and no
    changes, one forced discovery has run, and the registry has been left
    empty. *)
Theorem refreshModels_report (env : Discovery.Env) (st : State) :
  let attempts :=
    if modelDiscoveryEnabled (Discovery.settings env)
       && truthy (Some (apiKey (Discovery.settings env)))
    then 1%nat else 0%nat in
  exists report st',
    refreshModels env st = (Returned report, st')
    /\ (report_success report = true ->
        report_error report = None
        /\ (exists result sx,
               updateModels env (mkOptions true true) st
                 = (Returned result, sx)
               /\ report_changes report = settingsChanged result)
        /\ Discovery.requests (service st') =
           (Discovery.requests (service st) + 2 * attempts)%nat)
    /\ (report_success report = false ->
        report =
          mkReport false 0 false (Some (errorMessage emptyRegistryError))
        /\ GEMINI_MODELS st' = []
        /\ Discovery.requests (service st') =
           (Discovery.requests (service st) + attempts)%nat).
Proof.
  cbv zeta.
  destruct (getAvailableModels_returns mapToGeminiModels
              sortModelsByPreference mergeWithExistingModels env
              (mkOptions true true) st) as (cur & st1 & Hget & Hreg).
  pose proof (getAvailableModels_forced_requests env (mkOptions true true)
                st eq_refl) as Hq1.
  rewrite Hget in Hq1. simpl in Hq1.
  pose proof (updateModels_outcome env _ st cur st1 Hget Hreg) as Hupd.
  unfold ManagerOps.refreshModels, tryCatch, bind.
  assert (Hsecond : forall result sx,
             service sx = service st1 ->
             updateModels env (mkOptions true true) st = (Returned result, sx) ->
             exists report st',
               (let (r, st'0) :=
                  let (r0, st'0) :=
                    updateModels env (mkOptions true true) st in
                  match r0 with
                  | Returned a =>
                      (let (r1, st'1) :=
                         getAvailableModels env (mkOptions true false) st'0 in
                       match r1 with
                       | Returned a0 =>
                           ret (mkReport true (length a0)
                                         (settingsChanged a) None) st'1
                       | Threw e => (Threw e, st'1)
                       end)
                  | Threw e => (Threw e, st'0)
                  end in
                match r with
                | Returned a => (Returned a, st'0)
                | Threw e =>
                    ret (mkReport false 0 false (Some (errorMessage e))) st'0
                end) = (Returned report, st')
               /\ report_success report = true
               /\ report_error report = None
               /\ report_changes report = settingsChanged result
               /\ Discovery.requests (service st') =
                  (Discovery.requests (service st) +
                   2 * (if modelDiscoveryEnabled (Discovery.settings env)
                           && truthy (Some (apiKey (Discovery.settings env)))
                        then 1 else 0))%nat).
  { intros result sx Hsv Hrun. rewrite Hrun.
    destruct (getAvailableModels_returns mapToGeminiModels
                sortModelsByPreference mergeWithExistingModels env
                (mkOptions true false) sx) as (cur2 & st2 & Hget2 & _).
    pose proof (getAvailableModels_forced_requests env (mkOptions true false)
                  sx eq_refl) as Hq2.
    rewrite Hget2 in Hq2. simpl in Hq2. rewrite Hget2. unfold ret.
    eexists _, st2. split; [reflexivity|]. simpl.
    split; [reflexivity|]. split; [reflexivity|]. split; [reflexivity|].
    rewrite Hq2, Hsv, Hq1. lia. }
  destruct (detectModelChanges cur (GEMINI_MODELS st)) eqn:Hdet;
    rewrite ?Hdet in Hupd.
  - destruct cur as [|m rest].
    + rewrite ModelsMore.getUpdatedModelSettings_empty in Hupd.
      rewrite Hupd. unfold ret.
      eexists _, _. split; [reflexivity|]. simpl.
      split; [discriminate|]. intros _. auto.
    + assert (Hne : m :: rest <> []) by discriminate.
      destruct (ModelsMore.getUpdatedModelSettings_shape
                  (m :: rest) (Discovery.settings env) Hne)
        as (info & Hshape & _).
      cbv zeta in Hshape. rewrite Hshape in Hupd.
      destruct (Hsecond _ (mkState (service st1) (m :: rest)) eq_refl Hupd)
        as (report & st' & Hrun & Hs & He & Hc & Hq).
      exists report, st'. split; [exact Hrun|]. split.
      * intros _. split; [exact He|]. split; [|exact Hq].
        eexists _, _. split; [exact Hupd | exact Hc].
      * rewrite Hs. discriminate.
  - destruct (Hsecond _ st1 eq_refl Hupd)
      as (report & st' & Hrun & Hs & He & Hc & Hq).
    exists report, st'. split; [exact Hrun|]. split.
    + intros _. split; [exact He|]. split; [|exact Hq].
      eexists _, _. split; [exact Hupd | exact Hc].
    + rewrite Hs. discriminate.
Qed.

(** X14. With discovery disabled [updateModels] settles after one call: it
    returns without touching the discovery service, and from the state it
    leaves every further call, whatever its options and the other
    settings, detects no change and returns the settings it was given with
    [settingsChanged = false]. *)
Theorem updateModels_settles_without_discovery
    (env : Discovery.Env) (options : ModelUpdateOptions) (st : State) :
  modelDiscoveryEnabled (Discovery.settings env) = false ->
  exists result st1,
    updateModels env options st = (Returned result, st1)
    /\ service st1 = service st
    /\ length (GEMINI_MODELS st1) = length DEFAULT_GEMINI_MODELS
    /\ valueSet (GEMINI_MODELS st1) = valueSet DEFAULT_GEMINI_MODELS
    /\ (forall env' options',
          modelDiscoveryEnabled (Discovery.settings env') = false ->
          updateModels env' options' st1 =
          (Returned (mkUpdate (Discovery.settings env') false []), st1)).
Proof.
  intros Hoff.
  assert (Hget : forall env' options' st',
             modelDiscoveryEnabled (Discovery.settings env') = false ->
             getAvailableModels env' options' st' = (Returned staticModels, st')).
  { intros env' options' st' Hoff'.
    destruct (getAvailableModels_cases env' options' st')
      as [[_ Hrun]|(Hen & _)]; [exact Hrun | congruence]. }
  pose proof (updateModels_outcome env options st _ _
                (Hget env options st Hoff) eq_refl) as Hupd.
  destruct (detectModelChanges staticModels (GEMINI_MODELS st)) eqn:Hdet;
    rewrite ?Hdet in Hupd.
  - destruct (ModelsMore.getUpdatedModelSettings_shape
                staticModels (Discovery.settings env) staticModels_nonempty)
      as (info & Hshape & _).
    cbv zeta in Hshape. rewrite Hshape in Hupd.
    eexists _, _. split; [exact Hupd|]. simpl.
    split; [reflexivity|]. split; [reflexivity|]. split; [reflexivity|].
    intros env' options' Hoff'.
    rewrite (updateModels_outcome env' options' _ _ _
               (Hget env' options' _ Hoff') eq_refl).
    simpl. now rewrite detectModelChanges_same.
  - eexists _, st. split; [exact Hupd|]. split; [reflexivity|].
    assert (Hsame : ~ (length staticModels <> length (GEMINI_MODELS st)
                       \/ valueSet staticModels <> valueSet (GEMINI_MODELS st))).
    { intros H. apply detectModelChanges_spec in H. congruence. }
    split; [destruct (Nat.eq_dec (length staticModels)
                                 (length (GEMINI_MODELS st))); [auto | tauto]|].
    split.
    { destruct (decide (valueSet staticModels = valueSet (GEMINI_MODELS st)));
        [auto | tauto]. }
    intros env' options' Hoff'.
    rewrite (updateModels_outcome env' options' _ _ _
               (Hget env' options' _ Hoff') eq_refl).
    now rewrite Hdet.
Qed.

End WithMapper.

(** An empty registry with discovery switched off. *)
Lemma updateModels_settles_without_discovery_witness :
  exists result st1,
    Manager.updateModels (fun _ => []) (fun l => l) (fun d _ => d)
      (Discovery.mkEnv
         (mkSettings "" false (Some "compound") None None None)
         Scenario.catalog 5 None None)
      (mkOptions false false) (mkState Scenario.started [])
    = (Returned result, st1)
    /\ service st1 = Scenario.started.
Proof.
  destruct (updateModels_settles_without_discovery
              (fun _ => []) (fun l => l) (fun d _ => d)
              (Discovery.mkEnv
                 (mkSettings "" false (Some "compound") None None None)
                 Scenario.catalog 5 None None)
              (mkOptions false false) (mkState Scenario.started []))
    as (result & st1 & Hrun & Hsv & _).
  - reflexivity.
  - exists result, st1. split; [exact Hrun | exact Hsv].
Defined.

(** X15. [getDiscoveryStatus] and [getDiscoveredModels] always return and
    read the same unforced discovery: started from the same state they
    leave the same state; with discovery disabled they answer
    [enabled = false, working = false] and the empty list without touching
    the service; otherwise [working] is the [success] flag of the
    discovery result, and the models listed are its models when it is
    successful and none when it is not. *)
Theorem discovery_queries_agree (env : Discovery.Env) (st : State) :
  exists status found st1,
    getDiscoveryStatus env st = (Returned status, st1)
    /\ getDiscoveredModels env st = (Returned found, st1)
    /\ status_enabled status = modelDiscoveryEnabled (Discovery.settings env)
    /\ (status_working status = false -> found = [])
    /\ (modelDiscoveryEnabled (Discovery.settings env) = false ->
        status = mkStatus false false None None /\ st1 = st)
    /\ (modelDiscoveryEnabled (Discovery.settings env) = true ->
        exists r sv,
          Discovery.discoverModels env false (service st) = (Returned r, sv)
          /\ st1 = mkState sv (GEMINI_MODELS st)
          /\ status =
             mkStatus true (Discovery.success r)
                      (Some (Discovery.lastUpdated r)) (Discovery.error r)
          /\ found = (if Discovery.success r
                      then Discovery.models r else [])).
Proof.
  unfold getDiscoveryStatus, getDiscoveredModels.
  destruct (modelDiscoveryEnabled (Discovery.settings env)) eqn:Hen; simpl.
  - destruct (DiscoveryFacts.discoverModels_returns env false (service st))
      as (r & sv & Hd).
    unfold bind, tryCatch, onService, ret. rewrite Hd. simpl.
    eexists _, _, _. split; [reflexivity|]. split; [reflexivity|]. simpl.
    split; [reflexivity|]. split; [intros ->; reflexivity|].
    split; [discriminate|]. intros _. exists r, sv. auto.
  - unfold ret. eexists _, _, _. split; [reflexivity|].
    split; [reflexivity|]. simpl. split; [reflexivity|].
    split; [reflexivity|]. split; [auto | discriminate].
Qed.

End ManagerMore.

(** ** Framing of the streamed text *)

Module FramingFacts.

Import Js Client Framing ClientFacts.

#[local] Arguments String.append : simpl nomatch.

Lemma rev_app_append (s1 s2 u : string) :
  String.rev_app s1 s2 +:+ u = String.rev_app s1 (s2 +:+ u).
Proof.
  revert s2. induction s1 as [|a s1 IH]; intros s2; simpl; [reflexivity|].
  now rewrite IH.
Qed.

Lemma rev_cons_append (c : ascii) (cur u : string) :
  String.rev (String c cur) +:+ u = String.rev cur +:+ String c u.
Proof. unfold String.rev. simpl. now rewrite !rev_app_append. Qed.

Lemma rev_empty : String.rev "" = "".
Proof. reflexivity. Qed.

Lemma prefix_append_self (sep v : string) : String.prefix sep (sep +:+ v) = true.
Proof.
  induction sep as [|a sep IH]; simpl; [now destruct v|].
  destruct (Ascii.ascii_dec a a); [exact IH | congruence].
Qed.

Lemma prefix_split (sep b : string) :
  String.prefix sep b = true -> exists v, b = sep +:+ v.
Proof.
  revert b. induction sep as [|a sep IH]; intros b H; simpl.
  - now exists b.
  - destruct b as [|c b]; simpl in H; [discriminate|].
    destruct (Ascii.ascii_dec a c) as [->|]; [|discriminate].
    destruct (IH b H) as [v ->]. now exists v.
Qed.

(** Text after the first [length sep] characters cannot change whether
    [sep] is a prefix. *)
Lemma prefix_append_long (sep x t : string) :
  (String.length sep <= String.length x)%nat ->
  String.prefix sep (x +:+ t) = String.prefix sep x.
Proof.
  revert x. induction sep as [|a sep IH]; intros x Hlen; simpl.
  - now destruct x, t.
  - destruct x as [|c x]; simpl in *; [lia|].
    destruct (Ascii.ascii_dec a c); [apply IH; lia | reflexivity].
Qed.

Lemma prefix_append_weak (sep x t : string) :
  String.prefix sep x = true -> String.prefix sep (x +:+ t) = true.
Proof.
  intros H. destruct (prefix_split sep x H) as [v ->].
  rewrite append_assoc. apply prefix_append_self.
Qed.

Lemma length_append (s1 s2 : string) :
  String.length (s1 +:+ s2) = (String.length s1 + String.length s2)%nat.
Proof. induction s1 as [|a s1 IH]; simpl; [reflexivity | now rewrite IH]. Qed.

Lemma splitFrom_cons (sep cur : string) (c : ascii) (r : string) :
  splitFrom sep 0 cur (String c r) =
  if String.prefix sep (String c r)
  then String.rev cur :: splitFrom sep (String.length sep - 1) "" r
  else splitFrom sep 0 (String c cur) r.
Proof. reflexivity. Qed.

Lemma splitFrom_skip_cons (sep cur : string) (k : nat) (c : ascii) (r : string) :
  splitFrom sep (S k) cur (String c r) = splitFrom sep k cur r.
Proof. reflexivity. Qed.

Lemma splitFrom_nonempty (sep : string) (skip : nat) (cur s : string) :
  splitFrom sep skip cur s <> [].
Proof.
  revert skip cur. induction s as [|c s IH]; intros skip cur.
  - discriminate.
  - destruct skip; [|rewrite splitFrom_skip_cons; apply IH].
    rewrite splitFrom_cons.
    destruct (String.prefix sep (String c s)); [discriminate | apply IH].
Qed.

(** Without an occurrence of the separator the text is one piece. *)
Lemma splitFrom_quiet (sep cur u : string) :
  quiet sep u "" -> splitFrom sep 0 cur u = [String.rev cur +:+ u].
Proof.
  revert cur. induction u as [|c u IH]; intros cur Hq.
  - simpl. now rewrite append_nil_r.
  - destruct Hq as [Hp Hq]. rewrite append_nil_r in Hp.
    rewrite splitFrom_cons, Hp.
    rewrite IH by assumption. now rewrite rev_cons_append.
Qed.

(** The characters of a matched separator are dropped. *)
Lemma splitFrom_skip (sep w cur v : string) :
  splitFrom sep (String.length w) cur (w +:+ v) = splitFrom sep 0 cur v.
Proof.
  induction w as [|c w IH]; [reflexivity|].
  change (String c w +:+ v) with (String c (w +:+ v)).
  change (String.length (String c w)) with (S (String.length w)).
  rewrite splitFrom_skip_cons. exact IH.
Qed.

(** Up to the first occurrence of the separator. *)
Lemma splitFrom_first (sep p v cur : string) :
  sep <> "" -> quiet sep p (sep +:+ v) ->
  splitFrom sep 0 cur (p +:+ sep +:+ v) =
  (String.rev cur +:+ p) :: splitFrom sep 0 "" v.
Proof.
  intros Hsep. revert cur. induction p as [|c p IH]; intros cur Hq.
  - rewrite append_nil_r.
    change ("" +:+ sep +:+ v) with (sep +:+ v).
    pose proof (prefix_append_self sep v) as Hp.
    destruct sep as [|a sep]; [congruence|].
    change (String a sep +:+ v) with (String a (sep +:+ v)) in *.
    rewrite splitFrom_cons, Hp. f_equal.
    change (String.length (String a sep) - 1)%nat
      with (String.length sep - 0)%nat.
    rewrite Nat.sub_0_r. apply splitFrom_skip.
  - destruct Hq as [Hp Hq].
    change (String c p +:+ sep +:+ v) with (String c (p +:+ sep +:+ v)) in *.
    rewrite splitFrom_cons, Hp.
    rewrite IH by assumption. now rewrite rev_cons_append.
Qed.

(** A text has no occurrence of the separator, or a first one. *)
Lemma first_occurrence (sep b : string) :
  quiet sep b ""
  \/ exists p v, b = p +:+ sep +:+ v /\ quiet sep p (sep +:+ v).
Proof.
  induction b as [|c b IH]; [left; exact I|].
  destruct (String.prefix sep (String c b)) eqn:Hp.
  - right. destruct (prefix_split _ _ Hp) as [v Hv].
    exists "", v. simpl. auto.
  - destruct IH as [Hq|(p & v & -> & Hq)].
    + left. simpl. rewrite append_nil_r. auto.
    + right. exists (String c p), v. simpl. auto.
Qed.

Lemma quiet_extend (sep p v t : string) :
  quiet sep p (sep +:+ v) -> quiet sep p (sep +:+ v +:+ t).
Proof.
  induction p as [|c p IH]; cbn [quiet]; [auto|].
  intros [Hp Hq]. split; [|auto].
  replace (String c p +:+ sep +:+ v +:+ t)
    with ((String c p +:+ sep +:+ v) +:+ t)
    by now rewrite !append_assoc.
  replace (String c (p +:+ sep +:+ v +:+ t))
    with ((String c (p +:+ sep +:+ v)) +:+ t).
  - rewrite prefix_append_long; [exact Hp|].
    simpl. rewrite !length_append. lia.
  - simpl. f_equal. now rewrite !append_assoc.
Qed.

Lemma split_quiet (sep u : string) :
  quiet sep u "" -> split u sep = [u].
Proof. intros H. unfold split. now rewrite splitFrom_quiet. Qed.

Lemma split_first (sep p v : string) :
  sep <> "" -> quiet sep p (sep +:+ v) ->
  split (p +:+ sep +:+ v) sep = p :: split v sep.
Proof. intros Hs H. unfold split. now rewrite splitFrom_first. Qed.

Lemma split_nonempty (s sep : string) : split s sep <> [].
Proof. apply splitFrom_nonempty. Qed.

Lemma removelast_cons {A} (x : A) (l : list A) :
  l <> [] -> removelast (x :: l) = x :: removelast l.
Proof. destruct l; [congruence | reflexivity]. Qed.

Lemma last_cons {A} (x d : A) (l : list A) :
  l <> [] -> List.last (x :: l) d = List.last l d.
Proof. destruct l; [congruence | reflexivity]. Qed.

(** Splitting a text that arrives in two parts: the pieces completed by
    the first part, then the split of what was left over followed by the
    second part. *)
Lemma split_append (sep b t : string) :
  sep <> "" ->
  split (b +:+ t) sep =
  removelast (split b sep) ++ split (List.last (split b sep) "" +:+ t) sep.
Proof.
  intros Hsep.
  remember (String.length b) as n eqn:Hn.
  revert b Hn. induction n as [n IH] using lt_wf_ind. intros b Hn.
  destruct (first_occurrence sep b) as [Hq|(p & v & -> & Hq)].
  - now rewrite (split_quiet sep b Hq).
  - rewrite (split_first sep p v Hsep Hq).
    rewrite !append_assoc.
    rewrite (split_first sep p (v +:+ t) Hsep (quiet_extend _ _ _ _ Hq)).
    rewrite removelast_cons, last_cons by apply split_nonempty.
    simpl. f_equal. apply (IH (String.length v)); [|reflexivity].
    subst n. rewrite !length_append.
    destruct sep; [congruence | simpl; lia].
Qed.

(** Joining the pieces with the separator gives the text back. *)
Lemma concat_split (sep s : string) :
  sep <> "" -> String.concat sep (split s sep) = s.
Proof.
  intros Hsep.
  remember (String.length s) as n eqn:Hn.
  revert s Hn. induction n as [n IH] using lt_wf_ind. intros s Hn.
  destruct (first_occurrence sep s) as [Hq|(p & v & -> & Hq)].
  - now rewrite (split_quiet sep s Hq).
  - rewrite (split_first sep p v Hsep Hq).
    pose proof (split_nonempty v sep) as Hne.
    simpl. destruct (split v sep) as [|x xs] eqn:Hv; [congruence|].
    rewrite <- Hv. f_equal. f_equal.
    apply (IH (String.length v)); [|reflexivity].
    subst n. rewrite !length_append.
    destruct sep; [congruence | simpl; lia].
Qed.

Lemma quiet_includes (sep p rest : string) :
  sep <> "" -> quiet sep p rest -> includes p sep = false.
Proof.
  intros Hsep. induction p as [|c p IH]; cbn [quiet includes].
  - intros _. destruct sep; [congruence | reflexivity].
  - intros [Hp Hq]. rewrite (IH Hq), orb_false_r.
    destruct (String.prefix sep (String c p)) eqn:H; [|reflexivity].
    apply (prefix_append_weak _ _ rest) in H. congruence.
Qed.

(** No piece contains the separator. *)
Lemma split_pieces_quiet (sep s : string) :
  sep <> "" ->
  List.Forall (fun piece => includes piece sep = false) (split s sep).
Proof.
  intros Hsep.
  remember (String.length s) as n eqn:Hn.
  revert s Hn. induction n as [n IH] using lt_wf_ind. intros s Hn.
  destruct (first_occurrence sep s) as [Hq|(p & v & -> & Hq)].
  - rewrite (split_quiet sep s Hq). constructor; [|constructor].
    now apply (quiet_includes sep s "").
  - rewrite (split_first sep p v Hsep Hq). constructor.
    + now apply (quiet_includes sep p (sep +:+ v)).
    + apply (IH (String.length v)); [|reflexivity].
      subst n. rewrite !length_append.
      destruct sep; [congruence | simpl; lia].
Qed.

Lemma last_app_nonempty {A} (l1 l2 : list A) (d : A) :
  l2 <> [] -> List.last (l1 ++ l2) d = List.last l2 d.
Proof.
  intros Hne. induction l1 as [|x l1 IH]; [reflexivity|].
  change ((x :: l1) ++ l2) with (x :: (l1 ++ l2)).
  rewrite last_cons; [exact IH|]. destruct l1, l2; simpl; congruence.
Qed.

Lemma forEach_app {A B} (body : A -> B -> Completion A) (l1 l2 : list B) (a : A) :
  forEach body (l1 ++ l2) a =
  match forEach body l1 a with
  | Returned a' => forEach body l2 a'
  | Threw e => Threw e
  end.
Proof.
  revert a. induction l1 as [|b l1 IH]; intros a; simpl; [reflexivity|].
  destruct (body a b); [apply IH | reflexivity].
Qed.

(** A loop whose body commutes with a change of the state commutes
    with it. *)
Lemma forEach_commute {A B} (body : A -> B -> Completion A) (f : A -> A)
    (l : list B) :
  (forall a b,
      body (f a) b =
      match body a b with
      | Returned a' => Returned (f a')
      | Threw e => Threw e
      end) ->
  forall a,
    forEach body l (f a) =
    match forEach body l a with
    | Returned a' => Returned (f a')
    | Threw e => Threw e
    end.
Proof.
  intros Hbody. induction l as [|b l IH]; intros a; simpl; [reflexivity|].
  rewrite Hbody. destruct (body a b); [apply IH | reflexivity].
Qed.

(** A loop keeps what its body keeps. *)
Lemma forEach_invariant {A B} (body : A -> B -> Completion A) (P : A -> Prop)
    (l : list B) :
  (forall a b a', P a -> body a b = Returned a' -> P a') ->
  forall a a', P a -> forEach body l a = Returned a' -> P a'.
Proof.
  intros Hbody. induction l as [|b l IH]; simpl; intros a a' Ha H.
  - now injection H as <-.
  - destruct (body a b) as [a1|e] eqn:Hb; [|discriminate].
    eapply IH; [eapply Hbody; eassumption | exact H].
Qed.

Section WithJSON.

Variable JSON_parse : string -> option JSON.
Variable JSON_parse_chunk : string -> ChunkParse.
Variable onChunk : list string -> string -> option Thrown.

Local Abbreviation processLine :=
  (Client.processLine JSON_parse_chunk onChunk).
Local Abbreviation processEvent :=
  (Client.processEvent JSON_parse_chunk onChunk).
Local Abbreviation processRead :=
  (Client.processRead JSON_parse_chunk onChunk).
Local Abbreviation readLoop :=
  (Client.readLoop JSON_parse_chunk onChunk).
Local Abbreviation generateStreamingResponse :=
  (Client.generateStreamingResponse JSON_parse JSON_parse_chunk onChunk).

(** The handling of a line neither reads nor writes [buffer]. *)
Lemma processLine_setBuffer (b : string) (s : StreamState) (line : string) :
  processLine (setBuffer b s) line =
  match processLine s line with
  | Returned s' => Returned (setBuffer b s')
  | Threw e => Threw e
  end.
Proof.
  unfold Client.processLine.
  destruct (negb (startsWith line "data: ")); [reflexivity|].
  destruct (negb _ || _); [reflexivity|].
  destruct (JSON_parse_chunk _) as [e|e|chunk]; [reflexivity|reflexivity|].
  destruct (choices chunk) as [[|first rest]|]; try reflexivity.
  destruct (delta first) as [d|]; [|reflexivity].
  destruct (orEmpty (content d)) as [|a t]; cbn [truthy st_emitted setBuffer];
    [|destruct (onChunk (st_emitted s) (String a t)) as [e|];
      [reflexivity|]];
    destruct (tool_calls d) as [[|tc tcs]|]; reflexivity.
Qed.

Lemma processEvent_setBuffer (b : string) (s : StreamState) (event : string) :
  processEvent (setBuffer b s) event =
  match processEvent s event with
  | Returned s' => Returned (setBuffer b s')
  | Threw e => Threw e
  end.
Proof.
  unfold Client.processEvent. apply forEach_commute.
  intros a line. apply processLine_setBuffer.
Qed.

Lemma processEvents_setBuffer (b : string) (events : list string)
    (s : StreamState) :
  forEach processEvent events (setBuffer b s) =
  match forEach processEvent events s with
  | Returned s' => Returned (setBuffer b s')
  | Threw e => Threw e
  end.
Proof.
  apply forEach_commute. intros a event. apply processEvent_setBuffer.
Qed.

Lemma setBuffer_own (s : StreamState) : setBuffer (st_buffer s) s = s.
Proof. now destruct s. Qed.

Lemma processEvents_buffer (events : list string) (s s' : StreamState) :
  forEach processEvent events s = Returned s' -> st_buffer s' = st_buffer s.
Proof.
  intros H. pose proof (processEvents_setBuffer (st_buffer s) events s) as Hc.
  rewrite setBuffer_own, H in Hc. injection Hc as Hc.
  rewrite Hc. reflexivity.
Qed.

Lemma processRead_unfold (s : StreamState) (text : string) :
  processRead s text =
  forEach processEvent
    (removelast (split (st_buffer s +:+ text) eventSeparator))
    (setBuffer (List.last (split (st_buffer s +:+ text) eventSeparator) "") s).
Proof. reflexivity. Qed.

Lemma eventSeparator_nonempty : eventSeparator <> "".
Proof. discriminate. Qed.

Lemma processRead_append (s : StreamState) (t1 t2 : string) :
  processRead s (t1 +:+ t2) =
  match processRead s t1 with
  | Returned s1 => processRead s1 t2
  | Threw e => Threw e
  end.
Proof.
  rewrite !processRead_unfold, <- append_assoc.
  rewrite (split_append eventSeparator (st_buffer s +:+ t1) t2
             eventSeparator_nonempty).
  set (E1 := split (st_buffer s +:+ t1) eventSeparator).
  set (E2 := split (List.last E1 "" +:+ t2) eventSeparator).
  assert (HE2 : E2 <> []) by apply split_nonempty.
  rewrite removelast_app, last_app_nonempty by exact HE2.
  rewrite forEach_app.
  change (setBuffer (List.last E2 "") s)
    with (setBuffer (List.last E2 "") (setBuffer (List.last E1 "") s)).
  rewrite processEvents_setBuffer.
  destruct (forEach processEvent (removelast E1)
              (setBuffer (List.last E1 "") s)) as [s1|e] eqn:H1;
    [|reflexivity].
  rewrite processRead_unfold.
  apply processEvents_buffer in H1. simpl in H1. rewrite H1.
  reflexivity.
Qed.

Lemma readLoop_congruence (before l1 l2 : list Read) :
  (forall cancelled s, readLoop cancelled l1 s = readLoop cancelled l2 s) ->
  forall cancelled s,
    readLoop cancelled (before ++ l1) s = readLoop cancelled (before ++ l2) s.
Proof.
  intros H. induction before as [|r before IH]; intros cancelled s;
    [apply H|].
  simpl. destruct cancelled; [reflexivity|].
  destruct (outcome r) as [text|e]; [|reflexivity].
  destruct (processRead s text); [apply IH | reflexivity].
Qed.

(** X16. The result of a streaming call does not depend on where the
    transport cuts the text into reads: handing the loop body a text in
    one read or in two consecutive reads gives the same state or the same
    exception (the part of an event that a read leaves unfinished is kept
    in [buffer] and completed by the next read), and so merging two
    consecutive reads of a stream, when nobody cancelled during the first,
    leaves the response, the emitted texts and the tool calls as they
    are. *)
Theorem stream_independent_of_read_boundaries :
  (forall s t1 t2,
      processRead s (t1 +:+ t2) =
      match processRead s t1 with
      | Returned s1 => processRead s1 t2
      | Threw e => Threw e
      end)
  /\ (forall cancelled before after t1 t2 flag,
         generateStreamingResponse
           (ResponseStream cancelled
              (before ++ mkRead false (ReadData t1)
                 :: mkRead flag (ReadData t2) :: after))
         = generateStreamingResponse
             (ResponseStream cancelled
                (before ++ mkRead flag (ReadData (t1 +:+ t2)) :: after))).
Proof.
  split; [apply processRead_append|].
  intros cancelled before after t1 t2 flag.
  unfold Client.generateStreamingResponse.
  rewrite (readLoop_congruence before
             (mkRead false (ReadData t1) :: mkRead flag (ReadData t2) :: after)
             (mkRead flag (ReadData (t1 +:+ t2)) :: after)); [reflexivity|].
  intros c s. destruct c; [reflexivity|].
  cbn [Client.readLoop outcome cancelRequested].
  rewrite processRead_append.
  destruct (processRead s t1) as [s1|e]; reflexivity.
Qed.

(** X17. The framing of a read loses nothing: when the loop body returns,
    the events it handed on, followed by the text it kept in [buffer],
    joined by the blank-line separator, are the old buffer followed by the
    text of the read; no event and no kept buffer contains the separator;
    and the lines of an event joined by a line feed are the event. *)
Theorem framing_loses_nothing (s s' : StreamState) (text : string) :
  processRead s text = Returned s' ->
  exists events,
    processRead s text =
      forEach processEvent events (setBuffer (st_buffer s') s)
    /\ String.concat eventSeparator (events ++ [st_buffer s'])
       = st_buffer s +:+ text
    /\ List.Forall (fun e => includes e eventSeparator = false)
                   (events ++ [st_buffer s'])
    /\ List.Forall
         (fun e => String.concat lineSeparator (split e lineSeparator) = e)
         events.
Proof.
  intros H. rewrite processRead_unfold in H.
  pose proof (processEvents_buffer _ _ _ H) as Hb. simpl in Hb.
  set (E := split (st_buffer s +:+ text) eventSeparator) in *.
  exists (removelast E). rewrite Hb.
  assert (HE : removelast E ++ [List.last E ""] = E).
  { symmetry. apply app_removelast_last. apply split_nonempty. }
  split; [apply processRead_unfold|]. rewrite HE.
  split; [apply concat_split, eventSeparator_nonempty|].
  split; [apply split_pieces_quiet, eventSeparator_nonempty|].
  apply List.Forall_forall. intros e _. apply concat_split. discriminate.
Qed.

End WithJSON.

(** One complete event followed by the beginning of the next. *)
Lemma framing_loses_nothing_witness :
  exists events,
    Client.processRead (Scenario.parseKnown Scenario.knownChunks)
      Scenario.quietCallback initialStream
      (Scenario.event (Scenario.textDelta "Hello ") +:+ "data: {")
    = forEach (Client.processEvent (Scenario.parseKnown Scenario.knownChunks)
                                   Scenario.quietCallback)
        events (setBuffer "data: {" initialStream)
    /\ String.concat eventSeparator (events ++ ["data: {"])
       = "" +:+ Scenario.event (Scenario.textDelta "Hello ") +:+ "data: {".
Proof.
  destruct (framing_loses_nothing
              (Scenario.parseKnown Scenario.knownChunks)
              Scenario.quietCallback
              initialStream
              (mkStream "Hello " "data: {" [] ["Hello "])
              (Scenario.event (Scenario.textDelta "Hello ") +:+ "data: {"))
    as (events & Hrun & Hjoin & _).
  - vm_compute. reflexivity.
  - exists events. split; [exact Hrun | exact Hjoin].
Defined.

End FramingFacts.

(* --------------------------------------------------------------------- *)

Module RequestFacts.

Import Js ClientRequest.

Lemma normalizeConversation_app (h1 h2 : list (option HistoryItem)) :
  normalizeConversation (h1 ++ h2)
  = normalizeConversation h1 ++ normalizeConversation h2.
Proof.
  induction h1 as [|item rest IH]; [reflexivity|].
  cbn [normalizeConversation app]. now rewrite IH, app_assoc.
Qed.

Lemma normalizeItem_cases (item : option HistoryItem) :
  match item with
  | Some i =>
      match recognizedRole (item_role i) with
      | Some r =>
          exists m, normalizeItem item = [m] /\ role m = r
            /\ (is_Some (tool_calls m) -> r = assistant)
            /\ (is_Some (tool_call_id m) \/ is_Some (name m) -> r = tool)
      | None => normalizeItem item = []
      end
  | None => normalizeItem item = []
  end.
Proof.
  destruct item as [i|]; [|reflexivity].
  unfold normalizeItem.
  destruct (recognizedRole (item_role i)) as [r|]; [|reflexivity].
  destruct r, (item_tool_calls i) as [calls|];
    (eexists; split; [reflexivity|]; cbn;
     repeat split; try reflexivity;
     try (intros [x Hx]; discriminate Hx);
     try (intros [[x Hx]|[x Hx]]; discriminate Hx)).
Qed.

(** X18. [normalizeConversation] keeps exactly the entries with one of
    the four roles, one message each and in their order: the roles of
    the messages are the recognised roles of the history, the result is
    no longer than the history, two histories put together give the two
    results put together, and only an assistant message carries tool
    calls while only a tool message carries a tool-call id or a name. *)
Theorem normalizeConversation_keeps_recognised_roles
    (history more : list (option HistoryItem)) :
  map role (normalizeConversation history)
  = List.flat_map
      (fun item =>
         match item with
         | Some i =>
             match recognizedRole (item_role i) with
             | Some r => [r]
             | None => []
             end
         | None => []
         end) history
  /\ length (normalizeConversation history) <= length history
  /\ normalizeConversation (history ++ more)
     = normalizeConversation history ++ normalizeConversation more
  /\ List.Forall
       (fun m =>
          (is_Some (tool_calls m) -> role m = assistant)
          /\ (is_Some (tool_call_id m) \/ is_Some (name m) -> role m = tool))
       (normalizeConversation history).
Proof.
  split; [|split; [|split]].
  - induction history as [|item rest IH]; [reflexivity|].
    cbn [normalizeConversation List.flat_map].
    rewrite map_app, IH. f_equal.
    pose proof (normalizeItem_cases item) as H.
    destruct item as [i|]; [|now rewrite H].
    destruct (recognizedRole (item_role i)) as [r|]; [|now rewrite H].
    destruct H as (m & -> & <- & _). reflexivity.
  - induction history as [|item rest IH]; [reflexivity|].
    cbn [normalizeConversation]. rewrite length_app. cbn [length].
    pose proof (normalizeItem_cases item) as H.
    destruct item as [i|]; [|rewrite H; cbn; lia].
    destruct (recognizedRole (item_role i)) as [r|]; [|rewrite H; cbn; lia].
    destruct H as (m & -> & _). cbn. lia.
  - apply normalizeConversation_app.
  - induction history as [|item rest IH]; [constructor|].
    cbn [normalizeConversation]. apply List.Forall_app. split; [|exact IH].
    pose proof (normalizeItem_cases item) as H.
    destruct item as [i|]; [|rewrite H; constructor].
    destruct (recognizedRole (item_role i)) as [r|]; [|rewrite H; constructor].
    destruct H as (m & -> & <- & H1 & H2).
    constructor; [|constructor]. split; assumption.
Qed.

Section WithTypes.

Variable Number : Type.
Variable ToolDefinition : Type.
Variable getSystemPromptWithCustom :
  option (list ToolDefinition) -> option CustomPrompt -> option string ->
  string.

Local Abbreviation build := (buildRequestPayload getSystemPromptWithCustom).

(** X19. [buildRequestPayload] throws only when neither the request nor
    the configuration names a model and the registry is empty, and then
    with the registry error; a model named by the request wins over the
    configured one, which wins over the chat default.  A payload always
    ends with the user message; for an extended request it starts with
    one system message and has the normalised history in between.  Tools
    and [tool_choice] appear together, exactly for an extended request
    with at least one tool, one wire tool per definition, and
    [max_tokens] is never zero.  A rejected memory read gives the payload
    of a plugin without memory. *)
Theorem buildRequestPayload_outcome
    (GEMINI_MODELS : list Models.GeminiModel) (config : Config Number)
    (memory : AgentsMemory) (request : Request Number ToolDefinition)
    (stream : bool) (e : Thrown) :
  match build GEMINI_MODELS config memory request stream with
  | Threw err =>
      truthy (model request) = false
      /\ truthy (config_model config) = false
      /\ GEMINI_MODELS = []
      /\ err = Models.emptyRegistryError
  | Returned p =>
      Some (payload_model p)
      = (if truthy (model request) then model request
         else if truthy (config_model config) then config_model config
         else Manager.roleDefault GEMINI_MODELS Models.chat)
      /\ payload_stream p = stream
      /\ (exists before text,
            payload_messages p
            = before ++ [mkChat user text None None None]
            /\ match extended request with
               | None => before = [] /\ text = prompt request
               | Some ext =>
                   (exists instruction,
                      before
                      = mkChat system instruction None None None
                        :: normalizeConversation
                             (match conversationHistory ext with
                              | Some h => h
                              | None => []
                              end))
                   /\ String.prefix (userMessage ext) text = true
               end)
      /\ payload_tools p
         = match extended request with
           | Some ext =>
               match availableTools ext with
               | Some (t :: ts) => Some (map mkWireTool (t :: ts))
               | _ => None
               end
           | None => None
           end
      /\ payload_tool_choice p
         = match payload_tools p with
           | Some _ => Some "auto"
           | None => None
           end
      /\ payload_max_tokens p <> Some 0%Z
  end
  /\ build GEMINI_MODELS config (ReadRejects e) request stream
     = build GEMINI_MODELS config NoMemory request stream.
Proof.
  split; [|reflexivity].
  unfold buildRequestPayload.
  destruct (truthy (model request)) eqn:Hm.
  - cbn iota.
    split; [|split; [reflexivity|split; [|split; [reflexivity|split; [reflexivity|]]]]].
    + cbn. destruct (model request) as [m|]; [reflexivity|discriminate Hm].
    + cbn [payload_messages].
      destruct (extended request) as [ext|].
      * eexists (_ :: _), _. split; [reflexivity|].
        split; [eexists; reflexivity|].
        destruct (imageAttachments ext) as [[|n]|];
          first [apply FramingFacts.prefix_append_self
                | now rewrite <- (ClientFacts.append_nil_r (userMessage ext)) at 2;
                      apply FramingFacts.prefix_append_self ].
      * exists [], (prompt request). auto.
    + cbn [payload_max_tokens].
      destruct (config_maxOutputTokens config) as [n|]; [|discriminate].
      destruct (Z.eqb_spec n 0); [discriminate|congruence].
  - destruct (truthy (config_model config)) eqn:Hc.
    + cbn iota.
      split; [|split; [reflexivity|split; [|split; [reflexivity|split; [reflexivity|]]]]].
      * cbn. destruct (config_model config) as [m|]; [reflexivity|discriminate Hc].
      * cbn [payload_messages].
        destruct (extended request) as [ext|].
        -- eexists (_ :: _), _. split; [reflexivity|].
           split; [eexists; reflexivity|].
           destruct (imageAttachments ext) as [[|n]|];
             first [apply FramingFacts.prefix_append_self
                   | now rewrite <- (ClientFacts.append_nil_r (userMessage ext)) at 2;
                         apply FramingFacts.prefix_append_self ].
        -- exists [], (prompt request). auto.
      * cbn [payload_max_tokens].
        destruct (config_maxOutputTokens config) as [n|]; [|discriminate].
        destruct (Z.eqb_spec n 0); [discriminate|congruence].
    + unfold Manager.roleDefault.
      destruct (Models.getDefaultModelForRole GEMINI_MODELS Models.chat)
        as [d|err] eqn:Hd.
      * split; [reflexivity|split; [reflexivity|split; [|split; [reflexivity|split; [reflexivity|]]]]].
        -- cbn [payload_messages].
           destruct (extended request) as [ext|].
           ++ eexists (_ :: _), _. split; [reflexivity|].
              split; [eexists; reflexivity|].
              destruct (imageAttachments ext) as [[|n]|];
                first [apply FramingFacts.prefix_append_self
                      | now rewrite <- (ClientFacts.append_nil_r (userMessage ext)) at 2;
                            apply FramingFacts.prefix_append_self ].
           ++ exists [], (prompt request). auto.
        -- cbn [payload_max_tokens].
           destruct (config_maxOutputTokens config) as [n|]; [|discriminate].
           destruct (Z.eqb_spec n 0); [discriminate|congruence].
      * unfold Models.getDefaultModelForRole in Hd.
        destruct (List.find _ GEMINI_MODELS); [discriminate Hd|].
        destruct GEMINI_MODELS; [|discriminate Hd].
        injection Hd as <-. auto.
Qed.

End WithTypes.

End RequestFacts.

(* --------------------------------------------------------------------- *)

Module StreamFacts.

Import Js Client Framing StreamContent.

Lemma truthy_eqb_empty (data : string) :
  negb (truthy (Some data)) = String.eqb data "".
Proof. destruct data; reflexivity. Qed.

Section WithJSON.

Variable JSON_parse : string -> option JSON.
Variable JSON_parse_chunk : string -> ChunkParse.
Variable onChunk : list string -> string -> option Thrown.

Local Abbreviation parseJson := (Client.parseJson JSON_parse).
Local Abbreviation finalToolCalls := (Client.finalToolCalls JSON_parse).
Local Abbreviation finalize := (Client.finalize JSON_parse).
Local Abbreviation processLine :=
  (Client.processLine JSON_parse_chunk onChunk).
Local Abbreviation processEvent :=
  (Client.processEvent JSON_parse_chunk onChunk).
Local Abbreviation processRead :=
  (Client.processRead JSON_parse_chunk onChunk).
Local Abbreviation readLoop := (Client.readLoop JSON_parse_chunk onChunk).
Local Abbreviation generateStreamingResponse :=
  (Client.generateStreamingResponse JSON_parse JSON_parse_chunk onChunk).
Local Abbreviation lineTexts := (StreamContent.lineTexts JSON_parse_chunk).
Local Abbreviation lineToolCalls :=
  (StreamContent.lineToolCalls JSON_parse_chunk).
Local Abbreviation readable := (StreamContent.readable JSON_parse_chunk).

(** The state after the texts and deltas of some lines were taken in. *)
Local Abbreviation carried s lines :=
  (mkStream (st_markdown s +:+ joinAll (flat_map lineTexts lines))
            (st_buffer s)
            (fold_left applyToolCallDelta (flat_map lineToolCalls lines)
                       (st_toolCallBuffer s))
            (st_emitted s ++ flat_map lineTexts lines)).

Lemma carried_nil (s : StreamState) : carried s [] = s.
Proof.
  destruct s. cbn [flat_map joinAll fold_right fold_left st_markdown st_buffer
                   st_toolCallBuffer st_emitted].
  now rewrite ClientFacts.append_nil_r, app_nil_r.
Qed.

Lemma carried_app (s : StreamState) (l1 l2 : list string) :
  carried (carried s l1) l2 = carried s (l1 ++ l2).
Proof.
  cbn [st_markdown st_buffer st_toolCallBuffer st_emitted].
  rewrite !flat_map_app, ClientFacts.joinAll_app, fold_left_app.
  now rewrite ClientFacts.append_assoc, app_assoc.
Qed.

Lemma processLine_carried (s : StreamState) (line : string) (s' : StreamState) :
  processLine s line = Returned s' -> s' = carried s [line].
Proof.
  unfold Client.processLine, StreamContent.lineTexts,
    StreamContent.lineToolCalls, StreamContent.lineDelta,
    StreamContent.linePayload.
  cbn [flat_map]. rewrite !app_nil_r.
  destruct (startsWith line "data: "); cbn [negb].
  2:{ intros [= <-]. symmetry. apply carried_nil. }
  rewrite truthy_eqb_empty.
  destruct (String.eqb _ "" || String.eqb _ "[DONE]").
  { intros [= <-]. symmetry. apply carried_nil. }
  destruct (JSON_parse_chunk _) as [e|e|chunk]; [discriminate|discriminate|].
  cbv zeta.
  destruct (match choices chunk with
            | Some (first :: _) => delta first
            | _ => None
            end) as [d|].
  2:{ cbn [truthy]. intros [= <-]. symmetry. apply carried_nil. }
  destruct (content d) as [[|a t]|]; cbn [orEmpty truthy].
  - destruct (tool_calls d) as [[|tc tcs]|]; intros [= <-]; destruct s;
      cbn; now rewrite ?ClientFacts.append_nil_r, ?app_nil_r.
  - destruct (onChunk (st_emitted s) (String a t)) as [e|]; [discriminate|].
    destruct (tool_calls d) as [[|tc tcs]|]; intros [= <-]; destruct s;
      cbn; now rewrite ?ClientFacts.append_nil_r, ?app_nil_r.
  - destruct (tool_calls d) as [[|tc tcs]|]; intros [= <-]; destruct s;
      cbn; now rewrite ?ClientFacts.append_nil_r, ?app_nil_r.
Qed.

Lemma processLine_returns (s : StreamState) (line : string) :
  readable line -> (forall h t, onChunk h t = None) ->
  exists s', processLine s line = Returned s'.
Proof.
  intros Hread Hquiet. unfold StreamContent.readable,
    StreamContent.linePayload in Hread. unfold Client.processLine.
  destruct (startsWith line "data: "); cbn [negb]; [|eauto].
  rewrite truthy_eqb_empty.
  destruct (String.eqb _ "" || String.eqb _ "[DONE]"); [eauto|].
  destruct (Hread _ eq_refl) as (chunk & ->). cbv zeta.
  destruct (truthy _); [rewrite Hquiet|];
    destruct (match choices chunk with
              | Some (first :: _) => delta first
              | _ => None
              end) as [d|]; eauto;
    destruct (tool_calls d) as [[|tc tcs]|]; eauto.
Qed.

Lemma processLines_carried (lines : list string) (s s' : StreamState) :
  forEach processLine lines s = Returned s' -> s' = carried s lines.
Proof.
  revert s. induction lines as [|line lines IH]; intros s H.
  - injection H as <-. symmetry. apply carried_nil.
  - cbn [forEach] in H.
    destruct (processLine s line) as [s1|e] eqn:Hl; [|discriminate].
    apply processLine_carried in Hl. apply IH in H. subst s1.
    rewrite H. apply (carried_app s [line] lines).
Qed.

Lemma processLines_return (lines : list string) (s : StreamState) :
  List.Forall readable lines -> (forall h t, onChunk h t = None) ->
  exists s', forEach processLine lines s = Returned s'.
Proof.
  intros Hread Hquiet. revert s.
  induction Hread as [|line lines Hl _ IH]; intros s; [cbn; eauto|].
  cbn [forEach].
  destruct (processLine_returns s line Hl Hquiet) as (s1 & ->). apply IH.
Qed.

Lemma processEvents_carried (events : list string) (s s' : StreamState) :
  forEach processEvent events s = Returned s' ->
  s' = carried s (flat_map (fun event => split event lineSeparator) events).
Proof.
  revert s. induction events as [|event events IH]; intros s H.
  - injection H as <-. symmetry. apply carried_nil.
  - cbn [forEach] in H.
    destruct (processEvent s event) as [s1|e] eqn:He; [|discriminate].
    apply processLines_carried in He. apply IH in H. subst s1.
    rewrite H. cbn [flat_map]. apply carried_app.
Qed.

Lemma processEvents_return (events : list string) (s : StreamState) :
  List.Forall readable
    (flat_map (fun event => split event lineSeparator) events) ->
  (forall h t, onChunk h t = None) ->
  exists s', forEach processEvent events s = Returned s'.
Proof.
  intros Hread Hquiet. revert s.
  induction events as [|event events IH]; intros s; [cbn; eauto|].
  cbn [flat_map] in Hread. apply List.Forall_app in Hread as [H1 H2].
  cbn [forEach].
  destruct (processLines_return _ s H1 Hquiet) as (s1 & Hs1).
  unfold Client.processEvent at 1. 
  change (String "010" EmptyString) with lineSeparator. rewrite Hs1.
  apply IH, H2.
Qed.

Lemma processRead_carried (s : StreamState) (text : string) (s' : StreamState) :
  processRead s text = Returned s' ->
  s' = carried
         (setBuffer (List.last (split (st_buffer s +:+ text) eventSeparator) "")
                    s)
         (streamLines (st_buffer s +:+ text)).
Proof.
  rewrite FramingFacts.processRead_unfold. apply processEvents_carried.
Qed.

Lemma processRead_returns (s : StreamState) (text : string) :
  List.Forall readable (streamLines (st_buffer s +:+ text)) ->
  (forall h t, onChunk h t = None) ->
  exists s', processRead s text = Returned s'.
Proof.
  rewrite FramingFacts.processRead_unfold. apply processEvents_return.
Qed.

Lemma readLoop_dataReads (text : string) (texts : list string)
    (s : StreamState) :
  readLoop false (dataReads (text :: texts)) s
  = processRead s (joinAll (text :: texts)).
Proof.
  revert text s. induction texts as [|t2 texts IH]; intros text s.
  - cbn [dataReads map Client.readLoop outcome cancelRequested joinAll
         fold_right].
    rewrite ClientFacts.append_nil_r.
    now destruct (processRead s text).
  - change (joinAll (text :: t2 :: texts))
      with (text +:+ joinAll (t2 :: texts)).
    rewrite FramingFacts.processRead_append.
    change (dataReads (text :: t2 :: texts))
      with (mkRead false (ReadData text) :: dataReads (t2 :: texts)).
    cbn [Client.readLoop outcome cancelRequested].
    destruct (processRead s text) as [s1|e]; [apply IH | reflexivity].
Qed.

Lemma stream_carried (texts : list string) (s : StreamState) :
  readLoop false (dataReads texts) initialStream = Returned s ->
  st_markdown s = joinAll (flat_map lineTexts (streamLines (joinAll texts)))
  /\ st_emitted s = flat_map lineTexts (streamLines (joinAll texts))
  /\ st_toolCallBuffer s
     = fold_left applyToolCallDelta
         (flat_map lineToolCalls (streamLines (joinAll texts))) [].
Proof.
  destruct texts as [|text texts].
  - intros [= <-]. repeat split.
  - rewrite readLoop_dataReads. intros H.
    apply processRead_carried in H. subst s.
    cbn [st_markdown st_emitted st_toolCallBuffer st_buffer initialStream
         setBuffer].
    repeat split.
Qed.

Lemma stream_returns (texts : list string) :
  List.Forall readable (streamLines (joinAll texts)) ->
  (forall h t, onChunk h t = None) ->
  exists s, readLoop false (dataReads texts) initialStream = Returned s.
Proof.
  intros Hread Hquiet. destruct texts as [|text texts]; [cbn; eauto|].
  rewrite readLoop_dataReads. apply processRead_returns; assumption.
Qed.

Local Abbreviation spoken s :=
  (List.Forall (fun text : string => text <> "") (st_emitted s)).

Lemma processLine_spoken (s : StreamState) (line : string) (s' : StreamState) :
  spoken s -> processLine s line = Returned s' -> spoken s'.
Proof.
  intros Hs H. apply processLine_carried in H. subst s'.
  cbn [st_emitted flat_map]. rewrite app_nil_r.
  apply List.Forall_app. split; [exact Hs|].
  unfold StreamContent.lineTexts.
  destruct (StreamContent.lineDelta JSON_parse_chunk line) as [d|];
    [|constructor].
  destruct (content d) as [[|a t]|]; cbn [truthy orEmpty];
    repeat constructor. discriminate.
Qed.

Lemma processRead_spoken (s : StreamState) (text : string) (s' : StreamState) :
  spoken s -> processRead s text = Returned s' -> spoken s'.
Proof.
  intros Hs. unfold Client.processRead. intros H.
  refine (FramingFacts.forEach_invariant _ (fun s => spoken s) _ _ _ _ _ H);
    [|exact Hs].
  intros s1 event s2 Hs1. unfold Client.processEvent.
  apply (FramingFacts.forEach_invariant _ (fun s => spoken s)); [|exact Hs1].
  intros a b a'. apply processLine_spoken.
Qed.

Lemma readLoop_spoken (cancelled : bool) (reads : list Read)
    (s s' : StreamState) :
  spoken s -> readLoop cancelled reads s = Returned s' -> spoken s'.
Proof.
  revert cancelled s. induction reads as [|r reads IH]; intros cancelled s Hs H.
  - destruct cancelled; now injection H as <-.
  - destruct cancelled; simpl in H; [now injection H as <-|].
    destruct (outcome r) as [text|e]; [|discriminate].
    destruct (processRead s text) as [s1|e] eqn:Hr; [|discriminate].
    eapply IH; [eapply processRead_spoken; eassumption | exact H].
Qed.



(** X20. Whatever the transport delivers, a streaming call that completes
    had a response body; its markdown is the concatenation of the texts
    handed to the callback, in order, none of which is empty; its
    rendered text is empty; and every tool call it reports has a name. *)
Theorem generateStreamingResponse_outcome
    (transport : Transport) (response : ModelResponse)
    (emitted : list string) :
  generateStreamingResponse transport = Returned (response, emitted) ->
  (exists cancelled reads, transport = ResponseStream cancelled reads)
  /\ markdown response = joinAll emitted
  /\ rendered response = ""
  /\ List.Forall (fun text => text <> "") emitted
  /\ match toolCalls response with
     | Some calls =>
         List.Forall (fun call => truthy (name call) = true) calls
     | None => True
     end.
Proof.
  destruct transport as [e|status errorText|cancelled reads];
    cbn [Client.generateStreamingResponse]; [discriminate|discriminate|].
  destruct (readLoop cancelled reads initialStream) as [s|e] eqn:Hloop;
    [|discriminate].
  intros [= <- <-]. split; [eauto|].
  pose proof (ClientFacts.readLoop_Extends _ _ _ _ _ _ Hloop)
    as (more & deltas & He & Hm & _).
  cbn in He, Hm.
  split; [cbn; now rewrite Hm, He|].
  split; [reflexivity|].
  split.
  - eapply readLoop_spoken; [|exact Hloop]. constructor.
  - cbn. unfold Client.finalToolCalls.
    destruct (0 <? length (st_toolCallBuffer s))%nat; [|exact I].
    apply List.Forall_map, List.Forall_forall.
    intros fragment Hin. apply List.filter_In in Hin. exact (proj2 Hin).
Qed.

End WithJSON.



(** A completed call of two reads, the second cut inside an event. *)
Lemma generateStreamingResponse_outcome_witness :
  Client.generateStreamingResponse Scenario.parseArguments
    (Scenario.parseKnown Scenario.knownChunks) Scenario.quietCallback
    (ResponseStream false
       [Scenario.dataRead false
          [Scenario.textDelta "Hello "; Scenario.textDelta "World"];
        mkRead false (ReadData "data: {")])
  = Returned (mkResponse "Hello World" "" None, ["Hello "; "World"])
  /\ markdown (mkResponse "Hello World" "" None)
     = joinAll ["Hello "; "World"]
  /\ List.Forall (fun text => text <> "") ["Hello "; "World"].
Proof.
  assert (Hrun :
    Client.generateStreamingResponse Scenario.parseArguments
      (Scenario.parseKnown Scenario.knownChunks) Scenario.quietCallback
      (ResponseStream false
         [Scenario.dataRead false
            [Scenario.textDelta "Hello "; Scenario.textDelta "World"];
          mkRead false (ReadData "data: {")])
    = Returned (mkResponse "Hello World" "" None, ["Hello "; "World"])).
  { vm_compute. reflexivity. }
  split; [exact Hrun|].
  destruct (generateStreamingResponse_outcome _ _ _ _ _ _ Hrun)
    as (_ & Hm & _ & Hs & _).
  split; [exact Hm | exact Hs].
Defined.

End StreamFacts.

(* --------------------------------------------------------------------- *)

Module ToolsFacts.

Import Js Tools.

#[local] Arguments String.append : simpl nomatch.

Lemma length_sliceTo (n : nat) (s : string) :
  String.length (sliceTo n s) = Nat.min n (String.length s).
Proof.
  unfold sliceTo. revert s. induction n as [|n IH]; intros [|c s]; simpl;
    try reflexivity.
  now rewrite IH.
Qed.

Lemma sliceTo_short (n : nat) (s : string) :
  String.length s <= n -> sliceTo n s = s.
Proof.
  unfold sliceTo. revert s. induction n as [|n IH]; intros [|c s]; simpl;
    intros H; try reflexivity; try lia.
  rewrite IH; [reflexivity | lia].
Qed.

Lemma truthy_nonempty (s : string) : truthy (Some s) = true <-> s <> "".
Proof. destruct s; simpl; split; congruence. Qed.

Lemma endsWith_refl (s : string) : endsWith s s = true.
Proof. destruct s; simpl; [reflexivity|]. now rewrite Ascii.eqb_refl, String.eqb_refl. Qed.

Lemma endsWith_append (s suffix : string) : endsWith (s +:+ suffix) suffix = true.
Proof.
  induction s as [|c s IH]; [apply endsWith_refl|].
  change (String c s +:+ suffix) with (String c (s +:+ suffix)).
  cbn [endsWith]. rewrite IH. apply orb_true_r.
Qed.

Lemma normalize_endsWith (outputFile : string) :
  endsWith (DeepResearchTool.normalize outputFile) ".md" = true.
Proof.
  unfold DeepResearchTool.normalize.
  destruct (endsWith outputFile ".md") eqn:H; [exact H | apply endsWith_append].
Qed.


(** X21. The progress descriptions of the three tools are short whatever
    they are given: at most 42 characters for deep research, 53 for the
    web search and 47 for the web fetch.  A topic, query or URL that is
    not empty and has at most 25, 30 or 35 characters is shown in full,
    without an ellipsis. *)
Theorem progress_descriptions_are_short
    (params : DeepResearchTool.Params) (query url : string) :
  String.length (DeepResearchTool.getProgressDescription params) <= 42
  /\ String.length (GoogleSearchTool.getProgressDescription query) <= 53
  /\ String.length (WebFetchTool.getProgressDescription url) <= 47
  /\ (forall topic,
        DeepResearchTool.topic params = Some topic ->
        topic <> "" -> String.length topic <= 25 ->
        DeepResearchTool.getProgressDescription params
        = "Researching " +:+ doubleQuote +:+ topic +:+ doubleQuote)
  /\ (query <> "" -> String.length query <= 30 ->
      GoogleSearchTool.getProgressDescription query
      = "Searching web for " +:+ doubleQuote +:+ query +:+ doubleQuote)
  /\ (url <> "" -> String.length url <= 35 ->
      WebFetchTool.getProgressDescription url = "Fetching " +:+ url).
Proof.
  split; [|split; [|split; [|split; [|split]]]].
  - unfold DeepResearchTool.getProgressDescription.
    rewrite !FramingFacts.length_append.
    assert (String.length
              (let shown := option_map (sliceTo 25) (DeepResearchTool.topic params) in
               if truthy shown then orEmpty shown else "topic") <= 25) as H.
    { destruct (DeepResearchTool.topic params) as [t|]; cbn [option_map];
        [|cbn; lia].
      destruct (truthy (Some (sliceTo 25 t))); [|cbn; lia].
      cbn [orEmpty]. rewrite length_sliceTo. lia. }
    cbn zeta in H.
    destruct (25 <? _)%nat; cbn [String.length doubleQuote]; lia.
  - unfold GoogleSearchTool.getProgressDescription.
    destruct (truthy (Some query)); [|cbn; lia].
    rewrite !FramingFacts.length_append, length_sliceTo.
    destruct (30 <? _)%nat; cbn [String.length doubleQuote]; lia.
  - unfold WebFetchTool.getProgressDescription.
    destruct (truthy (Some url)); [|cbn; lia].
    rewrite !FramingFacts.length_append, length_sliceTo.
    destruct (35 <? _)%nat; cbn [String.length]; lia.
  - intros topic Ht Hne Hlen.
    unfold DeepResearchTool.getProgressDescription. rewrite Ht.
    cbn [option_map orEmpty]. rewrite (sliceTo_short 25 topic Hlen).
    apply truthy_nonempty in Hne. rewrite Hne.
    destruct (Nat.ltb_spec 25 (String.length topic)); [lia|].
    reflexivity.
  - intros Hne Hlen. unfold GoogleSearchTool.getProgressDescription.
    apply truthy_nonempty in Hne. rewrite Hne.
    rewrite (sliceTo_short 30 query Hlen).
    destruct (Nat.ltb_spec 30 (String.length query)); [lia|].
    reflexivity.
  - intros Hne Hlen. unfold WebFetchTool.getProgressDescription.
    apply truthy_nonempty in Hne. rewrite Hne.
    rewrite (sliceTo_short 35 url Hlen).
    destruct (Nat.ltb_spec 35 (String.length url)); [lia|].
    now rewrite ClientFacts.append_nil_r.
Qed.


Lemma length_zero (s : string) : (String.length s =? 0)%nat = true <-> s = "".
Proof. destruct s; simpl; split; congruence. Qed.

Lemma prefix_literal (p s : string) : String.prefix p (p +:+ s) = true.
Proof. apply FramingFacts.prefix_append_self. Qed.

Lemma trim_blank (s : string) :
  List.Forall (fun c => In (nat_of_ascii c) [9; 10; 11; 12; 13; 32; 160]%nat)
              (list_ascii_of_string s) ->
  trim s = "".
Proof.
  unfold trim. intros H.
  assert (Hstart : trimStart s = "").
  { induction s as [|c s IH]; [reflexivity|].
    cbn [list_ascii_of_string] in H. inversion H as [|? ? Hc Hs]; subst.
    cbn [trimStart].
    assert (Hsp : isSpace c = true).
    { unfold isSpace. cbn [In] in Hc.
      repeat (destruct Hc as [<-|Hc]; [reflexivity|]). contradiction. }
    rewrite Hsp. apply IH, Hs. }
  now rewrite Hstart.
Qed.

(** X22. [DeepResearchTool.execute] never throws.  It succeeds only for a
    topic that is a string and not blank, with an API key configured and
    an ok response whose report is not empty, after exactly one request,
    sent to the configured chat model with web search offered; the report
    and the number of citations are those of the response.  When an
    output file is asked for, the report is written at that path, with
    [.md] appended unless it is there already, the path is returned, and
    it joins the session's context files when the call has a session and
    the path is a file; without an output file the vault and the context
    files are left alone.  A failure adds nothing to the context files.
    A topic that is blank or not a string, and then a missing key, are
    refused before any request and without any change; every later
    failure follows one request and reports that no report was generated
    or starts with [Deep research failed: ].  In particular a topic made
    only of white space (tab, line feed, vertical tab, form feed,
    carriage return, space, no-break space) is refused in this way. *)
Theorem deepResearch_execute_outcome
    (env : Env) (params : DeepResearchTool.Params) (st : State) :
  (exists result st',
    DeepResearchTool.execute env params st = (Returned result, st')
    /\ match result with
       | Success data =>
           DeepResearchTool.topic params
           = Some (DeepResearchTool.data_topic data)
           /\ trim (DeepResearchTool.data_topic data) <> ""
           /\ Models.apiKey (settings env) <> ""
           /\ (exists r,
                 groq env = Returned (Ok (Returned r))
                 /\ DeepResearchTool.report data = orEmpty (message_content r)
                 /\ DeepResearchTool.sources data = length (citationsOf r))
           /\ DeepResearchTool.report data <> ""
           /\ (exists body,
                 posted st' = posted st ++ [body]
                 /\ body_model body = chatModel env
                 /\ body_webSearch body = true)
           /\ match DeepResearchTool.data_outputFile data with
              | Some path =>
                  truthy (DeepResearchTool.outputFile params) = true
                  /\ path = DeepResearchTool.normalize
                              (orEmpty (DeepResearchTool.outputFile params))
                  /\ endsWith path ".md" = true
                  /\ writeRejects env = None
                  /\ files st'
                     = <[path := DeepResearchTool.report data]> (files st)
                  /\ contextFiles st'
                     = (if hasSession env && isTFile env path
                        then contextFiles st ++ [path]
                        else contextFiles st)
              | None =>
                  truthy (DeepResearchTool.outputFile params) = false
                  /\ files st' = files st
                  /\ contextFiles st' = contextFiles st
              end
       | Failure error =>
           contextFiles st' = contextFiles st
           /\ ((error = DeepResearchTool.topicError /\ st' = st
                /\ forall t, DeepResearchTool.topic params = Some t ->
                             trim t = "")
               \/ (error = keyError /\ st' = st
                   /\ Models.apiKey (settings env) = ""
                   /\ exists t, DeepResearchTool.topic params = Some t
                                /\ trim t <> "")
               \/ ((exists body, posted st' = posted st ++ [body])
                   /\ (error = "No report generated"
                       \/ String.prefix "Deep research failed: " error
                          = true)))
       end)
  /\ (forall t,
        DeepResearchTool.topic params = Some t ->
        List.Forall
          (fun c => In (nat_of_ascii c) [9; 10; 11; 12; 13; 32; 160]%nat)
          (list_ascii_of_string t) ->
        DeepResearchTool.execute env params st
        = (Returned (Failure DeepResearchTool.topicError), st)).
Proof.
  split.
  2:{ intros t Ht Hblank. unfold DeepResearchTool.execute.
      now rewrite Ht, (trim_blank t Hblank). }
  unfold DeepResearchTool.execute.
  destruct (DeepResearchTool.topic params) as [topic|] eqn:Htopic.
  2:{ eexists _, _. split; [reflexivity|]. split; [reflexivity|].
      left. split; [reflexivity|]. split; [reflexivity|]. discriminate. }
  destruct (String.length (trim topic) =? 0)%nat eqn:Hblank.
  { eexists _, _. split; [reflexivity|]. split; [reflexivity|].
    left. split; [reflexivity|]. split; [reflexivity|].
    intros t [= <-]. now apply length_zero. }
  assert (Hnonblank : trim topic <> "").
  { intros H. apply length_zero in H. congruence. }
  destruct (truthy (Some (Models.apiKey (settings env)))) eqn:Hkey; cbn [negb].
  2:{ eexists _, _. split; [reflexivity|]. split; [reflexivity|].
      right. left. split; [reflexivity|]. split; [reflexivity|].
      split; [|eauto].
      destruct (Models.apiKey (settings env)); [reflexivity|discriminate Hkey]. }
  apply truthy_nonempty in Hkey.
  unfold tryCatch, bind, post, await, ret.
  destruct (groq env) as [[status [errorText|e]|[r|e]]|e] eqn:Hgroq;
    cbn [fst snd].
  - eexists _, _. split; [reflexivity|]. split; [reflexivity|].
    right. right. split; [eexists; reflexivity|]. right. apply prefix_literal.
  - eexists _, _. split; [reflexivity|]. split; [reflexivity|].
    right. right. split; [eexists; reflexivity|]. right. apply prefix_literal.
  - destruct (truthy (Some (orEmpty (message_content r)))) eqn:Hreport;
      cbn [negb].
    2:{ eexists _, _. split; [reflexivity|]. split; [reflexivity|].
        right. right. split; [eexists; reflexivity|]. now left. }
    apply truthy_nonempty in Hreport.
    destruct (truthy (DeepResearchTool.outputFile params)) eqn:Hout.
    + unfold write. destruct (writeRejects env) as [e|] eqn:Hwrite.
      * eexists _, _. split; [reflexivity|]. split; [reflexivity|].
        right. right. split; [eexists; reflexivity|]. right.
        apply prefix_literal.
      * unfold pushContextFile.
        destruct (hasSession env && isTFile env _) eqn:Hfile.
        -- eexists _, _. split; [reflexivity|].
           cbn [DeepResearchTool.data_topic DeepResearchTool.report
                DeepResearchTool.sources DeepResearchTool.data_outputFile
                posted files contextFiles].
           rewrite Hfile.
           split; [reflexivity|]. split; [assumption|]. split; [assumption|].
           split; [exists r; auto|]. split; [assumption|].
           split; [eexists; split; [reflexivity|split; reflexivity]|].
           split; [reflexivity|]. split; [reflexivity|].
           split; [apply normalize_endsWith|]. split; [reflexivity|].
           split; reflexivity.
        -- eexists _, _. split; [reflexivity|].
           cbn [DeepResearchTool.data_topic DeepResearchTool.report
                DeepResearchTool.sources DeepResearchTool.data_outputFile
                posted files contextFiles].
           rewrite Hfile.
           split; [reflexivity|]. split; [assumption|]. split; [assumption|].
           split; [exists r; auto|]. split; [assumption|].
           split; [eexists; split; [reflexivity|split; reflexivity]|].
           split; [reflexivity|]. split; [reflexivity|].
           split; [apply normalize_endsWith|]. split; [reflexivity|].
           split; reflexivity.
    + eexists _, _. split; [reflexivity|].
      cbn [DeepResearchTool.data_topic DeepResearchTool.report
           DeepResearchTool.sources DeepResearchTool.data_outputFile
           posted files contextFiles].
      split; [reflexivity|]. split; [assumption|]. split; [assumption|].
      split; [exists r; auto|]. split; [assumption|].
      split; [eexists; split; [reflexivity|split; reflexivity]|].
      split; [reflexivity|]. split; reflexivity.
  - eexists _, _. split; [reflexivity|]. split; [reflexivity|].
    right. right. split; [eexists; reflexivity|]. right. apply prefix_literal.
  - eexists _, _. split; [reflexivity|]. split; [reflexivity|].
    right. right. split; [eexists; reflexivity|]. right. apply prefix_literal.
Qed.


(** X23. [GoogleSearchTool.execute] never throws and never touches the
    vault, the context files or any page.  Without an API key it fails
    before any request; with one it posts exactly one request, carrying
    the query as the user message with web search offered, and succeeds
    exactly when the response is ok and its body can be read.  The answer
    of a success is never empty: it is the content of the response when
    that is not empty.  The citations keep their URLs, in order, and each
    one that has a title or a URL is reported with a title.  Every
    failure after the request starts with [Web search failed: ]. *)
Theorem webSearch_execute_outcome (env : Env) (query : string) (st : State) :
  exists result st',
    GoogleSearchTool.execute env query st = (Returned result, st')
    /\ files st' = files st
    /\ contextFiles st' = contextFiles st
    /\ pagesRequested st' = pagesRequested st
    /\ match result with
       | Success data =>
           Models.apiKey (settings env) <> ""
           /\ posted st'
              = posted st
                ++ [mkChatBody (chatModel env) GoogleSearchTool.systemMessage
                               query true]
           /\ GoogleSearchTool.data_query data = query
           /\ GoogleSearchTool.answer data <> ""
           /\ exists r,
                groq env = Returned (Ok (Returned r))
                /\ (truthy (message_content r) = true ->
                    Some (GoogleSearchTool.answer data) = message_content r)
                /\ map GoogleSearchTool.url (GoogleSearchTool.data_citations data)
                   = map cite_url (citationsOf r)
                /\ List.Forall2
                     (fun c d =>
                        truthy (cite_title c) || truthy (cite_url c) = true ->
                        truthy (GoogleSearchTool.title d) = true)
                     (citationsOf r) (GoogleSearchTool.data_citations data)
       | Failure error =>
           (error = keyError /\ st' = st /\ Models.apiKey (settings env) = "")
           \/ (Models.apiKey (settings env) <> ""
               /\ (exists body, posted st' = posted st ++ [body])
               /\ (forall r, groq env <> Returned (Ok (Returned r)))
               /\ String.prefix "Web search failed: " error = true)
       end.
Proof.
  unfold GoogleSearchTool.execute.
  destruct (truthy (Some (Models.apiKey (settings env)))) eqn:Hkey; cbn [negb].
  2:{ eexists _, _. split; [reflexivity|]. do 3 (split; [reflexivity|]).
      left. split; [reflexivity|]. split; [reflexivity|].
      destruct (Models.apiKey (settings env)); [reflexivity|discriminate Hkey]. }
  apply truthy_nonempty in Hkey.
  unfold tryCatch, bind, post, await, ret.
  destruct (groq env) as [[status [errorText|e]|[r|e]]|e] eqn:Hgroq;
    cbn [fst snd];
    try (eexists _, _; split; [reflexivity|]; do 3 (split; [reflexivity|]);
         right; split; [assumption|]; split; [eexists; reflexivity|];
         split; [discriminate | apply prefix_literal]).
  eexists _, _. split; [reflexivity|]. do 3 (split; [reflexivity|]).
  cbn [GoogleSearchTool.data_query GoogleSearchTool.answer
       GoogleSearchTool.data_citations posted].
  split; [assumption|]. split; [reflexivity|]. split; [reflexivity|].
  split.
  { destruct (message_content r) as [[|a t]|]; discriminate. }
  exists r. split; [reflexivity|]. split; [|split].
  - intros Ht. rewrite Ht. destruct (message_content r); [reflexivity|discriminate Ht].
  - rewrite map_map. reflexivity.
  - induction (citationsOf r) as [|c l IH]; constructor; [|exact IH].
    unfold GoogleSearchTool.toSearchCitation. cbn [GoogleSearchTool.title].
    destruct (truthy (cite_title c)) eqn:Hc; [auto|].
    now rewrite orb_false_l.
Qed.

Section WithPageTools.

Variable titleMatch : string -> option string.
Variable decodeHtmlEntities : string -> string.
Variable turndown : string -> string.

Local Abbreviation pageContent := (WebFetchTool.pageContent turndown).
Local Abbreviation execute :=
  (WebFetchTool.execute titleMatch decodeHtmlEntities turndown).

(** X24. The page content that [WebFetchTool] puts into its prompt is at
    most 24 characters longer than the limit of 16000: it starts with the
    first 16000 characters of the converted page, and is the converted
    page itself when that is within the limit.  [execute] never throws
    and never touches the vault or the context files.  Without an API key
    it fails before requesting anything.  Otherwise it requests the page
    once, and posts to the completions endpoint only when the page came
    back with status 200: then exactly once, without web search, with the
    page content at the end of the user message.  It succeeds only with
    a non-empty analysis, which it returns as the content. *)
Theorem webFetch_execute_outcome
    (env : Env) (url query rawHtml : string) (st : State) :
  (String.length (pageContent rawHtml) <= WebFetchTool.contentLimit + 24
   /\ String.prefix (sliceTo WebFetchTool.contentLimit (turndown rawHtml))
                    (pageContent rawHtml) = true
   /\ (String.length (turndown rawHtml) <= WebFetchTool.contentLimit ->
       pageContent rawHtml = turndown rawHtml))
  /\ exists result st',
       execute env url query st = (Returned result, st')
       /\ files st' = files st
       /\ contextFiles st' = contextFiles st
       /\ match result with
          | Success data =>
              Models.apiKey (settings env) <> ""
              /\ pagesRequested st' = pagesRequested st ++ [url]
              /\ (exists text, page env = Returned (mkPage 200 text)
                    /\ exists body,
                         posted st' = posted st ++ [body]
                         /\ body_webSearch body = false
                         /\ exists before,
                              body_user body = before +:+ pageContent text)
              /\ WebFetchTool.data_url data = url
              /\ WebFetchTool.data_query data = query
              /\ WebFetchTool.content data <> ""
              /\ exists r,
                   groq env = Returned (Ok (Returned r))
                   /\ Some (WebFetchTool.content data) = message_content r
          | Failure error =>
              (error = keyError /\ st' = st
               /\ Models.apiKey (settings env) = "")
              \/ (pagesRequested st' = pagesRequested st ++ [url]
                  /\ ((posted st' = posted st
                       /\ (forall text, page env <> Returned (mkPage 200 text))
                       /\ (String.prefix "HTTP " error = true
                           \/ String.prefix "Web fetch failed: " error = true))
                      \/ ((exists body, posted st' = posted st ++ [body])
                          /\ (exists text, page env = Returned (mkPage 200 text))
                          /\ (error = "No analysis generated from page content"
                              \/ String.prefix "Groq analysis failed: " error
                                 = true
                              \/ String.prefix "Web fetch failed: " error
                                 = true))))
          end.
Proof.
  split.
  { unfold WebFetchTool.pageContent.
    destruct (Nat.ltb_spec WebFetchTool.contentLimit
                           (String.length (turndown rawHtml))) as [Hlong|Hshort].
    - split; [|split].
      + rewrite !FramingFacts.length_append, length_sliceTo.
        unfold lineFeed, WebFetchTool.truncationNote. cbn [String.length]. lia.
      + apply prefix_literal.
      + intros Hc; exfalso; lia.
    - split; [lia|]. split; [|reflexivity].
      rewrite sliceTo_short by exact Hshort.
      rewrite <- (ClientFacts.append_nil_r (turndown rawHtml)) at 2.
      apply prefix_literal. }
  unfold WebFetchTool.execute.
  destruct (truthy (Some (Models.apiKey (settings env)))) eqn:Hkey; cbn [negb].
  2:{ eexists _, _. split; [reflexivity|]. do 2 (split; [reflexivity|]).
      left. split; [reflexivity|]. split; [reflexivity|].
      destruct (Models.apiKey (settings env)); [reflexivity|discriminate Hkey]. }
  apply truthy_nonempty in Hkey.
  unfold WebFetchTool.fallbackFetch, tryCatch, bind, requestUrlWithRetry, post,
    await, ret.
  destruct (page env) as [[status text]|e] eqn:Hpage; cbn [fst snd page_status page_text].
  2:{ eexists _, _. split; [reflexivity|]. do 2 (split; [reflexivity|]).
      right. split; [reflexivity|]. left. split; [reflexivity|].
      split; [discriminate|]. right. apply prefix_literal. }
  destruct (Z.eqb_spec status 200) as [->|Hstatus]; cbn [negb].
  2:{ eexists _, _. split; [reflexivity|]. do 2 (split; [reflexivity|]).
      right. split; [reflexivity|]. left. split; [reflexivity|].
      split; [congruence|]. left. apply prefix_literal. }
  destruct (groq env) as [[gstatus [errorText|e]|[r|e]]|e] eqn:Hgroq;
    cbn [fst snd];
    try (eexists _, _; split; [reflexivity|]; do 2 (split; [reflexivity|]);
         right; split; [reflexivity|]; right;
         split; [eexists; reflexivity|]; split; [eexists; reflexivity|];
         right; first [left; apply prefix_literal | right; apply prefix_literal]).
  destruct (truthy (Some (orEmpty (message_content r)))) eqn:Hanswer;
    cbn [negb].
  2:{ eexists _, _. split; [reflexivity|]. do 2 (split; [reflexivity|]).
      right. split; [reflexivity|]. right.
      split; [eexists; reflexivity|]. split; [eexists; reflexivity|].
      now left. }
  eexists _, _. split; [reflexivity|]. do 2 (split; [reflexivity|]).
  cbn [WebFetchTool.data_url WebFetchTool.data_query WebFetchTool.content
       posted pagesRequested].
  split; [assumption|]. split; [reflexivity|].
  split.
  { exists text. split; [reflexivity|]. eexists. split; [reflexivity|].
    split; [reflexivity|]. cbn [body_user].
    eexists. rewrite <- !ClientFacts.append_assoc. reflexivity. }
  split; [reflexivity|]. split; [reflexivity|].
  split; [now apply truthy_nonempty|].
  exists r. split; [reflexivity|].
  destruct (message_content r) as [c|]; [reflexivity|discriminate Hanswer].
Qed.

End WithPageTools.

End ToolsFacts.
